(** * RPi.GPIO on top of ArmbianIO: channel registry and edge events

    A shallow embedding of [python/RPi/GPIO.py].  The module keeps four
    globals ([_gpio_warnings], [_mode], [_exports], [_events]) and talks to
    the native ArmbianIO library through the [AIO*] functions.  Every public
    function of the module becomes a computation in a state-and-exception
    monad over the module globals and the board; a Python exception leaves
    the globals as they were when it was raised, so a failing computation
    still returns the state it reached. *)

From Stdlib Require Import ZArith Bool List Lia.
From stdpp Require Import base option list gmap fin_maps.

Local Open Scope Z_scope.

(** ** Constants of the module *)

Definition OUT : Z := 0.
Definition IN : Z := 1.
(** [HIGH = True] and [LOW = False]; a Python bool is the integer 1 or 0. *)
Definition HIGH : Z := 1.
Definition LOW : Z := 0.

Definition PUD_OFF : Z := 0.
Definition PUD_DOWN : Z := 1.
Definition PUD_UP : Z := 2.

Definition BOARD : Z := 10.
Definition BCM : Z := 11.

(** The edge constants are imported from [armbianio.armbianio], the wrapper
    of the native library: they are parameters of the development. *)
Class armbianio := {
  EDGE_FALLING : Z;
  EDGE_RISING : Z;
  EDGE_BOTH : Z;
  EDGE_NONE : Z
}.

(** The values of [armbianio.h]. *)
Definition armbianio_h : armbianio :=
  {| EDGE_FALLING := 0; EDGE_RISING := 1; EDGE_BOTH := 2; EDGE_NONE := 3 |}.

(** ** Exceptions *)

(** The messages of the [RuntimeError]s the module raises, named after the
    error kinds of the specification. *)
Inductive error :=
| BoardNotDetected                    (* "Board not detected" *)
| ModeNotSet                          (* "Mode has not been set" *)
| AlreadyConfigured (channel : Z)     (* "Channel {0} is already configured" *)
| ChannelNotConfigured (channel : Z)  (* "Channel {0} is not configured" *)
| WrongDirection (channel : Z) (configured_input : bool)
                                      (* "Channel {0} is configured for {1}" *)
| EventConflict     (* "Conflicting edge detection already enabled ..." *)
| NoEventRegistered (* "No event exists for this GPIO channel" *).

Inductive exn :=
| RuntimeError (e : error)
| AssertionError        (* a failed [assert] *)
| NotImplementedError
| TypeError             (* unhashable type: 'list' *)
| KeyError (key : Z).

Definition InvalidArgument : exn := AssertionError.
Definition NotSupported : exn := NotImplementedError.

(** ** The board *)

(** Modelled from the spec: the Board I/O Layer ([armbianio]'s [AIOInit],
    [AIOAddGPIO], [AIOReadGPIO], ...) is native code outside the sources.
    Section 6 of the specification lists its capabilities; the record keeps
    what each of them programs.  A pin that has been written reads back the
    level last written; any other pin reads the level the outside world puts
    on it, given by [signal] at the number of samples taken so far.  The
    calls report failure through their return value, never by raising. *)
Record board := {
  init_rc : Z;                 (* what [AIOInit] reports *)
  session : bool;              (* between [AIOInit] and [AIOShutdown] *)
  gpios : gmap Z Z;            (* added pins, with the argument of [AIOAddGPIO] *)
  driven : gmap Z Z;           (* level last written to a pin *)
  edge_flags : gmap Z Z;       (* edge flag programmed for a pin *)
  callbacks : gmap Z (Z * nat);(* registered callback: trigger and handle *)
  signal : Z → nat → Z;        (* external level of a pin at each sample *)
  samples : nat                (* number of external samples taken *)
}.

Inductive advisory := PullUpDownAdvisory | BouncetimeAdvisory.

(** ** The state: module globals, board, clock *)

Record state := {
  _gpio_warnings : bool;
  _mode : option Z;
  _exports : gmap Z Z;
  _events : gmap Z Z;
  hw : board;
  clock : nat → Z;             (* successive readings of [time.time()] *)
  ticks : nat;                 (* number of readings taken *)
  warned : list advisory       (* calls of [warnings.warn], latest first *)
}.

Definition with_warnings (b : bool) (s : state) : state :=
  {| _gpio_warnings := b; _mode := _mode s; _exports := _exports s;
     _events := _events s; hw := hw s; clock := clock s; ticks := ticks s;
     warned := warned s |}.

Definition with_mode (m : option Z) (s : state) : state :=
  {| _gpio_warnings := _gpio_warnings s; _mode := m; _exports := _exports s;
     _events := _events s; hw := hw s; clock := clock s; ticks := ticks s;
     warned := warned s |}.

Definition with_exports (e : gmap Z Z) (s : state) : state :=
  {| _gpio_warnings := _gpio_warnings s; _mode := _mode s; _exports := e;
     _events := _events s; hw := hw s; clock := clock s; ticks := ticks s;
     warned := warned s |}.

Definition with_events (e : gmap Z Z) (s : state) : state :=
  {| _gpio_warnings := _gpio_warnings s; _mode := _mode s;
     _exports := _exports s; _events := e; hw := hw s; clock := clock s;
     ticks := ticks s; warned := warned s |}.

Definition with_hw (b : board) (s : state) : state :=
  {| _gpio_warnings := _gpio_warnings s; _mode := _mode s;
     _exports := _exports s; _events := _events s; hw := b; clock := clock s;
     ticks := ticks s; warned := warned s |}.

Definition with_ticks (n : nat) (s : state) : state :=
  {| _gpio_warnings := _gpio_warnings s; _mode := _mode s;
     _exports := _exports s; _events := _events s; hw := hw s;
     clock := clock s; ticks := n; warned := warned s |}.

Definition with_warned (w : list advisory) (s : state) : state :=
  {| _gpio_warnings := _gpio_warnings s; _mode := _mode s;
     _exports := _exports s; _events := _events s; hw := hw s;
     clock := clock s; ticks := ticks s; warned := w |}.

(** The module as it is right after import, on a given board and clock. *)
Definition fresh_board (rc : Z) (sig : Z → nat → Z) : board :=
  {| init_rc := rc; session := false; gpios := ∅; driven := ∅;
     edge_flags := ∅; callbacks := ∅; signal := sig; samples := 0%nat |}.

Definition initial (b : board) (clk : nat → Z) : state :=
  {| _gpio_warnings := true; _mode := None; _exports := ∅; _events := ∅;
     hw := b; clock := clk; ticks := 0%nat; warned := [] |}.

(** ** The monad *)

(** A call returns a value, raises, or (for the polling loop only) is still
    running when the iteration budget is spent.  The state reached is
    returned in all three cases. *)
Inductive outcome (A : Type) :=
| Ok (a : A)
| Raise (e : exn)
| OutOfFuel.
Arguments Ok {A} a.
Arguments Raise {A} e.
Arguments OutOfFuel {A}.

Definition M (A : Type) : Type := state → outcome A * state.

Definition ret {A} (a : A) : M A := λ s, (Ok a, s).

Definition bind {A B} (m : M A) (k : A → M B) : M B :=
  λ s, match m s with
       | (Ok a, s') => k a s'
       | (Raise e, s') => (Raise e, s')
       | (OutOfFuel, s') => (OutOfFuel, s')
       end.

Definition raise {A} (e : exn) : M A := λ s, (Raise e, s).
Definition out_of_fuel {A} : M A := λ s, (OutOfFuel, s).
Definition gets {A} (f : state → A) : M A := λ s, (Ok (f s), s).
Definition modify (f : state → state) : M unit := λ s, (Ok tt, f s).

Declare Scope gpio_scope.
Delimit Scope gpio_scope with gpio.
Notation "x <~ m ;; k" := (bind m (λ x, k))
  (at level 100, m at next level, right associativity) : gpio_scope.
Notation "m ;;; k" := (bind m (λ _, k))
  (at level 100, right associativity) : gpio_scope.
Local Open Scope gpio_scope.

(** [assert cond], with assertions enabled. *)
Definition py_assert (cond : bool) : M unit :=
  if cond then ret tt else raise AssertionError.

(** [for x in l: body(x)], stopping at the first exception. *)
Definition for_each {A} (body : A → M unit) : list A → M unit :=
  fix go (l : list A) : M unit :=
    match l with
    | [] => ret tt
    | x :: rest => body x ;;; go rest
    end.

(** [del d[key]]: a [KeyError] when the key is absent. *)
Definition del_exports (key : Z) : M unit :=
  ex <~ gets _exports ;;
  match ex !! key with
  | Some _ => modify (with_exports (delete key ex))
  | None => raise (KeyError key)
  end.

Definition del_events (key : Z) : M unit :=
  ev <~ gets _events ;;
  match ev !! key with
  | Some _ => modify (with_events (delete key ev))
  | None => raise (KeyError key)
  end.

(** [warnings.warn(...)] *)
Definition warn (a : advisory) : M unit :=
  modify (λ s, with_warned (a :: warned s) s).

(** [time.time()] and [time.sleep(0.1)]: the clock is read from the
    environment, in whole units of time; sleeping changes nothing the module
    can see except the later readings. *)
Definition time_time : M Z :=
  λ s, (Ok (clock s (ticks s)), with_ticks (S (ticks s)) s).
Definition time_sleep : M unit := ret tt.

(** ** Board I/O calls *)

(** Modelled from the spec: the [AIO*] functions are the native calls behind
    the capabilities [init], [add_pin], [remove_pin], [read_pin],
    [write_pin], [set_edge], [register_callback], [unregister_callback] and
    [shutdown] of section 6.  Each one updates the part of the board it
    programs; [AIOInit] and [AIOReadGPIO] return a value. *)

Definition on_hw (f : board → board) : M unit :=
  modify (λ s, with_hw (f (hw s)) s).

Definition AIOInit : M Z :=
  λ s, let b := hw s in
       (Ok (init_rc b),
        with_hw {| init_rc := init_rc b;
                   session := bool_decide (init_rc b = 1);
                   gpios := gpios b; driven := driven b;
                   edge_flags := edge_flags b; callbacks := callbacks b;
                   signal := signal b; samples := samples b |} s).

Definition AIOShutdown : M unit :=
  on_hw (λ b, {| init_rc := init_rc b; session := false;
                 gpios := gpios b; driven := driven b;
                 edge_flags := edge_flags b; callbacks := callbacks b;
                 signal := signal b; samples := samples b |}).

Definition AIOAddGPIO (pin arg : Z) : M unit :=
  on_hw (λ b, {| init_rc := init_rc b; session := session b;
                 gpios := <[pin := arg]> (gpios b); driven := driven b;
                 edge_flags := edge_flags b; callbacks := callbacks b;
                 signal := signal b; samples := samples b |}).

Definition AIORemoveGPIO (pin : Z) : M unit :=
  on_hw (λ b, {| init_rc := init_rc b; session := session b;
                 gpios := delete pin (gpios b);
                 driven := delete pin (driven b);
                 edge_flags := edge_flags b; callbacks := callbacks b;
                 signal := signal b; samples := samples b |}).

Definition AIOWriteGPIO (pin level : Z) : M unit :=
  on_hw (λ b, {| init_rc := init_rc b; session := session b;
                 gpios := gpios b; driven := <[pin := level]> (driven b);
                 edge_flags := edge_flags b; callbacks := callbacks b;
                 signal := signal b; samples := samples b |}).

Definition AIOReadGPIO (pin : Z) : M Z :=
  λ s, let b := hw s in
       match driven b !! pin with
       | Some level => (Ok level, s)
       | None =>
           (Ok (signal b pin (samples b)),
            with_hw {| init_rc := init_rc b; session := session b;
                       gpios := gpios b; driven := driven b;
                       edge_flags := edge_flags b; callbacks := callbacks b;
                       signal := signal b; samples := S (samples b) |} s)
       end.

Definition AIOWriteGPIOEdge (pin edge : Z) : M unit :=
  on_hw (λ b, {| init_rc := init_rc b; session := session b;
                 gpios := gpios b; driven := driven b;
                 edge_flags := <[pin := edge]> (edge_flags b);
                 callbacks := callbacks b;
                 signal := signal b; samples := samples b |}).

Definition AIOAddGPIOCallback (pin edge : Z) (callback : nat) : M unit :=
  on_hw (λ b, {| init_rc := init_rc b; session := session b;
                 gpios := gpios b; driven := driven b;
                 edge_flags := edge_flags b;
                 callbacks := <[pin := (edge, callback)]> (callbacks b);
                 signal := signal b; samples := samples b |}).

Definition AIORemoveGPIOCallback (pin : Z) : M unit :=
  on_hw (λ b, {| init_rc := init_rc b; session := session b;
                 gpios := gpios b; driven := driven b;
                 edge_flags := edge_flags b;
                 callbacks := delete pin (callbacks b);
                 signal := signal b; samples := samples b |}).

(** ** The public functions of the module *)

(** A [channel] argument is a channel number or a (possibly nested) list of
    them: [isinstance(channel, list)] tells the two apart. *)
Local Unset Elimination Schemes.
Inductive channel_arg :=
| Chan (c : Z)
| ChanList (l : list channel_arg).
Local Set Elimination Schemes.

Definition _check_configured (channel : Z) (direction : option Z) : M unit :=
  ex <~ gets _exports ;;
  match ex !! channel with
  | None => raise (RuntimeError (ChannelNotConfigured channel))
  | Some configured =>
      match direction with
      | Some d =>
          if bool_decide (d ≠ configured)
          then raise (RuntimeError
                        (WrongDirection channel (bool_decide (configured = IN))))
          else ret tt
      | None => ret tt
      end
  end.

Definition getmode : M (option Z) := gets _mode.

Definition setmode (mode : Z) : M unit :=
  m <~ gets _mode ;;
  match m with
  | None =>
      rc <~ AIOInit ;;
      if bool_decide (rc ≠ 1) then raise (RuntimeError BoardNotDetected)
      else ret tt
  | Some _ => ret tt
  end ;;;
  py_assert (bool_decide (mode ∈ [BCM; BOARD])) ;;;
  modify (with_mode (Some mode)).

Definition setwarnings (enabled : bool) : M unit :=
  modify (with_warnings enabled).

(** [_exports[channel] = direction]: a list is not hashable. *)
Definition exports_setitem (channel : channel_arg) (direction : Z) : M unit :=
  match channel with
  | Chan c => modify (λ s, with_exports (<[c := direction]> (_exports s)) s)
  | ChanList _ => raise TypeError
  end.

Fixpoint setup (channel : channel_arg) (direction : Z)
    (initial pull_up_down : option Z) : M unit :=
  m <~ gets _mode ;;
  match m with
  | None => raise (RuntimeError ModeNotSet)
  | Some _ => ret tt
  end ;;;
  match pull_up_down with
  | Some _ =>
      w <~ gets _gpio_warnings ;;
      if w then warn PullUpDownAdvisory else ret tt
  | None => ret tt
  end ;;;
  match channel with
  | ChanList l =>
      for_each (λ ch, setup ch direction initial None) l
  | Chan c =>
      ex <~ gets _exports ;;
      if bool_decide (is_Some (ex !! c))
      then raise (RuntimeError (AlreadyConfigured c))
      else
        match initial with
        | Some i =>
            if bool_decide (direction = OUT) then AIOAddGPIO c i
            else AIOAddGPIO c direction
        | None => AIOAddGPIO c direction
        end
  end ;;;
  exports_setitem channel direction.

Definition input (channel : Z) : M Z :=
  _check_configured channel None ;;;
  AIOReadGPIO channel.

Fixpoint output (channel : channel_arg) (state : Z) : M unit :=
  match channel with
  | ChanList l => for_each (λ ch, output ch state) l
  | Chan c =>
      _check_configured c (Some OUT) ;;;
      AIOWriteGPIO c state
  end.

Definition event_detected (channel : Z) : M bool :=
  _check_configured channel (Some IN) ;;;
  raise NotImplementedError.

(** [cleanup(channel)] for a channel or a list of channels. *)
Fixpoint cleanup_channel (channel : channel_arg) : M unit :=
  match channel with
  | ChanList l => for_each (λ ch, cleanup_channel ch) l
  | Chan c =>
      _check_configured c None ;;;
      ev <~ gets _events ;;
      match ev !! c with
      | Some _ => AIORemoveGPIOCallback c ;;; del_events c
      | None => ret tt
      end ;;;
      AIORemoveGPIO c ;;;
      del_exports c
  end.

(** [cleanup(channel=None)]; [list(_exports.keys())] is the list of keys of
    the registry, taken before any of them is removed. *)
Definition cleanup (channel : option channel_arg) : M unit :=
  match channel with
  | None =>
      ex <~ gets _exports ;;
      cleanup_channel (ChanList (Chan <$> (map_to_list ex).*1)) ;;;
      setwarnings true ;;;
      modify (with_mode None) ;;;
      AIOShutdown
  | Some ch => cleanup_channel ch
  end.

Section Events.
Context {aio : armbianio}.

Definition RISING : Z := EDGE_RISING.
Definition FALLING : Z := EDGE_FALLING.
Definition BOTH : Z := EDGE_BOTH.
Definition NONE : Z := EDGE_NONE.

(** The local variables of the polling loop of [wait_for_edge]. *)
Record loop_vars := {
  originalValue : Z;
  value : Z;
  valueExit : bool;
  timeoutExit : bool
}.

(** One pass through the body of the [while]. *)
Definition wait_body (channel trigger timeout startTime : Z)
    (v : loop_vars) : M loop_vars :=
  value <~ AIOReadGPIO channel ;;
  let v1 :=
    if bool_decide (value ≠ originalValue v) then
      if bool_decide (trigger = BOTH) then
        {| originalValue := originalValue v; value := value;
           valueExit := true; timeoutExit := timeoutExit v |}
      else
        {| originalValue := value; value := value;
           valueExit := bool_decide (value = trigger);
           timeoutExit := timeoutExit v |}
    else
      {| originalValue := originalValue v; value := value;
         valueExit := valueExit v; timeoutExit := timeoutExit v |} in
  v2 <~ (if bool_decide (timeout > 0) then
           now <~ time_time ;;
           ret {| originalValue := originalValue v1; value := value;
                  valueExit := valueExit v1;
                  timeoutExit := bool_decide (now - startTime > timeout) |}
         else ret v1) ;;
  time_sleep ;;;
  ret v2.

(** The test of the [while]: [not valueExit and not timeoutExit]. *)
Definition keeps_waiting (v : loop_vars) : bool :=
  negb (valueExit v) && negb (timeoutExit v).

(** The target level of a one-sided trigger, in the words of the
    specification: high for RISING, low for FALLING. *)
Definition target_level (trigger : Z) : Z :=
  if bool_decide (trigger = RISING) then HIGH else LOW.

(** [while not valueExit and not timeoutExit: ...], for at most [fuel]
    passes. *)
Fixpoint wait_loop (fuel : nat) (channel trigger timeout startTime : Z)
    (v : loop_vars) : M loop_vars :=
  if keeps_waiting v then
    match fuel with
    | O => out_of_fuel
    | S fuel' =>
        v' <~ wait_body channel trigger timeout startTime v ;;
        wait_loop fuel' channel trigger timeout startTime v'
    end
  else ret v.

Definition wait_for_edge (fuel : nat) (channel trigger timeout : Z) : M Z :=
  _check_configured channel (Some IN) ;;;
  py_assert (bool_decide (trigger ∈ [RISING; FALLING; BOTH])) ;;;
  ev <~ gets _events ;;
  (if bool_decide (is_Some (ev !! channel))
   then raise (RuntimeError EventConflict) else ret tt) ;;;
  AIOWriteGPIOEdge channel trigger ;;;
  startTime <~ time_time ;;
  originalValue <~ AIOReadGPIO channel ;;
  v <~ wait_loop fuel channel trigger timeout startTime
         {| originalValue := originalValue; value := originalValue;
            valueExit := false; timeoutExit := false |} ;;
  AIOWriteGPIOEdge channel NONE ;;;
  ret channel.

Definition add_event_detect (channel trigger : Z)
    (callback : option nat) (bouncetime : option Z) : M unit :=
  _check_configured channel (Some IN) ;;;
  py_assert (bool_decide (trigger ∈ [RISING; FALLING; BOTH])) ;;;
  match bouncetime with
  | Some _ =>
      w <~ gets _gpio_warnings ;;
      if w then warn BouncetimeAdvisory else ret tt
  | None => ret tt
  end ;;;
  ev <~ gets _events ;;
  (if bool_decide (is_Some (ev !! channel))
   then raise (RuntimeError EventConflict)
   else modify (with_events (<[channel := trigger]> ev))) ;;;
  match callback with
  | Some cb => AIOAddGPIOCallback channel trigger cb
  | None => ret tt
  end.

Definition remove_event_detect (channel : Z) : M unit :=
  _check_configured channel (Some IN) ;;;
  ev <~ gets _events ;;
  if bool_decide (is_Some (ev !! channel)) then
    AIORemoveGPIOCallback channel ;;;
    del_events channel
  else raise (RuntimeError NoEventRegistered).

Definition add_event_callback (channel : Z) (callback : nat)
    (bouncetime : option Z) : M unit :=
  _check_configured channel (Some IN) ;;;
  match bouncetime with
  | Some _ =>
      w <~ gets _gpio_warnings ;;
      if w then warn BouncetimeAdvisory else ret tt
  | None => ret tt
  end ;;;
  ev <~ gets _events ;;
  match ev !! channel with
  | Some trigger => AIOAddGPIOCallback channel trigger callback
  | None => raise (RuntimeError NoEventRegistered)
  end.

End Events.

(** ** The calls a client can make, and the states they reach *)

Section Reachable.
Context {aio : armbianio}.

Inductive call :=
| Getmode
| Setmode (mode : Z)
| Setwarnings (enabled : bool)
| Setup (channel : channel_arg) (direction : Z) (initial pull_up_down : option Z)
| Input (channel : Z)
| Output (channel : channel_arg) (level : Z)
| WaitForEdge (fuel : nat) (channel trigger timeout : Z)
| AddEventDetect (channel trigger : Z) (callback : option nat)
    (bouncetime : option Z)
| RemoveEventDetect (channel : Z)
| AddEventCallback (channel : Z) (callback : nat) (bouncetime : option Z)
| EventDetected (channel : Z)
| Cleanup (channel : option channel_arg).

(** The state after a call, whether it returned or raised. *)
Definition perform (k : call) (s : state) : state :=
  match k with
  | Getmode => snd (getmode s)
  | Setmode mode => snd (setmode mode s)
  | Setwarnings enabled => snd (setwarnings enabled s)
  | Setup channel direction initial pull_up_down =>
      snd (setup channel direction initial pull_up_down s)
  | Input channel => snd (input channel s)
  | Output channel level => snd (output channel level s)
  | WaitForEdge fuel channel trigger timeout =>
      snd (wait_for_edge fuel channel trigger timeout s)
  | AddEventDetect channel trigger callback bouncetime =>
      snd (add_event_detect channel trigger callback bouncetime s)
  | RemoveEventDetect channel => snd (remove_event_detect channel s)
  | AddEventCallback channel callback bouncetime =>
      snd (add_event_callback channel callback bouncetime s)
  | EventDetected channel => snd (event_detected channel s)
  | Cleanup channel => snd (cleanup channel s)
  end.

Inductive reachable : state → Prop :=
| reachable_initial b clk : reachable (initial b clk)
| reachable_call k s : reachable s → reachable (perform k s).

(** An event entry is only there for a channel configured as input. *)
Definition registry_inv (s : state) : Prop :=
  ∀ c t, _events s !! c = Some t → _exports s !! c = Some IN.

(** The number of event entries of a channel. *)
Definition event_entries (s : state) (c : Z) : nat :=
  length (filter (λ kv, kv.1 = c) (map_to_list (_events s))).

End Reachable.

(** ** Predicates of the statements and proofs *)

(** Induction on a channel argument, with the hypothesis for every element
    of a list. *)
Fixpoint channel_arg_nested_ind (P : channel_arg → Prop)
    (HChan : ∀ c, P (Chan c))
    (HList : ∀ l, Forall P l → P (ChanList l))
    (a : channel_arg) : P a :=
  match a with
  | Chan c => HChan c
  | ChanList l =>
      HList l
        ((fix all (l : list channel_arg) : Forall P l :=
            match l with
            | [] => Forall_nil_2 P
            | x :: r =>
                Forall_cons_2 P x r
                  (channel_arg_nested_ind P HChan HList x) (all r)
            end) l)
  end.

(** [m] keeps [I] whatever its outcome. *)
Definition preserves {A} (I : state → Prop) (m : M A) : Prop :=
  ∀ s, I s → I (snd (m s)).

(** Two states with the same globals: they may differ in the board and in
    the number of clock readings. *)
Definition same_globals (s s' : state) : Prop :=
  _gpio_warnings s = _gpio_warnings s' ∧ _mode s = _mode s' ∧
  _exports s = _exports s' ∧ _events s = _events s' ∧ warned s = warned s'.

Definition same_registries (s s' : state) : Prop :=
  _exports s = _exports s' ∧ _events s = _events s'.

Definition globals_only (I : state → Prop) : Prop :=
  ∀ s s', same_globals s s' → I s → I s'.

Definition registry_only (I : state → Prop) : Prop :=
  ∀ s s', same_registries s s' → I s → I s'.

(** What a polling wait on [channel] may change: the edge flag of that
    channel, the number of samples taken and the number of clock readings. *)
Definition polled (channel : Z) (s s' : state) : Prop :=
  same_globals s s' ∧ clock s = clock s' ∧
  init_rc (hw s) = init_rc (hw s') ∧ session (hw s) = session (hw s') ∧
  gpios (hw s) = gpios (hw s') ∧ driven (hw s) = driven (hw s') ∧
  callbacks (hw s) = callbacks (hw s') ∧ signal (hw s) = signal (hw s') ∧
  ∀ c, c ≠ channel → edge_flags (hw s) !! c = edge_flags (hw s') !! c.

Definition polling_only (channel : Z) (I : state → Prop) : Prop :=
  ∀ s s', polled channel s s' → I s → I s'.

(** The triggers [wait_for_edge] and [add_event_detect] accept. *)
Definition valid_trigger {aio : armbianio} (trigger : Z) : Prop :=
  trigger ∈ [RISING; FALLING; BOTH].

(** ** Boards and states for the examples *)

(** A board that is detected and whose inputs stay low. *)
Definition quiet_board : board := fresh_board 1 (λ _ _, LOW).

(** A board whose inputs go high at the fourth sample. *)
Definition pulse_board : board :=
  fresh_board 1 (λ _ n, if (n <? 3)%nat then LOW else HIGH).

(** A clock that advances by one unit at each reading. *)
Definition unit_clock : nat → Z := Z.of_nat.

(** The module right after import, and after [setmode(BCM)]. *)
Definition imported : state := initial quiet_board unit_clock.
Definition active : state := snd (setmode BCM imported).

(** Channels 5, 6 and 7 configured as outputs, one call each. *)
Definition three_outputs : state :=
  snd (setup (Chan 7) OUT None None
         (snd (setup (Chan 6) OUT None None
                 (snd (setup (Chan 5) OUT None None active))))).

(** Channel 4 configured as input, on the quiet and on the pulse board. *)
Definition quiet_input : state := snd (setup (Chan 4) IN None None active).
Definition pulse_input : state :=
  snd (setup (Chan 4) IN None None
         (snd (setmode BCM (initial pulse_board unit_clock)))).

(** Channel 4 configured as input and watched for rising edges. *)
Definition watching : state :=
  perform (aio := armbianio_h)
    (AddEventDetect 4 (RISING (aio := armbianio_h)) None None)
    (perform (aio := armbianio_h) (Setup (Chan 4) IN None None)
       (perform (aio := armbianio_h) (Setmode BCM) imported)).

(** ** Sequences of calls and what they keep *)

(** The module as imported on a freshly booted board: the states a program
    reaches from there by calls of the public functions. *)
Inductive started {aio : armbianio} : state → Prop :=
| started_import rc sig clk : started (initial (fresh_board rc sig) clk)
| started_call k s : started s → started (perform k s).

(** The pins the board holds are the configured channels. *)
Definition pins_match_registry (s : state) : Prop :=
  ∀ c, is_Some (gpios (hw s) !! c) ↔ is_Some (_exports s !! c).

(** A callback is registered on the board only under an event entry, with
    the trigger of that entry. *)
Definition callbacks_have_events (s : state) : Prop :=
  ∀ c t cb, callbacks (hw s) !! c = Some (t, cb) → _events s !! c = Some t.

(** A recorded mode is one of the two schemes and means the board session
    is open; without a mode no channel is configured. *)
Definition session_inv (s : state) : Prop :=
  (∀ m, _mode s = Some m → session (hw s) = true ∧ m ∈ [BCM; BOARD]) ∧
  (_mode s = None → _exports s = ∅).

(** The argument [setup] passes to [AIOAddGPIO]. *)
Definition add_gpio_arg (direction : Z) (initial : option Z) : Z :=
  match initial with
  | Some i => if bool_decide (direction = OUT) then i else direction
  | None => direction
  end.

(** A board on which detection fails. *)
Definition undetected : state := initial (fresh_board 0 (λ _ _, LOW)) unit_clock.

(** A computation that neither reads nor writes the log of advisories. *)
Definition warned_blind {A} (m : M A) : Prop :=
  ∀ w s, m (with_warned w s) = (fst (m s), with_warned w (snd (m s))).

(** The state after the advisory for [bouncetime], if one is due. *)
Definition bouncetime_advised (bouncetime : option Z) (s : state) : state :=
  match bouncetime with
  | Some _ =>
      if _gpio_warnings s
      then with_warned (BouncetimeAdvisory :: warned s) s else s
  | None => s
  end.

(** What the invariants of the module look at. *)
Definition view (s : state) :
    gmap Z Z * gmap Z (Z * nat) * bool * option Z * gmap Z Z * gmap Z Z :=
  (gpios (hw s), callbacks (hw s), session (hw s), _mode s, _exports s,
   _events s).

Definition view_only (I : state → Prop) : Prop :=
  ∀ s s', view s = view s' → I s → I s'.

Definition module_inv (s : state) : Prop :=
  pins_match_registry s ∧ callbacks_have_events s ∧ session_inv s.

(** What [wait_for_edge] does once its three checks have passed. *)
Definition wait_armed {aio : armbianio} (fuel : nat)
    (channel trigger timeout : Z) : M Z :=
  AIOWriteGPIOEdge channel trigger ;;;
  startTime <~ time_time ;;
  originalValue <~ AIOReadGPIO channel ;;
  v <~ wait_loop fuel channel trigger timeout startTime
         {| originalValue := originalValue; value := originalValue;
            valueExit := false; timeoutExit := false |} ;;
  AIOWriteGPIOEdge channel NONE ;;;
  ret channel.

(** ** The button demo ([python/button.py]) *)

(** The lines the script prints; [Name] is the type of board names. *)
Inductive printed (Name : Type) :=
| RunningOn (name : Name)         (* "Running on a %s" *)
| PressRelease                    (* "Press/release button a few times\n" *)
| ButtonState (pin value : Z)     (* "Button state: pin = %d, value = %d" *)
| NoButton (name : Name)          (* "%s does not have a button" *)
| InitError.                      (* "AIOInit error" *)
Arguments RunningOn {Name} name.
Arguments PressRelease {Name}.
Arguments ButtonState {Name} pin value.
Arguments NoButton {Name} name.
Arguments InitError {Name}.

(** [buttonCallback(iPin)] prints the pin it is given and the level read on
    pin 0. *)
Definition buttonCallback {Name} (iPin : Z) : M (printed Name) :=
  value <~ AIOReadGPIO 0 ;;
  ret (ButtonState iPin value).

(** [time.sleep(10)] with the callback registered: the board calls it once
    for every edge it sees, with the pins listed in [edges]. *)
Fixpoint sleep_with_callback {Name} (edges : list Z) : M (list (printed Name)) :=
  match edges with
  | [] => ret []
  | iPin :: rest =>
      line <~ buttonCallback iPin ;;
      lines <~ sleep_with_callback rest ;;
      ret (line :: lines)
  end.

(** The script.  [AIOGetBoardName()], [AIOHasButton()], the constant
    [GPIO_IN] and the handle [AIOCALLBACK(buttonCallback)] belong to the
    native library and are parameters, as are the edges seen during the
    sleep.  The value returned is the list of lines printed. *)
Definition button_script {aio : armbianio} {Name} (board_name : Name)
    (has_button : bool) (GPIO_IN : Z) (handle : nat) (edges : list Z) :
    M (list (printed Name)) :=
  rc <~ AIOInit ;;
  if bool_decide (rc = 1) then
    body <~ (if has_button then
               AIOAddGPIO 0 GPIO_IN ;;;
               AIOAddGPIOCallback 0 EDGE_BOTH handle ;;;
               lines <~ sleep_with_callback edges ;;
               AIORemoveGPIOCallback 0 ;;;
               AIORemoveGPIO 0 ;;;
               ret (PressRelease :: lines)
             else ret [NoButton board_name]) ;;
    AIOShutdown ;;;
    ret (RunningOn board_name :: body)
  else ret [InitError].

(** Channel 4 watched for rising edges, with callback 7 attached. *)
Definition watching_with_callback : state :=
  perform (aio := armbianio_h) (AddEventCallback 4 7%nat None) watching.

(** * Proofs *)

(** ** Reasoning about computations *)

Lemma preserves_ret {A} I (a : A) : preserves I (ret a).
Proof. intros s Hs. exact Hs. Qed.

Lemma preserves_raise {A} I e : preserves I (@raise A e).
Proof. intros s Hs. exact Hs. Qed.

Lemma preserves_out_of_fuel {A} I : preserves I (@out_of_fuel A).
Proof. intros s Hs. exact Hs. Qed.

Lemma preserves_gets {A} I (f : state → A) : preserves I (gets f).
Proof. intros s Hs. exact Hs. Qed.

Lemma preserves_bind {A B} I (m : M A) (k : A → M B) :
  preserves I m → (∀ a, preserves I (k a)) → preserves I (bind m k).
Proof.
  intros Hm Hk s Hs. unfold bind.
  specialize (Hm s Hs). destruct (m s) as [[a| e |] s']; simpl in *; auto.
  apply Hk, Hm.
Qed.

Lemma preserves_for_each {A} I (body : A → M unit) l :
  (∀ x, x ∈ l → preserves I (body x)) → preserves I (for_each body l).
Proof.
  induction l as [|x l IH]; intros Hb; simpl.
  - apply preserves_ret.
  - apply preserves_bind.
    + apply Hb. left.
    + intros _. apply IH. intros y Hy. apply Hb. right. exact Hy.
Qed.

Lemma preserves_py_assert I b : preserves I (py_assert b).
Proof. destruct b; [apply preserves_ret | apply preserves_raise]. Qed.

Lemma preserves_check_configured I c d : preserves I (_check_configured c d).
Proof.
  intros s Hs. unfold _check_configured, bind, gets. simpl.
  repeat case_match; exact Hs.
Qed.

(** [_check_configured] reads the registry and nothing else. *)
Lemma check_configured_state c d s : snd (_check_configured c d s) = s.
Proof.
  unfold _check_configured, bind, gets. simpl. repeat case_match; reflexivity.
Qed.

Lemma check_configured_missing c d s :
  _exports s !! c = None →
  _check_configured c d s = (Raise (RuntimeError (ChannelNotConfigured c)), s).
Proof.
  intros E. unfold _check_configured, bind, gets. simpl. rewrite E. reflexivity.
Qed.

Lemma check_configured_any c cfg s :
  _exports s !! c = Some cfg → _check_configured c None s = (Ok tt, s).
Proof.
  intros E. unfold _check_configured, bind, gets. simpl. rewrite E. reflexivity.
Qed.

Lemma check_configured_same c d s :
  _exports s !! c = Some d → _check_configured c (Some d) s = (Ok tt, s).
Proof.
  intros E. unfold _check_configured, bind, gets. simpl. rewrite E.
  rewrite bool_decide_eq_false_2; [reflexivity | intros H; apply H; reflexivity].
Qed.

Lemma check_configured_other c d cfg s :
  _exports s !! c = Some cfg → d ≠ cfg →
  _check_configured c (Some d) s =
    (Raise (RuntimeError (WrongDirection c (bool_decide (cfg = IN)))), s).
Proof.
  intros E Hd. unfold _check_configured, bind, gets. simpl. rewrite E.
  rewrite bool_decide_eq_true_2; [reflexivity | exact Hd].
Qed.

(** When the check passes the channel is configured, in the direction asked
    for if one was. *)
Lemma check_configured_ok c d s r :
  _check_configured c d s = (Ok tt, r) →
  r = s ∧ ∃ cfg, _exports s !! c = Some cfg ∧ (∀ d', d = Some d' → d' = cfg).
Proof.
  unfold _check_configured, bind, gets. simpl.
  destruct (_exports s !! c) as [cfg|]; [|discriminate].
  destruct d as [d'|].
  - case_bool_decide as Hd; [discriminate|].
    intros [= <-]. split; [reflexivity|]. exists cfg. split; [reflexivity|].
    intros d'' [= <-]. destruct (decide (d' = cfg)); [assumption|contradiction].
  - intros [= <-]. split; [reflexivity|]. exists cfg. split; [reflexivity|].
    intros d' [=].
Qed.

(** ** Properties that only look at the module globals *)

Lemma registry_only_globals_only I : registry_only I → globals_only I.
Proof.
  intros HI s s' (_ & _ & He & Hv & _). apply HI. split; assumption.
Qed.

Lemma preserves_on_hw I f : globals_only I → preserves I (on_hw f).
Proof.
  intros HI s Hs. apply (HI s); [|exact Hs]. repeat split.
Qed.

Lemma preserves_AIOInit I : globals_only I → preserves I AIOInit.
Proof.
  intros HI s Hs. apply (HI s); [|exact Hs]. repeat split.
Qed.

Lemma preserves_AIOReadGPIO I pin : globals_only I → preserves I (AIOReadGPIO pin).
Proof.
  intros HI s Hs. unfold AIOReadGPIO.
  destruct (driven (hw s) !! pin); simpl; [exact Hs|].
  apply (HI s); [|exact Hs]. repeat split.
Qed.

Lemma preserves_time_time I : globals_only I → preserves I time_time.
Proof.
  intros HI s Hs. apply (HI s); [|exact Hs]. repeat split.
Qed.

Lemma preserves_setwarnings I b : registry_only I → preserves I (setwarnings b).
Proof.
  intros HI s Hs. apply (HI s); [|exact Hs]. split; reflexivity.
Qed.

Lemma preserves_with_mode I m : registry_only I → preserves I (modify (with_mode m)).
Proof.
  intros HI s Hs. apply (HI s); [|exact Hs]. split; reflexivity.
Qed.

Lemma preserves_warn I a : registry_only I → preserves I (warn a).
Proof.
  intros HI s Hs. apply (HI s); [|exact Hs]. split; reflexivity.
Qed.

(** Breaks a computation into its primitive steps. *)
Ltac preserves_steps :=
  repeat
    match goal with
    | |- preserves _ (ret _) => apply preserves_ret
    | |- preserves _ (raise _) => apply preserves_raise
    | |- preserves _ (gets _) => apply preserves_gets
    | |- preserves _ out_of_fuel => apply preserves_out_of_fuel
    | |- preserves _ (py_assert _) => apply preserves_py_assert
    | |- preserves _ (_check_configured _ _) => apply preserves_check_configured
    | |- preserves _ (bind _ _) => apply preserves_bind; [| intros ?]
    | |- preserves _ (if ?b then _ else _) => destruct b
    | |- preserves _ (match ?x with _ => _ end) => destruct x
    end.

Lemma globals_only_polling_only channel I :
  globals_only I → polling_only channel I.
Proof. intros HI s s' [Hg _]. apply HI, Hg. Qed.

Lemma polled_refl channel s : polled channel s s.
Proof. repeat split. Qed.

Lemma polled_trans channel s1 s2 s3 :
  polled channel s1 s2 → polled channel s2 s3 → polled channel s1 s3.
Proof.
  unfold polled, same_globals.
  intros [(?&?&?&?&?) (?&?&?&?&?&?&?&H12)] [(?&?&?&?&?) (?&?&?&?&?&?&?&H23)].
  split_and!; try congruence.
  intros c Hc. rewrite (H12 c Hc). exact (H23 c Hc).
Qed.

Lemma polling_only_polled channel s : polling_only channel (polled channel s).
Proof. intros s1 s2 H12 H1. eapply polled_trans; eassumption. Qed.

Lemma polled_write_edge channel edge s :
  polled channel s (snd (AIOWriteGPIOEdge channel edge s)).
Proof.
  repeat split. intros c Hc. simpl. rewrite lookup_insert_ne by congruence.
  reflexivity.
Qed.

Lemma polled_read channel s : polled channel s (snd (AIOReadGPIO channel s)).
Proof.
  unfold AIOReadGPIO. destruct (driven (hw s) !! channel); repeat split.
Qed.

Lemma polled_time channel s : polled channel s (snd (time_time s)).
Proof. repeat split. Qed.

Section EventProofs.
Context {aio : armbianio}.

Lemma preserves_wait_body I channel trigger timeout startTime v :
  polling_only channel I →
  preserves I (wait_body channel trigger timeout startTime v).
Proof.
  intros HI. unfold wait_body, time_sleep. preserves_steps.
  - intros s Hs. exact (HI _ _ (polled_read channel s) Hs).
  - intros s Hs. exact (HI _ _ (polled_time channel s) Hs).
Qed.

Lemma preserves_wait_loop I fuel channel trigger timeout startTime v :
  polling_only channel I →
  preserves I (wait_loop fuel channel trigger timeout startTime v).
Proof.
  intros HI. revert v. induction fuel as [|fuel IH]; intros v; simpl.
  - preserves_steps.
  - destruct (keeps_waiting v); preserves_steps.
    + apply preserves_wait_body, HI.
    + apply IH.
Qed.

(** [wait_for_edge] only touches the edge flag of its channel, the sample
    count and the clock. *)
Lemma preserves_wait_for_edge I fuel channel trigger timeout :
  polling_only channel I →
  preserves I (wait_for_edge fuel channel trigger timeout).
Proof.
  intros HI. unfold wait_for_edge. preserves_steps.
  - intros s Hs. exact (HI _ _ (polled_write_edge channel trigger s) Hs).
  - intros s Hs. exact (HI _ _ (polled_time channel s) Hs).
  - intros s Hs. exact (HI _ _ (polled_read channel s) Hs).
  - apply preserves_wait_loop, HI.
  - intros s Hs. exact (HI _ _ (polled_write_edge channel NONE s) Hs).
Qed.

End EventProofs.

(** ** Symbolic execution of straight-line code *)

Ltac unfold_prims :=
  unfold del_events, del_exports, exports_setitem, _check_configured,
    setwarnings, time_sleep, py_assert, warn,
    AIOAddGPIO, AIORemoveGPIO, AIOWriteGPIO, AIOWriteGPIOEdge,
    AIOAddGPIOCallback, AIORemoveGPIOCallback, AIOShutdown in *;
  unfold on_hw in *;
  unfold bind, gets, ret, raise, modify, out_of_fuel in *.

(** Case analysis on an innermost test of the goal. *)
Ltac branch :=
  match goal with
  | |- context [match ?x with _ => _ end] =>
      lazymatch x with
      | context [match _ with _ => _ end] => fail
      | _ => destruct x eqn:?
      end
  end.

Ltac run := unfold_prims; simpl in *; repeat (branch; simpl in *).

Lemma preserves_for_each_Forall {A} I (body : A → M unit) l :
  Forall (λ x, preserves I (body x)) l → preserves I (for_each body l).
Proof.
  intros H. apply preserves_for_each. intros x Hx.
  rewrite Forall_forall in H. apply H, Hx.
Qed.

(** ** The registry invariant *)

Lemma registry_inv_registry_only : registry_only registry_inv.
Proof.
  intros s s' [He Hv] Hs c t. rewrite <- He, <- Hv. apply Hs.
Qed.

Lemma registry_inv_initial b clk : registry_inv (initial b clk).
Proof. intros c t. simpl. rewrite lookup_empty. discriminate. Qed.

(** A new configuration entry for a channel that had none. *)
Lemma registry_inv_insert_export s c d :
  registry_inv s → _exports s !! c = None →
  ∀ c' t, _events s !! c' = Some t → <[c:=d]> (_exports s) !! c' = Some IN.
Proof.
  intros Hs Hc c' t Hev. pose proof (Hs c' t Hev) as Hin.
  destruct (decide (c = c')) as [->|Hne].
  - congruence.
  - rewrite lookup_insert_ne; assumption.
Qed.

Lemma not_is_Some_None {A} (o : option A) :
  bool_decide (is_Some o) = false → o = None.
Proof.
  intros H. apply bool_decide_eq_false_1 in H. destruct o; [|reflexivity].
  exfalso. apply H. eexists. reflexivity.
Qed.

Lemma setup_preserves_inv channel d i p :
  preserves registry_inv (setup channel d i p).
Proof.
  revert i p. induction channel as [c|l IH] using channel_arg_nested_ind;
    intros i p.
  - intros s Hs. simpl. run; try assumption;
      intros c' t; simpl; apply registry_inv_insert_export;
      auto using not_is_Some_None.
  - pose proof registry_inv_registry_only as HR.
    simpl. preserves_steps; try (apply preserves_warn, HR).
    apply preserves_for_each_Forall.
    eapply Forall_impl; [exact IH|]. intros ch Hch. apply Hch.
Qed.

Lemma output_preserves_inv channel level :
  preserves registry_inv (output channel level).
Proof.
  pose proof (registry_only_globals_only _ registry_inv_registry_only) as HG.
  induction channel as [c|l IH] using channel_arg_nested_ind; simpl.
  - unfold AIOWriteGPIO. preserves_steps. apply preserves_on_hw, HG.
  - apply preserves_for_each_Forall, IH.
Qed.

Lemma cleanup_channel_preserves_inv channel :
  preserves registry_inv (cleanup_channel channel).
Proof.
  induction channel as [c|l IH] using channel_arg_nested_ind; simpl.
  - intros s Hs. run; simplify_eq; try assumption;
      intros c' t; simpl; intros Hev.
    + destruct (decide (c = c')) as [->|Hne].
      * rewrite lookup_delete_eq in Hev. discriminate.
      * rewrite lookup_delete_ne in Hev by assumption.
        rewrite lookup_delete_ne by assumption. eapply Hs, Hev.
    + destruct (decide (c = c')) as [->|Hne]; [congruence|].
      rewrite lookup_delete_ne by assumption. eapply Hs, Hev.
  - apply preserves_for_each_Forall, IH.
Qed.

Lemma cleanup_preserves_inv channel : preserves registry_inv (cleanup channel).
Proof.
  pose proof registry_inv_registry_only as HR.
  pose proof (registry_only_globals_only _ HR) as HG.
  destruct channel as [ch|]; unfold cleanup.
  - apply cleanup_channel_preserves_inv.
  - unfold AIOShutdown. preserves_steps.
    + apply cleanup_channel_preserves_inv.
    + apply preserves_setwarnings, HR.
    + apply preserves_with_mode, HR.
    + apply preserves_on_hw, HG.
Qed.

Lemma setmode_preserves_inv mode : preserves registry_inv (setmode mode).
Proof.
  pose proof registry_inv_registry_only as HR.
  pose proof (registry_only_globals_only _ HR) as HG.
  unfold setmode. preserves_steps;
    first [ apply preserves_AIOInit, HG | apply preserves_with_mode, HR ].
Qed.

Lemma input_preserves_inv channel : preserves registry_inv (input channel).
Proof.
  pose proof (registry_only_globals_only _ registry_inv_registry_only) as HG.
  unfold input. preserves_steps. apply preserves_AIOReadGPIO, HG.
Qed.

Lemma event_detected_preserves_inv channel :
  preserves registry_inv (event_detected channel).
Proof. unfold event_detected. preserves_steps. Qed.

Section InvariantProofs.
Context {aio : armbianio}.

Lemma add_event_detect_preserves_inv c t cb bt :
  preserves registry_inv (add_event_detect c t cb bt).
Proof.
  intros s Hs. unfold add_event_detect. run; try assumption;
    intros c' t'; simpl; intros Hev;
    (destruct (decide (c = c')) as [->|Hne];
     [ match goal with
       | H : bool_decide (IN ≠ ?z) = false |- _ =>
           apply bool_decide_eq_false_1 in H;
           destruct (decide (IN = z)); [congruence | contradiction]
       end
     | rewrite lookup_insert_ne in Hev by assumption; eapply Hs, Hev ]).
Qed.

Lemma remove_event_detect_preserves_inv c :
  preserves registry_inv (remove_event_detect c).
Proof.
  intros s Hs. unfold remove_event_detect. run; try assumption;
    intros c' t'; simpl; intros Hev.
  destruct (decide (c = c')) as [->|Hne].
  - rewrite lookup_delete_eq in Hev. discriminate.
  - rewrite lookup_delete_ne in Hev by assumption. eapply Hs, Hev.
Qed.

Lemma add_event_callback_preserves_inv c cb bt :
  preserves registry_inv (add_event_callback c cb bt).
Proof.
  pose proof registry_inv_registry_only as HR.
  pose proof (registry_only_globals_only _ HR) as HG.
  unfold add_event_callback, AIOAddGPIOCallback. preserves_steps;
    first [ apply preserves_warn, HR | apply preserves_on_hw, HG ].
Qed.

Lemma perform_registry_inv k s : registry_inv s → registry_inv (perform k s).
Proof.
  pose proof registry_inv_registry_only as HR.
  pose proof (registry_only_globals_only _ HR) as HG.
  intros Hs. destruct k; simpl.
  - exact Hs.
  - exact (setmode_preserves_inv _ s Hs).
  - exact (preserves_setwarnings _ _ HR s Hs).
  - exact (setup_preserves_inv _ _ _ _ s Hs).
  - exact (input_preserves_inv _ s Hs).
  - exact (output_preserves_inv _ _ s Hs).
  - exact (preserves_wait_for_edge _ _ _ _ _
             (globals_only_polling_only _ _ HG) s Hs).
  - exact (add_event_detect_preserves_inv _ _ _ _ s Hs).
  - exact (remove_event_detect_preserves_inv _ s Hs).
  - exact (add_event_callback_preserves_inv _ _ _ s Hs).
  - exact (event_detected_preserves_inv _ s Hs).
  - exact (cleanup_preserves_inv _ s Hs).
Qed.

Lemma reachable_registry_inv s : reachable s → registry_inv s.
Proof.
  induction 1 as [b clk|k s _ IH].
  - apply registry_inv_initial.
  - apply perform_registry_inv, IH.
Qed.

End InvariantProofs.

(** ** Reading a channel *)

Lemma input_unconfigured c s :
  _exports s !! c = None →
  input c s = (Raise (RuntimeError (ChannelNotConfigured c)), s).
Proof.
  intros E. unfold input, bind. rewrite check_configured_missing by exact E.
  reflexivity.
Qed.

Lemma input_configured c cfg s :
  _exports s !! c = Some cfg → input c s = AIOReadGPIO c s.
Proof.
  intros E. unfold input, bind. rewrite (check_configured_any c cfg) by exact E.
  reflexivity.
Qed.

Lemma AIOReadGPIO_returns pin s : ∃ level, fst (AIOReadGPIO pin s) = Ok level.
Proof.
  unfold AIOReadGPIO. destruct (driven (hw s) !! pin); eexists; reflexivity.
Qed.

Lemma output_chan_configured c level s :
  _exports s !! c = Some OUT →
  output (Chan c) level s = AIOWriteGPIO c level s.
Proof.
  intros E. simpl. unfold bind. rewrite check_configured_same by exact E.
  reflexivity.
Qed.

(** C9: [input(c)] raises "Channel c is not configured" exactly when the
    registry has no entry for [c], and raises nothing else; with an entry
    it returns what the board reads, whatever the direction.  On a channel
    configured as output it returns the level the pin was last driven to:
    the level last written to the board, and so the level of a preceding
    [output(c, level)]. *)
Theorem input_fails_iff_unconfigured (c : Z) (s : state) :
  (fst (input c s) = Raise (RuntimeError (ChannelNotConfigured c))
   ↔ _exports s !! c = None) ∧
  (∀ e, fst (input c s) = Raise e →
        e = RuntimeError (ChannelNotConfigured c) ∧ _exports s !! c = None) ∧
  (is_Some (_exports s !! c) → ∃ level, fst (input c s) = Ok level) ∧
  (∀ level, _exports s !! c = Some OUT → driven (hw s) !! c = Some level →
            input c s = (Ok level, s)) ∧
  (∀ level, _exports s !! c = Some OUT →
            fst (input c (snd (output (Chan c) level s))) = Ok level).
Proof.
  destruct (_exports s !! c) as [cfg|] eqn:E.
  - pose proof (input_configured c cfg s E) as Hin.
    destruct (AIOReadGPIO_returns c s) as [level Hlevel].
    rewrite Hin. split_and!.
    + rewrite Hlevel. split; discriminate.
    + intros e He. rewrite Hlevel in He. discriminate.
    + intros _. exists level. exact Hlevel.
    + intros level' _ Hd. unfold AIOReadGPIO. rewrite Hd. reflexivity.
    + intros level' [= ->].
      rewrite (output_chan_configured c level' s E).
      rewrite (input_configured c OUT) by exact E.
      unfold AIOWriteGPIO, on_hw, modify, AIOReadGPIO. simpl.
      rewrite lookup_insert_eq. reflexivity.
  - rewrite (input_unconfigured c s E). simpl. split_and!.
    + split; reflexivity.
    + intros e [= <-]. split; reflexivity.
    + intros [x Hx]. discriminate.
    + discriminate.
    + discriminate.
Qed.

(** C9, on the example board: reading the unconfigured channel 4 fails,
    reading the output channel 5 after driving it high returns high. *)
Example input_examples :
  fst (input 4 three_outputs) = Raise (RuntimeError (ChannelNotConfigured 4)) ∧
  fst (input 5 (snd (output (Chan 5) HIGH three_outputs))) = Ok HIGH.
Proof. split; vm_compute; reflexivity. Qed.

(** ** [event_detected] *)

(** C3, as stated, fails: on a channel without a configuration entry
    [event_detected] raises the [RuntimeError] of [_check_configured], not
    [NotImplementedError]. *)
Lemma event_detected_unconfigured_counterexample :
  fst (event_detected 5 imported) = Raise (RuntimeError (ChannelNotConfigured 5))
  ∧ fst (event_detected 5 imported) ≠ Raise NotSupported.
Proof. split; [vm_compute; reflexivity | vm_compute; discriminate]. Qed.

(** C3, amended: [event_detected(channel)] never returns a value and leaves
    the state alone; it first checks that the channel is configured as
    input, so it raises [NotImplementedError] exactly for the channels
    configured as input, "not configured" for a channel without an entry
    and "configured for output" for any other entry. *)
Theorem event_detected_never_returns (c : Z) (s : state) :
  (∀ r, fst (event_detected c s) ≠ Ok r) ∧
  fst (event_detected c s) ≠ OutOfFuel ∧
  snd (event_detected c s) = s ∧
  (fst (event_detected c s) = Raise NotSupported ↔ _exports s !! c = Some IN) ∧
  (_exports s !! c = None →
   fst (event_detected c s) = Raise (RuntimeError (ChannelNotConfigured c))) ∧
  (∀ cfg, _exports s !! c = Some cfg → cfg ≠ IN →
   fst (event_detected c s) = Raise (RuntimeError (WrongDirection c false))).
Proof.
  unfold event_detected, bind.
  destruct (_exports s !! c) as [cfg|] eqn:E.
  - destruct (decide (IN = cfg)) as [<-|Hne].
    + rewrite check_configured_same by exact E. simpl.
      split_and!; try (split; intros); intros;
        first [discriminate | reflexivity | congruence].
    + rewrite (check_configured_other c IN cfg) by assumption. simpl.
      rewrite bool_decide_eq_false_2 by congruence.
      split_and!; try (split; intros); intros;
        first [discriminate | reflexivity | congruence].
  - rewrite check_configured_missing by exact E. simpl.
    split_and!; try (split; intros); intros;
      first [discriminate | reflexivity | congruence].
Qed.

(** ** The event registry in reachable states *)

Lemma filter_key_absent {V} (l : list (Z * V)) (c : Z) :
  c ∉ l.*1 → filter (λ kv, kv.1 = c) l = [].
Proof.
  induction l as [|[k v] l IH]; intros Hc; [reflexivity|].
  rewrite fmap_cons, not_elem_of_cons in Hc. destruct Hc as [Hk Hl].
  rewrite filter_cons. simpl in *.
  destruct (decide (k = c)); [congruence | apply IH, Hl].
Qed.

Lemma filter_key_at_most_one {V} (l : list (Z * V)) (c : Z) :
  NoDup l.*1 → (length (filter (λ kv, kv.1 = c) l) ≤ 1)%nat.
Proof.
  induction l as [|[k v] l IH]; intros Hnd; [simpl; lia|].
  rewrite fmap_cons, NoDup_cons in Hnd. destruct Hnd as [Hk Hl].
  rewrite filter_cons. simpl in *. destruct (decide (k = c)) as [->|Hne].
  - rewrite filter_key_absent by exact Hk. simpl. lia.
  - apply IH, Hl.
Qed.

Section RegistryTheorems.
Context {aio : armbianio}.

(** C7: in every state reached from the freshly imported module by calls of
    the public functions (returning or raising), an event entry is only
    there for a channel whose configuration entry says [IN], and no channel
    has more than one event entry. *)
Theorem reachable_event_entries (s : state) :
  reachable s →
  (∀ c t, _events s !! c = Some t → _exports s !! c = Some IN) ∧
  (∀ c, (event_entries s c ≤ 1)%nat).
Proof.
  intros Hr. split.
  - exact (reachable_registry_inv s Hr).
  - intros c. unfold event_entries.
    apply filter_key_at_most_one, NoDup_fst_map_to_list.
Qed.

(** C10: whatever its outcome (an exception from one of the checks, a
    return, or a wait that is still going on), [wait_for_edge] leaves
    [_exports] and [_events] as they were; beyond them it leaves the other
    module globals and all of the board except the edge flag of the channel
    and the count of samples. *)
Theorem wait_for_edge_frame (fuel : nat) (channel trigger timeout : Z)
    (s : state) :
  _exports (snd (wait_for_edge fuel channel trigger timeout s)) = _exports s ∧
  _events (snd (wait_for_edge fuel channel trigger timeout s)) = _events s ∧
  polled channel s (snd (wait_for_edge fuel channel trigger timeout s)).
Proof.
  assert (polled channel s (snd (wait_for_edge fuel channel trigger timeout s)))
    as Hp.
  { apply (preserves_wait_for_edge (polled channel s));
      [apply polling_only_polled | apply polled_refl]. }
  split_and!; [| | exact Hp]; destruct Hp as [(_ & _ & He & Hv & _) _];
    congruence.
Qed.

End RegistryTheorems.

(** C7 at the state where channel 4 is watched for rising edges. *)
Lemma reachable_event_entries_witness :
  reachable (aio := armbianio_h) watching ∧
  (∀ c t, _events watching !! c = Some t → _exports watching !! c = Some IN) ∧
  (∀ c, (event_entries watching c ≤ 1)%nat).
Proof.
  assert (reachable (aio := armbianio_h) watching) as Hr
    by (unfold watching; repeat constructor).
  split; [exact Hr|].
  exact (reachable_event_entries (aio := armbianio_h) watching Hr).
Defined.

(** ** Registering and removing edge detection *)

(** Turns the recorded outcomes of boolean tests into propositions and
    closes the branches they rule out. *)
Ltac tests :=
  repeat match goal with
  | H : bool_decide _ = true |- _ => apply bool_decide_eq_true_1 in H
  | H : bool_decide _ = false |- _ => apply bool_decide_eq_false_1 in H
  end.

Ltac impossible :=
  try discriminate; try congruence; try contradiction;
  try match goal with
  | H : ¬ is_Some ?o, E : ?o = Some _ |- _ =>
      exfalso; apply H; rewrite E; eexists; reflexivity
  | H : is_Some ?o, E : ?o = None |- _ =>
      exfalso; rewrite E in H; destruct H; discriminate
  | H : ¬ ¬ ?P |- _ => exfalso; apply H; congruence
  end.

Section EventTheorems.
Context {aio : armbianio}.

Lemma valid_RISING : valid_trigger RISING.
Proof. unfold valid_trigger. set_solver. Qed.

Lemma valid_FALLING : valid_trigger FALLING.
Proof. unfold valid_trigger. set_solver. Qed.

Lemma valid_BOTH : valid_trigger BOTH.
Proof. unfold valid_trigger. set_solver. Qed.

Lemma add_event_detect_ok c t cb bt s :
  _exports s !! c = Some IN → valid_trigger t → _events s !! c = None →
  fst (add_event_detect c t cb bt s) = Ok tt ∧
  _events (snd (add_event_detect c t cb bt s)) = <[c := t]> (_events s) ∧
  _exports (snd (add_event_detect c t cb bt s)) = _exports s.
Proof.
  unfold valid_trigger. intros E Ht V. unfold add_event_detect.
  run; simplify_eq; tests; impossible; split_and!; reflexivity.
Qed.

Lemma add_event_detect_conflict c t cb bt s :
  _exports s !! c = Some IN → valid_trigger t → is_Some (_events s !! c) →
  fst (add_event_detect c t cb bt s) = Raise (RuntimeError EventConflict) ∧
  _events (snd (add_event_detect c t cb bt s)) = _events s ∧
  _exports (snd (add_event_detect c t cb bt s)) = _exports s.
Proof.
  unfold valid_trigger. intros E Ht V. unfold add_event_detect.
  run; simplify_eq; tests; impossible; split_and!; reflexivity.
Qed.

Lemma wait_for_edge_conflict fuel c t timeout s :
  _exports s !! c = Some IN → valid_trigger t → is_Some (_events s !! c) →
  wait_for_edge fuel c t timeout s = (Raise (RuntimeError EventConflict), s).
Proof.
  unfold valid_trigger. intros E Ht V. unfold wait_for_edge, bind at 1.
  rewrite check_configured_same by exact E. simpl.
  unfold bind at 1, py_assert. rewrite bool_decide_eq_true_2 by exact Ht.
  simpl. unfold bind at 1, gets. simpl. unfold bind at 1.
  rewrite bool_decide_eq_true_2 by exact V. reflexivity.
Qed.

Lemma remove_event_detect_ok c t s :
  _exports s !! c = Some IN → _events s !! c = Some t →
  fst (remove_event_detect c s) = Ok tt ∧
  _events (snd (remove_event_detect c s)) = delete c (_events s) ∧
  _exports (snd (remove_event_detect c s)) = _exports s ∧
  callbacks (hw (snd (remove_event_detect c s))) !! c = None.
Proof.
  intros E V. unfold remove_event_detect.
  run; simplify_eq; tests; impossible; split_and!;
    first [reflexivity | apply lookup_delete_eq].
Qed.

(** C6: in a reachable state, when channel [c] has an event entry, both
    [wait_for_edge(c, t)] and [add_event_detect(c, t)] raise "Conflicting
    edge detection already enabled", for every trigger [t] that the
    functions accept (RISING, FALLING or BOTH); the wait fails before it
    touches anything. *)
Theorem event_entry_conflicts (s : state) (c t0 t : Z) (fuel : nat)
    (timeout : Z) (callback : option nat) (bouncetime : option Z) :
  reachable s → _events s !! c = Some t0 → valid_trigger t →
  wait_for_edge fuel c t timeout s = (Raise (RuntimeError EventConflict), s) ∧
  fst (add_event_detect c t callback bouncetime s)
    = Raise (RuntimeError EventConflict).
Proof.
  intros Hr Hev Ht.
  pose proof (reachable_registry_inv s Hr c t0 Hev) as Hin.
  assert (is_Some (_events s !! c)) as Hsome by (rewrite Hev; eexists; reflexivity).
  split.
  - apply wait_for_edge_conflict; assumption.
  - apply add_event_detect_conflict; assumption.
Qed.

(** The particular case of C6: once [add_event_detect(c, RISING)] has
    succeeded, [wait_for_edge(c, FALLING)] raises the conflict. *)
Lemma add_rising_then_wait_falling (s : state) (c : Z) (fuel : nat)
    (timeout : Z) (callback : option nat) (bouncetime : option Z) :
  fst (add_event_detect c RISING callback bouncetime s) = Ok tt →
  fst (wait_for_edge fuel c FALLING timeout
         (snd (add_event_detect c RISING callback bouncetime s)))
    = Raise (RuntimeError EventConflict).
Proof.
  intros Hok.
  assert (_exports s !! c = Some IN ∧ _events s !! c = None) as [E V].
  { revert Hok. unfold add_event_detect.
    run; simplify_eq; tests; impossible; intros _;
      (split; [f_equal; symmetry|]);
      first [ assumption | apply not_is_Some_None, bool_decide_eq_false_2;
                           assumption
            | match goal with
              | H : ¬ IN ≠ ?z |- IN = ?z =>
                  destruct (decide (IN = z)); [assumption | contradiction]
              end ]. }
  destruct (add_event_detect_ok c RISING callback bouncetime s E valid_RISING V)
    as (_ & Hev & Hex).
  rewrite wait_for_edge_conflict; [reflexivity | | apply valid_FALLING |].
  - rewrite Hex. exact E.
  - rewrite Hev, lookup_insert_eq. eexists. reflexivity.
Qed.

(** C8: on a channel configured as input and without an event entry,
    [add_event_detect(c, BOTH)], [remove_event_detect(c)] and
    [add_event_detect(c, RISING)] succeed one after the other; after the
    removal the event registry is what it was at the start and the board
    holds no callback for [c]; at the end the entry of [c] is RISING. *)
Theorem event_detect_round_trip (s : state) (c : Z)
    (cb1 cb2 : option nat) (bt1 bt2 : option Z) :
  _exports s !! c = Some IN → _events s !! c = None →
  let s1 := snd (add_event_detect c BOTH cb1 bt1 s) in
  let s2 := snd (remove_event_detect c s1) in
  let s3 := snd (add_event_detect c RISING cb2 bt2 s2) in
  fst (add_event_detect c BOTH cb1 bt1 s) = Ok tt ∧
  fst (remove_event_detect c s1) = Ok tt ∧
  _events s2 = _events s ∧ callbacks (hw s2) !! c = None ∧
  fst (add_event_detect c RISING cb2 bt2 s2) = Ok tt ∧
  _events s3 !! c = Some RISING.
Proof.
  intros E V s1 s2 s3.
  destruct (add_event_detect_ok c BOTH cb1 bt1 s E valid_BOTH V)
    as (Hok1 & Hev1 & Hex1).
  fold s1 in Hev1, Hex1.
  assert (_exports s1 !! c = Some IN) as E1 by (rewrite Hex1; exact E).
  assert (_events s1 !! c = Some BOTH) as V1
    by (rewrite Hev1; apply lookup_insert_eq).
  destruct (remove_event_detect_ok c BOTH s1 E1 V1) as (Hok2 & Hev2 & Hex2 & Hcb2).
  fold s2 in Hev2, Hex2, Hcb2.
  assert (_events s2 = _events s) as Hsame.
  { rewrite Hev2, Hev1, delete_insert_eq. apply delete_id, V. }
  assert (_exports s2 !! c = Some IN) as E2 by (rewrite Hex2; exact E1).
  assert (_events s2 !! c = None) as V2 by (rewrite Hsame; exact V).
  destruct (add_event_detect_ok c RISING cb2 bt2 s2 E2 valid_RISING V2)
    as (Hok3 & Hev3 & _).
  fold s3 in Hev3.
  split_and!; try assumption.
  rewrite Hev3. apply lookup_insert_eq.
Qed.

End EventTheorems.

(** ** Lists of channels *)

Lemma bind_Ok_inv {A B} (m : M A) (k : A → M B) s b s' :
  bind m k s = (Ok b, s') → ∃ a s1, m s = (Ok a, s1) ∧ k a s1 = (Ok b, s').
Proof.
  unfold bind. destruct (m s) as [[a|e|] s1]; intros H; try discriminate.
  exists a, s1. split; [reflexivity | exact H].
Qed.

Lemma bind_Ok_step {A B} (m : M A) (k : A → M B) s a s1 :
  m s = (Ok a, s1) → bind m k s = k a s1.
Proof. intros H. unfold bind. rewrite H. reflexivity. Qed.

Lemma bind_Raise_step {A B} (m : M A) (k : A → M B) s e s1 :
  m s = (Raise e, s1) → bind m k s = (Raise e, s1).
Proof. intros H. unfold bind. rewrite H. reflexivity. Qed.

Lemma for_each_cons {A} (body : A → M unit) x l :
  for_each body (x :: l) = (body x ;;; for_each body l).
Proof. reflexivity. Qed.

Lemma for_each_app {A} (body : A → M unit) l1 l2 s :
  for_each body (l1 ++ l2) s = (for_each body l1 ;;; for_each body l2) s.
Proof.
  revert s. induction l1 as [|x l1 IH]; intros s; [reflexivity|].
  change (for_each body ((x :: l1) ++ l2) s)
    with (bind (body x) (λ _, for_each body (l1 ++ l2)) s).
  change (for_each body (x :: l1))
    with (bind (body x) (λ _, for_each body l1)).
  unfold bind. destruct (body x s) as [[[]|e|] s1]; try reflexivity.
  rewrite IH. reflexivity.
Qed.

Lemma setup_ChanList l d i p :
  setup (ChanList l) d i p =
    (m <~ gets _mode ;;
     match m with
     | None => raise (RuntimeError ModeNotSet)
     | Some _ => ret tt
     end ;;;
     match p with
     | Some _ =>
         w <~ gets _gpio_warnings ;;
         if w then warn PullUpDownAdvisory else ret tt
     | None => ret tt
     end ;;;
     for_each (λ ch, setup ch d i None) l ;;;
     raise TypeError).
Proof. reflexivity. Qed.

Lemma setup_list_active l d i s m :
  _mode s = Some m →
  setup (ChanList l) d i None s =
    (for_each (λ ch, setup ch d i None) l ;;; raise TypeError) s.
Proof.
  intros Hm. rewrite setup_ChanList. unfold bind, gets, ret. simpl.
  rewrite Hm. reflexivity.
Qed.

(** [setup] never returns when it is given a list: after the loop the
    list itself is used as a key of [_exports]. *)
Lemma setup_list_never_returns l d i p s r :
  fst (setup (ChanList l) d i p s) ≠ Ok r.
Proof.
  destruct (setup (ChanList l) d i p s) as [o s'] eqn:E. simpl. intros ->.
  rewrite setup_ChanList in E.
  apply bind_Ok_inv in E as (m & s1 & _ & E).
  apply bind_Ok_inv in E as (? & s2 & _ & E).
  apply bind_Ok_inv in E as (? & s3 & _ & E).
  apply bind_Ok_inv in E as (? & s4 & _ & E).
  discriminate.
Qed.

Lemma setup_chan_ok c d s m :
  _mode s = Some m → _exports s !! c = None →
  fst (setup (Chan c) d None None s) = Ok tt ∧
  _exports (snd (setup (Chan c) d None None s)) = <[c := d]> (_exports s) ∧
  _mode (snd (setup (Chan c) d None None s)) = _mode s.
Proof.
  intros Hm E. simpl. run; simplify_eq; tests; impossible;
    split_and!; first [reflexivity | congruence].
Qed.

Lemma output_chan_ok c level s :
  _exports s !! c = Some OUT →
  fst (output (Chan c) level s) = Ok tt ∧
  _exports (snd (output (Chan c) level s)) = _exports s ∧
  driven (hw (snd (output (Chan c) level s))) = <[c := level]> (driven (hw s)).
Proof.
  intros E. rewrite (output_chan_configured c level s E).
  split_and!; reflexivity.
Qed.

(** C1, on the code: in an active session where channels 5, 6 and 7 have no
    entry, [setup([5,6,7], OUT)] configures the three channels in order and
    then raises [TypeError] instead of returning; on the state it leaves,
    [output([5,6,7], HIGH)] returns and drives the three pins high. *)
Theorem setup_list_raises_after_configuring (s : state) (m : Z) :
  _mode s = Some m →
  _exports s !! 5 = None → _exports s !! 6 = None → _exports s !! 7 = None →
  let r := setup (ChanList [Chan 5; Chan 6; Chan 7]) OUT None None s in
  let o := output (ChanList [Chan 5; Chan 6; Chan 7]) HIGH (snd r) in
  fst r = Raise TypeError ∧
  _exports (snd r) = <[7 := OUT]> (<[6 := OUT]> (<[5 := OUT]> (_exports s))) ∧
  fst o = Ok tt ∧
  driven (hw (snd o)) !! 5 = Some HIGH ∧
  driven (hw (snd o)) !! 6 = Some HIGH ∧
  driven (hw (snd o)) !! 7 = Some HIGH.
Proof.
  intros Hm E5 E6 E7 r o.
  (* the three single-channel setups *)
  destruct (setup_chan_ok 5 OUT s m Hm E5) as (Hok5 & Hex5 & Hm5).
  destruct (setup (Chan 5) OUT None None s) as [o5 s5] eqn:S5.
  simpl in Hok5, Hex5, Hm5. subst o5.
  assert (_exports s5 !! 6 = None) as E6'
    by (rewrite Hex5, lookup_insert_ne by lia; exact E6).
  destruct (setup_chan_ok 6 OUT s5 m (eq_trans Hm5 Hm) E6') as (Hok6 & Hex6 & Hm6).
  destruct (setup (Chan 6) OUT None None s5) as [o6 s6] eqn:S6.
  simpl in Hok6, Hex6, Hm6. subst o6.
  assert (_exports s6 !! 7 = None) as E7'
    by (rewrite Hex6, Hex5, !lookup_insert_ne by lia; exact E7).
  destruct (setup_chan_ok 7 OUT s6 m (eq_trans Hm6 (eq_trans Hm5 Hm)) E7')
    as (Hok7 & Hex7 & Hm7).
  destruct (setup (Chan 7) OUT None None s6) as [o7 s7] eqn:S7.
  simpl in Hok7, Hex7, Hm7. subst o7.
  assert (r = (Raise TypeError, s7)) as Hr.
  { unfold r. rewrite (setup_list_active _ _ _ _ m Hm).
    rewrite !for_each_cons. unfold bind.
    rewrite S5. cbv beta iota. rewrite S6. cbv beta iota. rewrite S7.
    reflexivity. }
  assert (_exports s7 = <[7 := OUT]> (<[6 := OUT]> (<[5 := OUT]> (_exports s))))
    as Hex by (rewrite Hex7, Hex6, Hex5; reflexivity).
  (* the three writes *)
  assert (_exports s7 !! 5 = Some OUT) as O5
    by (rewrite Hex, !lookup_insert_ne by lia; apply lookup_insert_eq).
  assert (_exports s7 !! 6 = Some OUT) as O6
    by (rewrite Hex, lookup_insert_ne by lia; apply lookup_insert_eq).
  assert (_exports s7 !! 7 = Some OUT) as O7
    by (rewrite Hex; apply lookup_insert_eq).
  destruct (output_chan_ok 5 HIGH s7 O5) as (Hw5 & Hx5 & Hd5).
  destruct (output (Chan 5) HIGH s7) as [w5 t5] eqn:W5.
  simpl in Hw5, Hx5, Hd5. subst w5.
  destruct (output_chan_ok 6 HIGH t5 (eq_trans (f_equal (.!! 6) Hx5) O6))
    as (Hw6 & Hx6 & Hd6).
  destruct (output (Chan 6) HIGH t5) as [w6 t6] eqn:W6.
  simpl in Hw6, Hx6, Hd6. subst w6.
  assert (_exports t6 !! 7 = Some OUT) as O7'
    by (rewrite Hx6, Hx5; exact O7).
  destruct (output_chan_ok 7 HIGH t6 O7') as (Hw7 & Hx7 & Hd7).
  destruct (output (Chan 7) HIGH t6) as [w7 t7] eqn:W7.
  simpl in Hw7, Hx7, Hd7. subst w7.
  assert (output (ChanList [Chan 5; Chan 6; Chan 7]) HIGH s7 = (Ok tt, t7))
    as Ho.
  { change (output (ChanList [Chan 5; Chan 6; Chan 7]) HIGH)
      with (for_each (λ ch, output ch HIGH) [Chan 5; Chan 6; Chan 7]).
    rewrite !for_each_cons. unfold bind.
    rewrite W5. cbv beta iota. rewrite W6. cbv beta iota. rewrite W7.
    reflexivity. }
  unfold o. rewrite Hr. cbn [fst snd]. rewrite Ho. cbn [fst snd].
  split_and!; try reflexivity; try exact Hex.
  - rewrite Hd7, Hd6, Hd5, !lookup_insert_ne by lia. apply lookup_insert_eq.
  - rewrite Hd7, Hd6, lookup_insert_ne by lia. apply lookup_insert_eq.
  - rewrite Hd7. apply lookup_insert_eq.
Qed.

Lemma cleanup_chan_unconfigured c s :
  _exports s !! c = None →
  cleanup (Some (Chan c)) s = (Raise (RuntimeError (ChannelNotConfigured c)), s).
Proof.
  intros E. simpl. unfold bind at 1.
  rewrite check_configured_missing by exact E. reflexivity.
Qed.

(** An element whose cleanup raises ends the loop: the rest of the list
    plays no part in the result. *)
Lemma cleanup_list_failure (done rest : list channel_arg) (ch : channel_arg)
    (s : state) (e : exn) :
  fst (cleanup (Some (ChanList done)) s) = Ok tt →
  fst (cleanup (Some ch) (snd (cleanup (Some (ChanList done)) s))) = Raise e →
  cleanup (Some (ChanList (done ++ ch :: rest))) s =
    (Raise e, snd (cleanup (Some ch) (snd (cleanup (Some (ChanList done)) s)))).
Proof.
  change (cleanup (Some (ChanList (done ++ ch :: rest))))
    with (for_each (λ ch, cleanup_channel ch) (done ++ ch :: rest)).
  change (cleanup (Some (ChanList done)))
    with (for_each (λ ch, cleanup_channel ch) done).
  change (cleanup (Some ch)) with (cleanup_channel ch).
  rewrite for_each_app, for_each_cons. unfold bind.
  destruct (for_each (λ ch, cleanup_channel ch) done s) as [o1 s1].
  simpl. intros -> H2.
  destruct (cleanup_channel ch s1) as [o2 s2]. simpl in *. subst o2.
  reflexivity.
Qed.

(** C2, as stated, fails: with channels 5, 6 and 7 configured,
    [cleanup([5, 9, 6])] raises at the unconfigured channel 9 and never
    reaches channel 6, which keeps its entry although its own cleanup would
    succeed. *)
Lemma cleanup_list_counterexample :
  fst (cleanup (Some (ChanList [Chan 5; Chan 9; Chan 6])) three_outputs)
    = Raise (RuntimeError (ChannelNotConfigured 9)) ∧
  _exports (snd (cleanup (Some (ChanList [Chan 5; Chan 9; Chan 6]))
                   three_outputs)) !! 5 = None ∧
  _exports (snd (cleanup (Some (ChanList [Chan 5; Chan 9; Chan 6]))
                   three_outputs)) !! 6 = Some OUT ∧
  fst (cleanup (Some (Chan 6))
         (snd (cleanup (Some (ChanList [Chan 5; Chan 9; Chan 6]))
                 three_outputs))) = Ok tt.
Proof. vm_compute. split_and!; reflexivity. Qed.

(** C2, amended: [cleanup] of a list runs the single-channel cleanup on the
    elements in order and stops at the first one that raises.  When the
    elements of [done] have been cleaned up and the next element [c] has no
    configuration entry, the call raises "Channel c is not configured" in
    the state reached after [done]: the elements after [c] are not
    processed. *)
Theorem cleanup_list_stops_at_unconfigured (done rest : list channel_arg)
    (c : Z) (s : state) :
  fst (cleanup (Some (ChanList done)) s) = Ok tt →
  _exports (snd (cleanup (Some (ChanList done)) s)) !! c = None →
  cleanup (Some (ChanList (done ++ Chan c :: rest))) s =
    (Raise (RuntimeError (ChannelNotConfigured c)),
     snd (cleanup (Some (ChanList done)) s)).
Proof.
  intros Hdone Hc.
  pose proof (cleanup_chan_unconfigured c _ Hc) as Hfail.
  rewrite (cleanup_list_failure done rest (Chan c) s
             (RuntimeError (ChannelNotConfigured c)) Hdone).
  - rewrite Hfail. reflexivity.
  - rewrite Hfail. reflexivity.
Qed.

(** ** The polling loop *)

Section WaitTheorems.
Context {aio : armbianio}.

(** What one pass of the loop does. *)
Lemma wait_body_returns channel trigger timeout startTime v s :
  ∃ new s1 v' s',
    AIOReadGPIO channel s = (Ok new, s1) ∧
    wait_body channel trigger timeout startTime v s = (Ok v', s') ∧
    value v' = new ∧
    (new ≠ originalValue v → trigger ≠ BOTH →
     originalValue v' = new ∧ valueExit v' = bool_decide (new = trigger)) ∧
    (new ≠ originalValue v → trigger = BOTH →
     originalValue v' = originalValue v ∧ valueExit v' = true) ∧
    (new = originalValue v →
     originalValue v' = originalValue v ∧ valueExit v' = valueExit v) ∧
    (timeout ≤ 0 → timeoutExit v' = timeoutExit v ∧ s' = s1) ∧
    (timeout > 0 →
     timeoutExit v' = bool_decide (clock s (ticks s) - startTime > timeout) ∧
     ticks s' = S (ticks s) ∧ clock s' = clock s).
Proof.
  destruct (AIOReadGPIO channel s) as [o s1] eqn:Hread.
  assert (∃ new, o = Ok new ∧ ticks s1 = ticks s ∧ clock s1 = clock s)
    as (new & -> & Hticks & Hclock).
  { revert Hread. unfold AIOReadGPIO.
    destruct (driven (hw s) !! channel); intros [= <- <-]; eexists;
      split_and!; reflexivity. }
  exists new, s1. unfold wait_body, bind at 1. rewrite Hread.
  unfold time_sleep, time_time, bind, ret.
  destruct (bool_decide (timeout > 0)) eqn:Ht; tests;
    destruct (bool_decide (new ≠ originalValue v)) eqn:Hn; tests;
    try destruct (bool_decide (trigger = BOTH)) eqn:Hb; tests;
    eexists; eexists; (split; [reflexivity|]); (split; [reflexivity|]);
    simpl; rewrite ?Hticks, ?Hclock;
    split_and!; intros; split_and?;
    first [reflexivity | lia | contradiction | congruence
          | exfalso; apply Hn; congruence ].
Qed.

(** One pass on its own: in a pass of the loop of [wait_for_edge] with
    trigger RISING or FALLING that samples a level different from the
    baseline, [valueExit] is set exactly when the new level is the one the
    trigger waits for (high for RISING, low for FALLING), and the baseline
    becomes the new level either way; so, in a wait without timeout, the
    loop test fails after this pass exactly when the new level is the
    target. *)
Theorem wait_body_polarity (channel trigger timeout startTime : Z)
    (v : loop_vars) (s s1 : state) (new : Z) :
  EDGE_RISING = HIGH → EDGE_FALLING = LOW →
  EDGE_BOTH ≠ EDGE_RISING → EDGE_BOTH ≠ EDGE_FALLING →
  trigger = RISING ∨ trigger = FALLING →
  AIOReadGPIO channel s = (Ok new, s1) →
  new ≠ originalValue v →
  ∃ v' s',
    wait_body channel trigger timeout startTime v s = (Ok v', s') ∧
    originalValue v' = new ∧
    (valueExit v' = true ↔ new = target_level trigger) ∧
    (timeout ≤ 0 → timeoutExit v = false →
     (keeps_waiting v' = false ↔ new = target_level trigger)).
Proof.
  intros HR HF HBR HBF Htrig Hread Hnew.
  destruct (wait_body_returns channel trigger timeout startTime v s)
    as (new' & s1' & v' & s' & Hread' & Hbody & _ & Hone & _ & _ & Hno & _).
  rewrite Hread in Hread'. injection Hread' as <- <-.
  assert (trigger ≠ BOTH) as HnB.
  { unfold RISING, FALLING, BOTH in *. destruct Htrig; congruence. }
  destruct (Hone Hnew HnB) as [Hbase Hexit].
  assert (new = trigger ↔ new = target_level trigger) as Htarget.
  { unfold target_level, RISING, FALLING in *.
    destruct Htrig as [->| ->].
    - rewrite bool_decide_eq_true_2 by reflexivity. rewrite HR. reflexivity.
    - rewrite bool_decide_eq_false_2 by (rewrite HR, HF; discriminate).
      rewrite HF. reflexivity. }
  exists v', s'. split_and!; [exact Hbody | exact Hbase | |].
  - rewrite Hexit, bool_decide_eq_true. exact Htarget.
  - intros Hforever Hnot. destruct (Hno Hforever) as [Htime _].
    unfold keeps_waiting. rewrite Htime, Hnot, Hexit, andb_true_r.
    rewrite negb_false_iff, bool_decide_eq_true. exact Htarget.
Qed.

End WaitTheorems.

Section WaitReturns.
Context {aio : armbianio}.

(** C5: when [wait_for_edge] returns (the loop has ended, through
    [valueExit] or through [timeoutExit]), the value returned is the channel
    and the edge flag of the channel on the board is NONE. *)
Theorem wait_for_edge_disarms (fuel : nat) (channel trigger timeout : Z)
    (s s' : state) (r : Z) :
  wait_for_edge fuel channel trigger timeout s = (Ok r, s') →
  r = channel ∧ edge_flags (hw s') !! channel = Some NONE.
Proof.
  unfold wait_for_edge. intros H.
  apply bind_Ok_inv in H as (? & s1 & _ & H).
  apply bind_Ok_inv in H as (? & s2 & _ & H).
  apply bind_Ok_inv in H as (ev & s3 & _ & H).
  apply bind_Ok_inv in H as (? & s4 & _ & H).
  apply bind_Ok_inv in H as (? & s5 & _ & H).
  apply bind_Ok_inv in H as (startTime & s6 & _ & H).
  apply bind_Ok_inv in H as (original & s7 & _ & H).
  apply bind_Ok_inv in H as (v & s8 & _ & H).
  apply bind_Ok_inv in H as (? & s9 & Hedge & H).
  injection H as <- <-. injection Hedge as _ <-.
  split; [reflexivity|]. simpl. apply lookup_insert_eq.
Qed.

(** The loop ends only with one of the two exit flags set. *)
Lemma wait_loop_exit fuel channel trigger timeout startTime v s v' s' :
  wait_loop fuel channel trigger timeout startTime v s = (Ok v', s') →
  keeps_waiting v' = false.
Proof.
  revert v s. induction fuel as [|fuel IH]; intros v s; simpl;
    destruct (keeps_waiting v) eqn:K.
  - discriminate.
  - intros [= <- <-]. exact K.
  - intros H. apply bind_Ok_inv in H as (v1 & s1 & _ & H). eapply IH, H.
  - intros [= <- <-]. exact K.
Qed.

(** With a positive timeout the loop ends once a clock reading is more than
    [timeout] after the start: enough passes give a result. *)
Lemma wait_loop_timeout channel trigger timeout startTime :
  timeout > 0 →
  ∀ n v s, clock s (ticks s + n)%nat - startTime > timeout →
  ∃ fuel v' s',
    wait_loop fuel channel trigger timeout startTime v s = (Ok v', s').
Proof.
  intros Hpos. induction n as [|n IH]; intros v s Hlate;
    destruct (keeps_waiting v) eqn:K;
    try (exists 0%nat, v, s; simpl; rewrite K; reflexivity);
    destruct (wait_body_returns channel trigger timeout startTime v s)
      as (new & s1 & v' & s' & _ & Hbody & _ & _ & _ & _ & _ & Htime);
    destruct (Htime Hpos) as (Hexit & Hticks & Hclock).
  - exists 1%nat, v', s'. simpl. rewrite K. unfold bind. rewrite Hbody.
    replace (ticks s + 0)%nat with (ticks s) in Hlate by lia.
    unfold keeps_waiting. rewrite Hexit, bool_decide_eq_true_2 by exact Hlate.
    rewrite andb_false_r. reflexivity.
  - destruct (IH v' s') as (fuel & v'' & s'' & Hloop).
    { rewrite Hclock, Hticks.
      replace (S (ticks s) + n)%nat with (ticks s + S n)%nat by lia.
      exact Hlate. }
    exists (S fuel), v'', s''. simpl. rewrite K. unfold bind. rewrite Hbody.
    exact Hloop.
Qed.

(** On a channel configured as input, without event entry and with a valid
    trigger, a wait with a positive timeout returns the channel, provided
    the clock gets past the deadline. *)
Lemma wait_for_edge_returns_on_timeout channel trigger timeout s n :
  _exports s !! channel = Some IN → valid_trigger trigger →
  _events s !! channel = None → timeout > 0 →
  clock s (S (ticks s) + n)%nat - clock s (ticks s) > timeout →
  ∃ fuel s', wait_for_edge fuel channel trigger timeout s = (Ok channel, s').
Proof.
  intros E Ht V Hpos Hlate.
  destruct (AIOReadGPIO channel
              (snd (time_time (snd (AIOWriteGPIOEdge channel trigger s)))))
    as [o s7] eqn:Hread.
  assert (∃ original, o = Ok original ∧ ticks s7 = S (ticks s) ∧
                      clock s7 = clock s) as (original & -> & Hticks & Hclock).
  { revert Hread. unfold AIOReadGPIO. simpl.
    destruct (driven (hw s) !! channel); intros [= <- <-]; eexists;
      split_and!; reflexivity. }
  destruct (wait_loop_timeout channel trigger timeout (clock s (ticks s)) Hpos n
              {| originalValue := original; value := original;
                 valueExit := false; timeoutExit := false |} s7)
    as (fuel & v' & s8 & Hloop).
  { rewrite Hclock, Hticks. exact Hlate. }
  exists fuel. eexists. unfold wait_for_edge, bind at 1.
  rewrite check_configured_same by exact E. simpl.
  unfold bind at 1, py_assert. rewrite bool_decide_eq_true_2 by exact Ht.
  simpl. unfold bind at 1, gets. simpl. unfold bind at 1.
  rewrite V. simpl.
  unfold bind at 1. simpl. unfold bind at 1. simpl.
  unfold bind at 1. simpl in Hread. rewrite Hread.
  unfold bind at 1. rewrite Hloop. reflexivity.
Qed.

End WaitReturns.

(** * Further properties of the module *)

(** ** The board session *)

(** [setmode], branch by branch. *)
Lemma setmode_cases (mode : Z) (s : state) :
  setmode mode s =
    match _mode s with
    | Some _ =>
        if bool_decide (mode ∈ [BCM; BOARD])
        then (Ok tt, with_mode (Some mode) s)
        else (Raise AssertionError, s)
    | None =>
        if bool_decide (init_rc (hw s) ≠ 1)
        then (Raise (RuntimeError BoardNotDetected), snd (AIOInit s))
        else if bool_decide (mode ∈ [BCM; BOARD])
             then (Ok tt, with_mode (Some mode) (snd (AIOInit s)))
             else (Raise AssertionError, snd (AIOInit s))
    end.
Proof. unfold setmode, AIOInit. run; reflexivity. Qed.

(** X1: [setmode(mode)] returns exactly when [mode] is BCM or BOARD and
    either a mode is already recorded or the board is detected; it then
    records [mode].  When it raises, the recorded mode stays as it was.
    The registries are never touched. *)
Theorem setmode_ok_iff (mode : Z) (s : state) :
  (fst (setmode mode s) = Ok tt ↔
   mode ∈ [BCM; BOARD] ∧ (is_Some (_mode s) ∨ init_rc (hw s) = 1)) ∧
  (fst (setmode mode s) = Ok tt → _mode (snd (setmode mode s)) = Some mode) ∧
  (fst (setmode mode s) ≠ Ok tt → _mode (snd (setmode mode s)) = _mode s) ∧
  _exports (snd (setmode mode s)) = _exports s ∧
  _events (snd (setmode mode s)) = _events s.
Proof.
  rewrite setmode_cases.
  destruct (_mode s) as [m0|] eqn:Hm;
    repeat case_bool_decide; simpl; split_and!; try reflexivity;
    try (intros; first [reflexivity | discriminate | contradiction | congruence]).
  - split; [|reflexivity]. intros _.
    split; [assumption | left; eexists; reflexivity].
  - split; [discriminate | intros [? _]; contradiction].
  - split; [discriminate|]. intros [_ [[? ?]|?]]; [discriminate | contradiction].
  - split; [|reflexivity]. intros _. split; [assumption | right].
    destruct (decide (init_rc (hw s) = 1)); [assumption | contradiction].
  - split; [discriminate | intros [? _]; contradiction].
Qed.

(** X2: on the first call the board is probed before the mode is looked
    at: with an undetected board [setmode] raises "Board not detected"
    whatever the mode, and the session stays closed. *)
Theorem setmode_board_not_detected (mode : Z) (s : state) :
  _mode s = None → init_rc (hw s) ≠ 1 →
  fst (setmode mode s) = Raise (RuntimeError BoardNotDetected) ∧
  _mode (snd (setmode mode s)) = None ∧
  session (hw (snd (setmode mode s))) = false.
Proof.
  intros Hm Hrc. rewrite setmode_cases, Hm.
  rewrite bool_decide_eq_true_2 by exact Hrc. simpl.
  split_and!; [reflexivity | exact Hm |].
  apply bool_decide_eq_false_2, Hrc.
Qed.

(** X3: while a mode is recorded, [setmode] does not probe the board again:
    the board is left as it is, and a valid mode replaces the recorded
    one. *)
Theorem setmode_active_overwrites (mode m0 : Z) (s : state) :
  _mode s = Some m0 →
  hw (snd (setmode mode s)) = hw s ∧
  (mode ∈ [BCM; BOARD] → setmode mode s = (Ok tt, with_mode (Some mode) s)) ∧
  (mode ∉ [BCM; BOARD] → setmode mode s = (Raise AssertionError, s)).
Proof.
  intros Hm. rewrite setmode_cases, Hm.
  case_bool_decide; split_and!; intros; first [reflexivity | contradiction].
Qed.

(** X4: an invalid mode on the first call leaves the module without a mode
    although the probe has opened the board session. *)
Theorem setmode_invalid_first_call (mode : Z) (s : state) :
  _mode s = None → init_rc (hw s) = 1 → mode ∉ [BCM; BOARD] →
  fst (setmode mode s) = Raise AssertionError ∧
  _mode (snd (setmode mode s)) = None ∧
  session (hw (snd (setmode mode s))) = true.
Proof.
  intros Hm Hrc Hbad. rewrite setmode_cases, Hm.
  rewrite bool_decide_eq_false_2 by (intros H; apply H, Hrc).
  rewrite bool_decide_eq_false_2 by exact Hbad. simpl.
  split_and!; [reflexivity | exact Hm |].
  apply bool_decide_eq_true_2, Hrc.
Qed.

(** ** Configuring a channel *)

(** [setup] on one channel, branch by branch. *)
Lemma setup_chan_cases (c d : Z) (i p : option Z) (s : state) :
  setup (Chan c) d i p s =
    match _mode s with
    | None => (Raise (RuntimeError ModeNotSet), s)
    | Some _ =>
        let s1 := match p with
                  | Some _ =>
                      if _gpio_warnings s
                      then with_warned (PullUpDownAdvisory :: warned s) s
                      else s
                  | None => s
                  end in
        match _exports s !! c with
        | Some _ => (Raise (RuntimeError (AlreadyConfigured c)), s1)
        | None =>
            (Ok tt,
             with_exports (<[c := d]> (_exports s))
               (snd (AIOAddGPIO c (add_gpio_arg d i) s1)))
        end
    end.
Proof.
  unfold add_gpio_arg. simpl.
  run; tests; impossible; try reflexivity.
Qed.

(** X5: for a single channel [setup] returns exactly when a mode is recorded
    and the channel has no entry; it raises "Mode has not been set" without
    a mode and "already configured" for a channel that has an entry,
    whatever the direction asked for.  On success the registry gains the
    entry; on failure the registry and the board are as before. *)
Theorem setup_chan_ok_iff (c d : Z) (i p : option Z) (s : state) :
  (fst (setup (Chan c) d i p s) = Ok tt ↔
   is_Some (_mode s) ∧ _exports s !! c = None) ∧
  (_mode s = None →
   setup (Chan c) d i p s = (Raise (RuntimeError ModeNotSet), s)) ∧
  (is_Some (_mode s) → is_Some (_exports s !! c) →
   fst (setup (Chan c) d i p s) = Raise (RuntimeError (AlreadyConfigured c))) ∧
  (fst (setup (Chan c) d i p s) = Ok tt →
   _exports (snd (setup (Chan c) d i p s)) = <[c := d]> (_exports s)) ∧
  (fst (setup (Chan c) d i p s) ≠ Ok tt →
   _exports (snd (setup (Chan c) d i p s)) = _exports s ∧
   hw (snd (setup (Chan c) d i p s)) = hw s).
Proof.
  rewrite setup_chan_cases.
  destruct (_mode s) as [m|] eqn:Hm; [destruct (_exports s !! c) eqn:Hc|];
    simpl; split_and!.
  - split; [discriminate | intros [_ ?]; discriminate].
  - discriminate.
  - reflexivity.
  - discriminate.
  - intros _. destruct p; [destruct (_gpio_warnings s)|]; split; reflexivity.
  - split; [|reflexivity]. intros _. split; [eexists|]; reflexivity.
  - discriminate.
  - intros _ [? ?]. discriminate.
  - reflexivity.
  - intros H. contradiction.
  - split; [discriminate | intros [[? ?] _]; discriminate].
  - reflexivity.
  - intros [? ?]. discriminate.
  - discriminate.
  - intros _. split; reflexivity.
Qed.

(** X6: the pin [setup] adds on the board carries [initial] when the
    direction is OUT and an initial level is given, and the direction in
    every other case (an initial level is ignored for an input); the other
    pins and the driven levels are left alone. *)
Theorem setup_chan_board (c d m : Z) (i p : option Z) (s : state) :
  _mode s = Some m → _exports s !! c = None →
  (∀ level, d = OUT → i = Some level →
     gpios (hw (snd (setup (Chan c) d i p s))) !! c = Some level) ∧
  (d ≠ OUT ∨ i = None →
     gpios (hw (snd (setup (Chan c) d i p s))) !! c = Some d) ∧
  (∀ c', c' ≠ c →
     gpios (hw (snd (setup (Chan c) d i p s))) !! c' = gpios (hw s) !! c') ∧
  driven (hw (snd (setup (Chan c) d i p s))) = driven (hw s).
Proof.
  intros Hm Hc. rewrite setup_chan_cases, Hm, Hc. simpl.
  set (s1 := match p with
             | Some _ =>
                 if _gpio_warnings s
                 then with_warned (PullUpDownAdvisory :: warned s) s
                 else s
             | None => s
             end).
  assert (hw s1 = hw s) as Hhw
    by (unfold s1; destruct p; [destruct (_gpio_warnings s)|]; reflexivity).
  rewrite Hhw. split_and!.
  - intros level -> ->. rewrite lookup_insert_eq. unfold add_gpio_arg.
    rewrite bool_decide_eq_true_2 by reflexivity. reflexivity.
  - intros Hcase. rewrite lookup_insert_eq. unfold add_gpio_arg.
    destruct i as [level|]; [|reflexivity].
    destruct Hcase as [Hne|?]; [|discriminate].
    rewrite bool_decide_eq_false_2 by exact Hne. reflexivity.
  - intros c' Hne. apply lookup_insert_ne. congruence.
  - reflexivity.
Qed.

(** ** The advisory for [pull_up_down] *)

Lemma warned_blind_ret {A} (a : A) : warned_blind (ret a).
Proof. intros w s. reflexivity. Qed.

Lemma warned_blind_raise {A} e : warned_blind (@raise A e).
Proof. intros w s. reflexivity. Qed.

Lemma warned_blind_bind {A B} (m : M A) (k : A → M B) :
  warned_blind m → (∀ a, warned_blind (k a)) → warned_blind (bind m k).
Proof.
  intros Hm Hk w s. unfold bind. rewrite Hm.
  destruct (m s) as [[a|e|] s1]; simpl; [apply Hk | reflexivity | reflexivity].
Qed.

Lemma warned_blind_for_each {A} (body : A → M unit) l :
  Forall (λ x, warned_blind (body x)) l → warned_blind (for_each body l).
Proof.
  induction 1 as [|x l Hx _ IH]; [apply warned_blind_ret|].
  rewrite for_each_cons. apply warned_blind_bind; [exact Hx | intros _; exact IH].
Qed.

Lemma setup_warned_blind ch d i : warned_blind (setup ch d i None).
Proof.
  induction ch as [c|l IH] using channel_arg_nested_ind.
  - intros w s. rewrite !setup_chan_cases. simpl.
    destruct (_mode s); [|reflexivity].
    destruct (_exports s !! c); reflexivity.
  - rewrite setup_ChanList.
    apply warned_blind_bind; [intros w s; reflexivity|]. intros m.
    apply warned_blind_bind;
      [destruct m; [apply warned_blind_ret | apply warned_blind_raise]|].
    intros _. apply warned_blind_bind; [apply warned_blind_ret|]. intros _.
    apply warned_blind_bind;
      [apply warned_blind_for_each, IH | intros _; apply warned_blind_raise].
Qed.

(** X7: [pull_up_down] never changes what [setup] does, for a channel or a
    list: the outcome, the registry and the board are those of the call
    without it.  Its only trace is one advisory, logged when a mode is
    recorded and warnings are enabled. *)
Theorem setup_pull_up_down_advisory (ch : channel_arg) (d pud : Z)
    (i : option Z) (s : state) :
  fst (setup ch d i (Some pud) s) = fst (setup ch d i None s) ∧
  _exports (snd (setup ch d i (Some pud) s))
    = _exports (snd (setup ch d i None s)) ∧
  hw (snd (setup ch d i (Some pud) s)) = hw (snd (setup ch d i None s)) ∧
  warned (snd (setup ch d i (Some pud) s)) =
    if bool_decide (is_Some (_mode s)) && _gpio_warnings s
    then PullUpDownAdvisory :: warned (snd (setup ch d i None s))
    else warned (snd (setup ch d i None s)).
Proof.
  assert (setup ch d i (Some pud) s =
          match _mode s with
          | None => setup ch d i None s
          | Some _ =>
              if _gpio_warnings s
              then setup ch d i None
                     (with_warned (PullUpDownAdvisory :: warned s) s)
              else setup ch d i None s
          end) as ->.
  { destruct ch as [c|l].
    - rewrite !setup_chan_cases. simpl.
      destruct (_mode s); [|reflexivity].
      destruct (_gpio_warnings s); reflexivity.
    - rewrite !setup_ChanList. unfold bind, gets, ret, raise, warn, modify.
      simpl. destruct (_mode s); [|reflexivity].
      destruct (_gpio_warnings s); reflexivity. }
  destruct (_mode s) as [m|] eqn:Hm.
  - rewrite bool_decide_eq_true_2 by (eexists; reflexivity).
    destruct (_gpio_warnings s); simpl; [|split_and!; reflexivity].
    rewrite setup_warned_blind. simpl. split_and!; try reflexivity.
    f_equal.
    assert (warned (snd (setup ch d i None s)) = warned s) as ->; [|reflexivity].
    pose proof (setup_warned_blind ch d i (warned s) s) as Hb.
    assert (with_warned (warned s) s = s) as Hs by (destruct s; reflexivity).
    rewrite Hs in Hb.
    apply (f_equal (λ r, warned (snd r))) in Hb. simpl in Hb. exact Hb.
  - rewrite bool_decide_eq_false_2 by (intros [? ?]; discriminate).
    simpl. split_and!; reflexivity.
Qed.

(** ** Driving outputs *)

(** [for x in l] stops at the first element whose body raises. *)
Lemma for_each_failure {A} (body : A → M unit) (done rest : list A) (x : A)
    (s : state) (e : exn) :
  fst (for_each body done s) = Ok tt →
  fst (body x (snd (for_each body done s))) = Raise e →
  for_each body (done ++ x :: rest) s =
    (Raise e, snd (body x (snd (for_each body done s)))).
Proof.
  rewrite for_each_app, for_each_cons. unfold bind.
  destruct (for_each body done s) as [o1 s1]. simpl. intros -> H2.
  destruct (body x s1) as [o2 s2]. simpl in *. subst o2. reflexivity.
Qed.

(** [output] on one channel, branch by branch. *)
Lemma output_chan_cases (c level : Z) (s : state) :
  output (Chan c) level s =
    match _exports s !! c with
    | None => (Raise (RuntimeError (ChannelNotConfigured c)), s)
    | Some cfg =>
        if bool_decide (cfg = OUT)
        then (Ok tt, snd (AIOWriteGPIO c level s))
        else (Raise (RuntimeError (WrongDirection c (bool_decide (cfg = IN)))),
              s)
    end.
Proof.
  simpl. run; tests; impossible; try reflexivity.
Qed.

(** X8: [output] on a single channel returns exactly when the channel is
    configured as OUT and then records the level as the one driven on the
    pin; on a channel configured as IN it raises "configured for input", on
    a channel without entry "not configured", and a failed call changes
    nothing at all. *)
Theorem output_chan_ok_iff (c level : Z) (s : state) :
  (fst (output (Chan c) level s) = Ok tt ↔ _exports s !! c = Some OUT) ∧
  (_exports s !! c = Some IN →
   fst (output (Chan c) level s) = Raise (RuntimeError (WrongDirection c true))) ∧
  (_exports s !! c = None →
   fst (output (Chan c) level s)
     = Raise (RuntimeError (ChannelNotConfigured c))) ∧
  (fst (output (Chan c) level s) ≠ Ok tt → snd (output (Chan c) level s) = s) ∧
  (fst (output (Chan c) level s) = Ok tt →
   driven (hw (snd (output (Chan c) level s)))
     = <[c := level]> (driven (hw s))).
Proof.
  rewrite output_chan_cases.
  destruct (_exports s !! c) as [cfg|] eqn:Hc; [case_bool_decide as Hd|];
    simpl; split_and!; try (split; intros); intros;
    first [reflexivity | discriminate | contradiction | congruence | idtac].
  - exfalso. assert (IN = OUT) as Habs by congruence. discriminate Habs.
  - assert (cfg = IN) as -> by congruence.
    rewrite bool_decide_eq_true_2 by reflexivity. reflexivity.
Qed.

Lemma output_list_cons (a : channel_arg) (l : list channel_arg) (level : Z) :
  output (ChanList (a :: l)) level =
    (output a level ;;; output (ChanList l) level).
Proof. reflexivity. Qed.

(** X9: [output] on a list of channels that are all configured as OUT
    returns, drives every channel of the list to the level and leaves the
    other pins and the registry as they were. *)
Theorem output_list_drives_all (l : list Z) (level : Z) (s : state) :
  (∀ c, c ∈ l → _exports s !! c = Some OUT) →
  fst (output (ChanList (Chan <$> l)) level s) = Ok tt ∧
  (∀ c, c ∈ l →
     driven (hw (snd (output (ChanList (Chan <$> l)) level s))) !! c
       = Some level) ∧
  (∀ c, c ∉ l →
     driven (hw (snd (output (ChanList (Chan <$> l)) level s))) !! c
       = driven (hw s) !! c) ∧
  _exports (snd (output (ChanList (Chan <$> l)) level s)) = _exports s.
Proof.
  revert s. induction l as [|c l IH]; intros s Hall.
  - simpl. split_and!; try reflexivity. intros c Hc.
    apply elem_of_nil in Hc. contradiction.
  - assert (_exports s !! c = Some OUT) as Hc by (apply Hall; left).
    set (s1 := snd (AIOWriteGPIO c level s)).
    assert (output (Chan c) level s = (Ok tt, s1)) as Hstep.
    { rewrite output_chan_cases, Hc.
      rewrite bool_decide_eq_true_2 by reflexivity. reflexivity. }
    rewrite fmap_cons, output_list_cons, (bind_Ok_step _ _ _ _ _ Hstep).
    destruct (IH s1) as (Hok & Hin & Hout & Hex).
    { intros c' Hc'. apply Hall. right. exact Hc'. }
    split_and!.
    + exact Hok.
    + intros c' Hc'. destruct (decide (c' ∈ l)) as [Hl|Hl]; [apply Hin, Hl|].
      rewrite Hout by exact Hl.
      apply elem_of_cons in Hc' as [->|?]; [|contradiction].
      apply lookup_insert_eq.
    + intros c' Hc'. apply not_elem_of_cons in Hc' as [Hne Hl].
      rewrite Hout by exact Hl. apply lookup_insert_ne. congruence.
    + exact Hex.
Qed.

Lemma output_list_ok (l : list Z) (level : Z) (s : state) :
  (∀ c, c ∈ l → _exports s !! c = Some OUT) →
  fst (output (ChanList (Chan <$> l)) level s) = Ok tt ∧
  _exports (snd (output (ChanList (Chan <$> l)) level s)) = _exports s.
Proof.
  revert s. induction l as [|c l IH]; intros s Hall; [split; reflexivity|].
  assert (output (Chan c) level s = (Ok tt, snd (AIOWriteGPIO c level s)))
    as Hstep.
  { rewrite output_chan_cases, (Hall c) by left.
    rewrite bool_decide_eq_true_2 by reflexivity. reflexivity. }
  rewrite fmap_cons, output_list_cons, (bind_Ok_step _ _ _ _ _ Hstep).
  apply (IH (snd (AIOWriteGPIO c level s))).
  intros c' Hc'. apply Hall. right. exact Hc'.
Qed.

(** X10: [output] on a list stops at the first channel that is not
    configured as OUT: the channels before it have been driven, the error
    of that channel is raised and the rest of the list is not looked at. *)
Theorem output_list_stops (done rest : list Z) (c level : Z) (s : state) :
  (∀ x, x ∈ done → _exports s !! x = Some OUT) →
  _exports s !! c ≠ Some OUT →
  ∃ e, fst (output (Chan c) level s) = Raise e ∧
       output (ChanList (Chan <$> (done ++ c :: rest))) level s =
         (Raise e, snd (output (ChanList (Chan <$> done)) level s)).
Proof.
  intros Hdone Hc.
  destruct (output_list_ok done level s Hdone) as (Hok & Hex).
  set (s1 := snd (output (ChanList (Chan <$> done)) level s)) in *.
  assert (∃ e, output (Chan c) level s1 = (Raise e, s1) ∧
               fst (output (Chan c) level s) = Raise e) as (e & He1 & He).
  { rewrite !output_chan_cases, Hex.
    destruct (_exports s !! c) as [cfg|]; [|eexists; split; reflexivity].
    rewrite bool_decide_eq_false_2 by congruence.
    eexists; split; reflexivity. }
  exists e. split; [exact He|].
  rewrite fmap_app, fmap_cons.
  pose proof (for_each_failure (λ ch, output ch level)
                (Chan <$> done) (Chan <$> rest) (Chan c) s e) as Hf.
  cbv beta in Hf.
  change (for_each (λ ch, output ch level) (Chan <$> done) s)
    with (output (ChanList (Chan <$> done)) level s) in Hf.
  fold s1 in Hf. rewrite He1 in Hf. apply Hf; [exact Hok | reflexivity].
Qed.

(** ** Releasing channels *)

(** [cleanup] of one channel, branch by branch. *)
Lemma cleanup_chan_cases (c : Z) (s : state) :
  cleanup_channel (Chan c) s =
    match _exports s !! c with
    | None => (Raise (RuntimeError (ChannelNotConfigured c)), s)
    | Some _ =>
        (Ok tt,
         with_exports (delete c (_exports s))
           (snd (AIORemoveGPIO c
                   match _events s !! c with
                   | Some _ =>
                       with_events (delete c (_events s))
                         (snd (AIORemoveGPIOCallback c s))
                   | None => s
                   end)))
    end.
Proof.
  simpl. run; simplify_eq; try reflexivity.
Qed.

Lemma cleanup_chan_effect (c : Z) (s : state) :
  is_Some (_exports s !! c) →
  fst (cleanup_channel (Chan c) s) = Ok tt ∧
  _exports (snd (cleanup_channel (Chan c) s)) = delete c (_exports s) ∧
  _events (snd (cleanup_channel (Chan c) s)) = delete c (_events s) ∧
  gpios (hw (snd (cleanup_channel (Chan c) s))) = delete c (gpios (hw s)) ∧
  _mode (snd (cleanup_channel (Chan c) s)) = _mode s.
Proof.
  intros [cfg Hc]. rewrite cleanup_chan_cases, Hc.
  destruct (_events s !! c) eqn:Hv; simpl; split_and!; try reflexivity.
  symmetry. apply delete_id, Hv.
Qed.

(** X11: [cleanup] of a configured channel returns and removes the
    configuration entry, the event entry if there is one, the pin and its
    driven level on the board; the callback of the channel is unregistered
    exactly when the channel has an event entry.  Nothing is changed for
    another channel. *)
Theorem cleanup_chan_releases (c : Z) (s : state) :
  is_Some (_exports s !! c) →
  fst (cleanup (Some (Chan c)) s) = Ok tt ∧
  _exports (snd (cleanup (Some (Chan c)) s)) = delete c (_exports s) ∧
  _events (snd (cleanup (Some (Chan c)) s)) = delete c (_events s) ∧
  gpios (hw (snd (cleanup (Some (Chan c)) s))) = delete c (gpios (hw s)) ∧
  driven (hw (snd (cleanup (Some (Chan c)) s))) = delete c (driven (hw s)) ∧
  callbacks (hw (snd (cleanup (Some (Chan c)) s))) =
    (if bool_decide (is_Some (_events s !! c))
     then delete c (callbacks (hw s)) else callbacks (hw s)) ∧
  edge_flags (hw (snd (cleanup (Some (Chan c)) s))) = edge_flags (hw s).
Proof.
  intros [cfg Hc]. unfold cleanup. rewrite cleanup_chan_cases, Hc.
  destruct (_events s !! c) eqn:Hv; simpl; split_and!; try reflexivity.
  symmetry. apply delete_id, Hv.
Qed.

Lemma cleanup_list_cons (a : channel_arg) (l : list channel_arg) :
  cleanup_channel (ChanList (a :: l)) =
    (cleanup_channel a ;;; cleanup_channel (ChanList l)).
Proof. reflexivity. Qed.

(** Cleaning up a list of distinct configured channels. *)
Lemma cleanup_list_effect (l : list Z) (s : state) :
  NoDup l → (∀ c, c ∈ l → is_Some (_exports s !! c)) →
  fst (cleanup_channel (ChanList (Chan <$> l)) s) = Ok tt ∧
  (∀ c, _exports (snd (cleanup_channel (ChanList (Chan <$> l)) s)) !! c =
        if bool_decide (c ∈ l) then None else _exports s !! c) ∧
  (∀ c, _events (snd (cleanup_channel (ChanList (Chan <$> l)) s)) !! c =
        if bool_decide (c ∈ l) then None else _events s !! c) ∧
  (∀ c, gpios (hw (snd (cleanup_channel (ChanList (Chan <$> l)) s))) !! c =
        if bool_decide (c ∈ l) then None else gpios (hw s) !! c) ∧
  _mode (snd (cleanup_channel (ChanList (Chan <$> l)) s)) = _mode s.
Proof.
  revert s. induction l as [|c l IH]; intros s Hnd Hall.
  - simpl. split_and!; reflexivity.
  - apply NoDup_cons in Hnd as [Hc Hnd].
    destruct (cleanup_chan_effect c s) as (Hok & Hex & Hev & Hg & Hm);
      [apply Hall; left|].
    destruct (cleanup_channel (Chan c) s) as [o s1] eqn:Hstep.
    simpl in Hok, Hex, Hev, Hg, Hm. subst o.
    rewrite fmap_cons, cleanup_list_cons, (bind_Ok_step _ _ _ _ _ Hstep).
    destruct (IH s1 Hnd) as (Hok' & Hex' & Hev' & Hg' & Hm').
    { intros c' Hc'. rewrite Hex, lookup_delete_ne; [apply Hall; right; exact Hc'|].
      intros ->. contradiction. }
    assert (∀ (m m1 : gmap Z Z) (m' : gmap Z Z) c',
              m1 = delete c m →
              m' !! c' = (if bool_decide (c' ∈ l) then None else m1 !! c') →
              m' !! c' = if bool_decide (c' ∈ c :: l) then None else m !! c')
      as Hmap.
    { intros m m1 m' c' -> Hl. rewrite Hl.
      destruct (decide (c' = c)) as [->|Hne].
      - rewrite (bool_decide_eq_true_2 (c ∈ c :: l)) by left.
        rewrite lookup_delete_eq. destruct (bool_decide (c ∈ l)); reflexivity.
      - rewrite lookup_delete_ne by congruence.
        destruct (decide (c' ∈ l)) as [Hl'|Hl'].
        + rewrite !bool_decide_eq_true_2; [reflexivity | right; exact Hl' | exact Hl'].
        + rewrite !bool_decide_eq_false_2; [reflexivity | | exact Hl'].
          intros [?|?]%elem_of_cons; contradiction. }
    split_and!.
    + exact Hok'.
    + intros c'. exact (Hmap _ _ _ c' Hex (Hex' c')).
    + intros c'. exact (Hmap _ _ _ c' Hev (Hev' c')).
    + intros c'. exact (Hmap _ _ _ c' Hg (Hg' c')).
    + congruence.
Qed.

(** X12: [cleanup] of a list of distinct configured channels returns and
    removes the configuration entries, event entries and pins of exactly
    those channels: every other channel keeps what it had. *)
Theorem cleanup_list_removes_exactly (l : list Z) (s : state) :
  NoDup l → (∀ c, c ∈ l → is_Some (_exports s !! c)) →
  fst (cleanup (Some (ChanList (Chan <$> l))) s) = Ok tt ∧
  (∀ c, c ∈ l →
     _exports (snd (cleanup (Some (ChanList (Chan <$> l))) s)) !! c = None ∧
     _events (snd (cleanup (Some (ChanList (Chan <$> l))) s)) !! c = None) ∧
  (∀ c, c ∉ l →
     _exports (snd (cleanup (Some (ChanList (Chan <$> l))) s)) !! c
       = _exports s !! c ∧
     _events (snd (cleanup (Some (ChanList (Chan <$> l))) s)) !! c
       = _events s !! c).
Proof.
  intros Hnd Hall. unfold cleanup.
  destruct (cleanup_list_effect l s Hnd Hall) as (Hok & Hex & Hev & _ & _).
  split_and!; [exact Hok | |]; intros c Hc; rewrite Hex, Hev.
  - rewrite bool_decide_eq_true_2 by exact Hc. split; reflexivity.
  - rewrite bool_decide_eq_false_2 by exact Hc. split; reflexivity.
Qed.

Lemma elem_of_keys (m : gmap Z Z) (c : Z) :
  c ∈ (map_to_list m).*1 ↔ is_Some (m !! c).
Proof.
  rewrite list_elem_of_fmap. split.
  - intros [[k v] [-> Hkv]]. apply elem_of_map_to_list in Hkv.
    eexists. exact Hkv.
  - intros [v Hv]. exists (c, v). split; [reflexivity|].
    apply elem_of_map_to_list. exact Hv.
Qed.

(** The loop of [cleanup()] over the keys of the registry. *)
Lemma cleanup_keys_effect (s : state) :
  fst (cleanup_channel (ChanList (Chan <$> (map_to_list (_exports s)).*1)) s)
    = Ok tt ∧
  (∀ c, _exports (snd (cleanup_channel
                         (ChanList (Chan <$> (map_to_list (_exports s)).*1)) s))
          !! c = None) ∧
  (∀ c, _events (snd (cleanup_channel
                        (ChanList (Chan <$> (map_to_list (_exports s)).*1)) s))
          !! c =
        if bool_decide (is_Some (_exports s !! c)) then None
        else _events s !! c) ∧
  (∀ c, is_Some (_exports s !! c) →
        gpios (hw (snd (cleanup_channel
                          (ChanList (Chan <$> (map_to_list (_exports s)).*1))
                          s))) !! c = None).
Proof.
  destruct (cleanup_list_effect (map_to_list (_exports s)).*1 s)
    as (Hok & Hex & Hev & Hg & _).
  { apply NoDup_fst_map_to_list. }
  { intros c Hc. apply elem_of_keys, Hc. }
  split_and!; [exact Hok | | |].
  - intros c. rewrite Hex. case_bool_decide as Hc; [reflexivity|].
    apply eq_None_not_Some. intros Hsome. apply Hc, elem_of_keys, Hsome.
  - intros c. rewrite Hev, (bool_decide_ext _ _ (elem_of_keys _ c)).
    reflexivity.
  - intros c Hc. rewrite Hg, bool_decide_eq_true_2; [reflexivity|].
    apply elem_of_keys, Hc.
Qed.

Lemma cleanup_keys_empty (s : state) :
  _exports (snd (cleanup_channel
                   (ChanList (Chan <$> (map_to_list (_exports s)).*1)) s)) = ∅.
Proof.
  apply map_eq. intros c. rewrite lookup_empty.
  apply (cleanup_keys_effect s).
Qed.

Lemma cleanup_None_result (s : state) :
  cleanup None s =
    (Ok tt,
     snd (AIOShutdown
            (with_mode None
               (with_warnings true
                  (snd (cleanup_channel
                          (ChanList (Chan <$> (map_to_list (_exports s)).*1))
                          s)))))).
Proof.
  destruct (cleanup_keys_effect s) as (Hok & _).
  unfold cleanup. unfold bind at 1, gets. cbv beta iota.
  destruct (cleanup_channel
              (ChanList (Chan <$> (map_to_list (_exports s)).*1)) s)
    as [o s1] eqn:Hloop.
  simpl in Hok. subst o.
  rewrite (bind_Ok_step _ _ _ _ _ Hloop). reflexivity.
Qed.

(** X13: [cleanup()] without argument always returns: it empties the
    channel registry, removes the event entry of every channel that was
    configured, re-enables warnings, forgets the mode and closes the board
    session.  When the event entries were all on configured channels the
    event registry is empty as well.  Calling it again, or on an empty
    registry, is therefore safe. *)
Theorem cleanup_all (s : state) :
  fst (cleanup None s) = Ok tt ∧
  _exports (snd (cleanup None s)) = ∅ ∧
  (∀ c, _events (snd (cleanup None s)) !! c =
        if bool_decide (is_Some (_exports s !! c)) then None
        else _events s !! c) ∧
  (registry_inv s → _events (snd (cleanup None s)) = ∅) ∧
  (∀ c, is_Some (_exports s !! c) → gpios (hw (snd (cleanup None s))) !! c = None) ∧
  _mode (snd (cleanup None s)) = None ∧
  _gpio_warnings (snd (cleanup None s)) = true ∧
  session (hw (snd (cleanup None s))) = false.
Proof.
  destruct (cleanup_keys_effect s) as (_ & _ & Hev & Hg).
  rewrite cleanup_None_result. cbn [fst snd].
  split_and!; try reflexivity.
  - apply cleanup_keys_empty.
  - exact Hev.
  - intros Hinv. apply map_eq. intros c. simpl. rewrite Hev, lookup_empty.
    case_bool_decide as Hc; [reflexivity|].
    destruct (_events s !! c) as [t|] eqn:Ht; [|reflexivity].
    exfalso. apply Hc. rewrite (Hinv c t Ht). eexists. reflexivity.
  - exact Hg.
Qed.

(** X14: configuring a channel that is free on the module and on the board
    and cleaning it up again gives back the state before the two calls. *)
Theorem setup_cleanup_round_trip (c d m : Z) (i : option Z) (s : state) :
  _mode s = Some m → _exports s !! c = None → _events s !! c = None →
  gpios (hw s) !! c = None → driven (hw s) !! c = None →
  fst (setup (Chan c) d i None s) = Ok tt ∧
  cleanup (Some (Chan c)) (snd (setup (Chan c) d i None s)) = (Ok tt, s).
Proof.
  intros Hm Hc Hv Hg Hd. rewrite setup_chan_cases, Hm, Hc. cbn [fst snd].
  split; [reflexivity|].
  unfold cleanup. rewrite cleanup_chan_cases. simpl.
  rewrite lookup_insert_eq, Hv.
  f_equal. destruct s as [w md ex ev [rc ss gp dr ef cb sg sm] ck tk wd].
  simpl in *. unfold with_exports, with_hw. simpl.
  rewrite !delete_insert_eq, !delete_id by assumption. reflexivity.
Qed.

(** ** Edge detection entries and callbacks *)

Section EventExtras.
Context {aio : armbianio}.

(** [add_event_detect], branch by branch. *)
Lemma add_event_detect_cases (c t : Z) (cb : option nat) (bt : option Z)
    (s : state) :
  add_event_detect c t cb bt s =
    match _exports s !! c with
    | None => (Raise (RuntimeError (ChannelNotConfigured c)), s)
    | Some cfg =>
        if bool_decide (cfg = IN) then
          if bool_decide (t ∈ [RISING; FALLING; BOTH]) then
            match _events s !! c with
            | Some _ =>
                (Raise (RuntimeError EventConflict), bouncetime_advised bt s)
            | None =>
                (Ok tt,
                 match cb with
                 | Some f =>
                     snd (AIOAddGPIOCallback c t f
                            (with_events (<[c := t]> (_events s))
                               (bouncetime_advised bt s)))
                 | None =>
                     with_events (<[c := t]> (_events s))
                       (bouncetime_advised bt s)
                 end)
            end
          else (Raise AssertionError, s)
        else (Raise (RuntimeError (WrongDirection c false)), s)
    end.
Proof.
  unfold add_event_detect, valid_trigger, bouncetime_advised.
  run; simplify_eq; tests; impossible; try reflexivity.
Qed.

(** X15: [add_event_detect] returns exactly when the channel is configured
    as IN, the trigger is RISING, FALLING or BOTH and the channel has no
    event entry.  The checks come in that order: an invalid trigger on an
    input channel raises [AssertionError] with nothing changed, even when
    the channel already has an entry.  A call that raises leaves the event
    registry and the board as they were; a call that returns records the
    trigger and registers the callback, if one is given, under that
    trigger. *)
Theorem add_event_detect_ok_iff (c t : Z) (cb : option nat) (bt : option Z)
    (s : state) :
  (fst (add_event_detect c t cb bt s) = Ok tt ↔
   _exports s !! c = Some IN ∧ valid_trigger t ∧ _events s !! c = None) ∧
  (_exports s !! c = Some IN → ¬ valid_trigger t →
   add_event_detect c t cb bt s = (Raise AssertionError, s)) ∧
  (fst (add_event_detect c t cb bt s) ≠ Ok tt →
   _events (snd (add_event_detect c t cb bt s)) = _events s ∧
   hw (snd (add_event_detect c t cb bt s)) = hw s) ∧
  (fst (add_event_detect c t cb bt s) = Ok tt →
   _events (snd (add_event_detect c t cb bt s)) = <[c := t]> (_events s) ∧
   callbacks (hw (snd (add_event_detect c t cb bt s))) =
     match cb with
     | Some f => <[c := (t, f)]> (callbacks (hw s))
     | None => callbacks (hw s)
     end).
Proof.
  rewrite add_event_detect_cases. unfold valid_trigger.
  assert (_events (bouncetime_advised bt s) = _events s ∧
          hw (bouncetime_advised bt s) = hw s) as [Hbe Hbh]
    by (unfold bouncetime_advised; destruct bt; [destruct (_gpio_warnings s)|];
        split; reflexivity).
  destruct (_exports s !! c) as [cfg|] eqn:Hc;
    [case_bool_decide as Hd; [subst cfg; case_bool_decide as Ht;
       [destruct (_events s !! c) eqn:Hv|]|]|];
    cbn [fst snd]; split_and!;
    try (split; [discriminate | intros (? & ? & ?); congruence]);
    try (intros; first [reflexivity | discriminate | contradiction | congruence]);
    try (intros _; split; assumption).
  - split; [|reflexivity]. intros _. split_and!; [reflexivity | exact Ht|reflexivity].
  - intros _. destruct cb; simpl; rewrite ?Hbh; split; reflexivity.
  - intros _. split; reflexivity.
  - intros _. split; reflexivity.
  - intros _. split; reflexivity.
Qed.

(** [remove_event_detect], branch by branch. *)
Lemma remove_event_detect_cases (c : Z) (s : state) :
  remove_event_detect c s =
    match _exports s !! c with
    | None => (Raise (RuntimeError (ChannelNotConfigured c)), s)
    | Some cfg =>
        if bool_decide (cfg = IN) then
          match _events s !! c with
          | Some _ =>
              (Ok tt,
               with_events (delete c (_events s))
                 (snd (AIORemoveGPIOCallback c s)))
          | None => (Raise (RuntimeError NoEventRegistered), s)
          end
        else (Raise (RuntimeError (WrongDirection c false)), s)
    end.
Proof.
  unfold remove_event_detect.
  run; simplify_eq; tests; impossible; try reflexivity.
Qed.

(** X16: [remove_event_detect] returns exactly when the channel is
    configured as IN and has an event entry; it then deletes the entry and
    unregisters the callback of the channel.  On an input channel without
    entry it raises "No event exists", and every failing call leaves the
    state untouched. *)
Theorem remove_event_detect_ok_iff (c : Z) (s : state) :
  (fst (remove_event_detect c s) = Ok tt ↔
   _exports s !! c = Some IN ∧ is_Some (_events s !! c)) ∧
  (_exports s !! c = Some IN → _events s !! c = None →
   fst (remove_event_detect c s) = Raise (RuntimeError NoEventRegistered)) ∧
  (fst (remove_event_detect c s) ≠ Ok tt → snd (remove_event_detect c s) = s) ∧
  (fst (remove_event_detect c s) = Ok tt →
   _events (snd (remove_event_detect c s)) = delete c (_events s) ∧
   callbacks (hw (snd (remove_event_detect c s)))
     = delete c (callbacks (hw s)) ∧
   _exports (snd (remove_event_detect c s)) = _exports s).
Proof.
  rewrite remove_event_detect_cases.
  destruct (_exports s !! c) as [cfg|] eqn:Hc;
    [case_bool_decide as Hd; [subst cfg; destruct (_events s !! c) eqn:Hv|]|];
    cbn [fst snd]; split_and!;
    try (split; [discriminate | intros (? & ?); congruence]);
    try (intros; first [reflexivity | discriminate | contradiction | congruence]).
  - split; [|reflexivity]. intros _. split; [reflexivity | eexists; reflexivity].
  - intros _. split_and!; reflexivity.
  - split; [discriminate|]. intros [_ [? ?]]. discriminate.
Qed.

(** [add_event_callback], branch by branch. *)
Lemma add_event_callback_cases (c : Z) (cb : nat) (bt : option Z) (s : state) :
  add_event_callback c cb bt s =
    match _exports s !! c with
    | None => (Raise (RuntimeError (ChannelNotConfigured c)), s)
    | Some cfg =>
        if bool_decide (cfg = IN) then
          match _events s !! c with
          | Some t =>
              (Ok tt, snd (AIOAddGPIOCallback c t cb (bouncetime_advised bt s)))
          | None =>
              (Raise (RuntimeError NoEventRegistered), bouncetime_advised bt s)
          end
        else (Raise (RuntimeError (WrongDirection c false)), s)
    end.
Proof.
  unfold add_event_callback, bouncetime_advised.
  run; simplify_eq; tests; impossible; try reflexivity.
Qed.

(** X17: [add_event_callback] only attaches: it returns exactly when the
    channel is configured as IN and has an event entry, and registers the
    callback on the board under the trigger recorded in that entry,
    replacing a callback registered before.  Without an entry it raises "No
    event exists".  It never changes the two registries. *)
Theorem add_event_callback_ok_iff (c : Z) (cb : nat) (bt : option Z)
    (s : state) :
  (fst (add_event_callback c cb bt s) = Ok tt ↔
   _exports s !! c = Some IN ∧ is_Some (_events s !! c)) ∧
  (_exports s !! c = Some IN → _events s !! c = None →
   fst (add_event_callback c cb bt s)
     = Raise (RuntimeError NoEventRegistered)) ∧
  (∀ t, _exports s !! c = Some IN → _events s !! c = Some t →
   callbacks (hw (snd (add_event_callback c cb bt s)))
     = <[c := (t, cb)]> (callbacks (hw s))) ∧
  _exports (snd (add_event_callback c cb bt s)) = _exports s ∧
  _events (snd (add_event_callback c cb bt s)) = _events s.
Proof.
  rewrite add_event_callback_cases.
  assert (_events (bouncetime_advised bt s) = _events s ∧
          _exports (bouncetime_advised bt s) = _exports s ∧
          hw (bouncetime_advised bt s) = hw s) as (Hbe & Hbx & Hbh)
    by (unfold bouncetime_advised; destruct bt; [destruct (_gpio_warnings s)|];
        split_and!; reflexivity).
  destruct (_exports s !! c) as [cfg|] eqn:Hc;
    [case_bool_decide as Hd; [subst cfg; destruct (_events s !! c) eqn:Hv|]|];
    cbn [fst snd]; split_and!;
    try (split; [discriminate | intros (? & ?); congruence]);
    try (intros; first [reflexivity | discriminate | contradiction | congruence
                       | assumption]).
  - split; [|reflexivity]. intros _. split; [reflexivity | eexists; reflexivity].
  - intros t _ [= <-]. simpl. rewrite Hbh. reflexivity.
  - split; [discriminate|]. intros [_ [? ?]]. discriminate.
Qed.

(** X18: on an input channel without event entry and without callback on
    the board, [add_event_detect] with a callback followed by
    [remove_event_detect] gives back the state before the two calls. *)
Theorem event_detect_remove_round_trip (c t : Z) (f : nat) (s : state) :
  _exports s !! c = Some IN → valid_trigger t →
  _events s !! c = None → callbacks (hw s) !! c = None →
  fst (add_event_detect c t (Some f) None s) = Ok tt ∧
  remove_event_detect c (snd (add_event_detect c t (Some f) None s))
    = (Ok tt, s).
Proof.
  intros Hc Ht Hv Hcb. rewrite add_event_detect_cases, Hc.
  rewrite bool_decide_eq_true_2 by reflexivity.
  rewrite bool_decide_eq_true_2 by exact Ht. rewrite Hv. cbn [fst snd].
  split; [reflexivity|].
  rewrite remove_event_detect_cases. simpl. rewrite Hc.
  rewrite bool_decide_eq_true_2 by reflexivity. rewrite lookup_insert_eq.
  f_equal. destruct s as [w md ex ev [rc ss gp dr ef cbs sg sm] ck tk wd].
  simpl in *. unfold with_events, with_hw. simpl.
  rewrite !delete_insert_eq, !delete_id by assumption. reflexivity.
Qed.

End EventExtras.

(** ** Invariants of the running module *)

Lemma module_inv_view_only : view_only module_inv.
Proof.
  intros s s' Hv (Hp & Hc & Hs1 & Hs2). unfold view in Hv.
  injection Hv as Hg Hcb Hss Hm He Hev.
  unfold module_inv, pins_match_registry, callbacks_have_events, session_inv.
  rewrite <- Hg, <- Hcb, <- Hss, <- Hm, <- He, <- Hev. auto.
Qed.

Lemma view_only_polling_only channel I : view_only I → polling_only channel I.
Proof.
  intros HI s s' ((_ & Hm & He & Hv & _) & _ & _ & Hs & Hg & _ & Hc & _).
  apply HI. unfold view. congruence.
Qed.

Lemma preserves_view_read I pin : view_only I → preserves I (AIOReadGPIO pin).
Proof.
  intros HI s Hs. unfold AIOReadGPIO.
  destruct (driven (hw s) !! pin); [exact Hs|]. apply (HI s); [reflexivity | exact Hs].
Qed.

Lemma preserves_view_write I pin level :
  view_only I → preserves I (AIOWriteGPIO pin level).
Proof. intros HI s Hs. apply (HI s); [reflexivity | exact Hs]. Qed.

Lemma preserves_view_warn I a : view_only I → preserves I (warn a).
Proof. intros HI s Hs. apply (HI s); [reflexivity | exact Hs]. Qed.

Lemma preserves_view_setwarnings I b : view_only I → preserves I (setwarnings b).
Proof. intros HI s Hs. apply (HI s); [reflexivity | exact Hs]. Qed.

Lemma module_inv_initial rc sig clk : module_inv (initial (fresh_board rc sig) clk).
Proof.
  split_and!.
  - intros c. simpl. rewrite !lookup_empty. reflexivity.
  - intros c t cb. simpl. rewrite lookup_empty. discriminate.
  - split; [discriminate | reflexivity].
Qed.

Lemma is_Some_insert_iff {A B} (m1 : gmap Z A) (m2 : gmap Z B) c x y :
  (∀ c', is_Some (m1 !! c') ↔ is_Some (m2 !! c')) →
  ∀ c', is_Some (<[c := x]> m1 !! c') ↔ is_Some (<[c := y]> m2 !! c').
Proof.
  intros H c'. destruct (decide (c = c')) as [->|Hne].
  - rewrite !lookup_insert_eq. split; intros _; eexists; reflexivity.
  - rewrite !lookup_insert_ne by assumption. apply H.
Qed.

Lemma is_Some_delete_iff {A B} (m1 : gmap Z A) (m2 : gmap Z B) c :
  (∀ c', is_Some (m1 !! c') ↔ is_Some (m2 !! c')) →
  ∀ c', is_Some (delete c m1 !! c') ↔ is_Some (delete c m2 !! c').
Proof.
  intros H c'. destruct (decide (c = c')) as [->|Hne].
  - rewrite !lookup_delete_eq. split; intros [? ?]; discriminate.
  - rewrite !lookup_delete_ne by assumption. apply H.
Qed.

Lemma setmode_preserves_module_inv mode : preserves module_inv (setmode mode).
Proof.
  intros s (Hp & Hc & Hs1 & Hs2). rewrite setmode_cases.
  destruct (_mode s) as [m0|] eqn:Hm.
  - destruct (Hs1 m0 eq_refl) as [Hss _]. case_bool_decide as Hv; cbn [snd].
    + split_and!; [exact Hp | exact Hc |]. split; [|discriminate].
      simpl. intros m [= <-]. split; assumption.
    + split_and!; [exact Hp | exact Hc |]. split; rewrite Hm; assumption.
  - specialize (Hs2 eq_refl).
    case_bool_decide as Hrc; [|case_bool_decide as Hv]; cbn [snd];
      (split_and!; [exact Hp | exact Hc |]); split; simpl; rewrite ?Hm;
      try discriminate; try (intros _; exact Hs2).
    intros m [= <-]. split; [|assumption].
    apply bool_decide_eq_true_2.
    destruct (decide (init_rc (hw s) = 1)); [assumption | contradiction].
Qed.

Lemma setup_preserves_module_inv channel d i p :
  preserves module_inv (setup channel d i p).
Proof.
  pose proof module_inv_view_only as HV.
  revert i p. induction channel as [c|l IH] using channel_arg_nested_ind;
    intros i p.
  - intros s Hs. pose proof Hs as (Hp & Hc & Hs1 & Hs2).
    rewrite setup_chan_cases.
    destruct (_mode s) as [m|] eqn:Hm; [|exact Hs].
    set (s1 := match p with
               | Some _ =>
                   if _gpio_warnings s
                   then with_warned (PullUpDownAdvisory :: warned s) s
                   else s
               | None => s
               end).
    assert (view s1 = view s) as Hview
      by (unfold s1; destruct p; [destruct (_gpio_warnings s)|]; reflexivity).
    destruct (_exports s !! c) eqn:Hex; cbn [snd].
    + apply (HV s); [symmetry; exact Hview | exact Hs].
    + unfold view in Hview. injection Hview as Hg Hcb Hss Hm1 He Hev.
      split_and!.
      * intros c'. simpl. rewrite Hg. apply is_Some_insert_iff, Hp.
      * intros c' t cb. simpl. rewrite Hcb, Hev. exact (Hc c' t cb).
      * split; simpl; rewrite Hm1, Hm; [|discriminate].
        rewrite Hss. intros m' [= <-]. exact (Hs1 m eq_refl).
  - simpl. preserves_steps; try (apply preserves_view_warn, HV).
    apply preserves_for_each_Forall.
    eapply Forall_impl; [exact IH|]. intros ch Hch. apply Hch.
Qed.

Lemma output_preserves_module_inv channel level :
  preserves module_inv (output channel level).
Proof.
  pose proof module_inv_view_only as HV.
  induction channel as [c|l IH] using channel_arg_nested_ind; simpl.
  - preserves_steps. apply preserves_view_write, HV.
  - apply preserves_for_each_Forall, IH.
Qed.

Lemma cleanup_channel_preserves_module_inv channel :
  preserves module_inv (cleanup_channel channel).
Proof.
  induction channel as [c|l IH] using channel_arg_nested_ind.
  - intros s Hs. pose proof Hs as (Hp & Hc & Hs1 & Hs2).
    rewrite cleanup_chan_cases.
    destruct (_exports s !! c) eqn:Hex; [|exact Hs].
    cbn [snd]. split_and!.
    + intros c'. destruct (_events s !! c); simpl; apply is_Some_delete_iff, Hp.
    + intros c' t cb. destruct (_events s !! c) eqn:Hev; simpl.
      * destruct (decide (c = c')) as [->|Hne].
        -- rewrite lookup_delete_eq. discriminate.
        -- rewrite !lookup_delete_ne by assumption. apply Hc.
      * apply Hc.
    + split.
      * destruct (_events s !! c); simpl; exact Hs1.
      * intros Hm. assert (_mode s = None) as Hm'
          by (destruct (_events s !! c); exact Hm).
        rewrite (Hs2 Hm'), lookup_empty in Hex. discriminate.
  - simpl. apply preserves_for_each_Forall, IH.
Qed.

Lemma cleanup_preserves_module_inv channel :
  preserves module_inv (cleanup channel).
Proof.
  destruct channel as [ch|]; [apply cleanup_channel_preserves_module_inv|].
  intros s Hs.
  pose proof (cleanup_channel_preserves_module_inv
                (ChanList (Chan <$> (map_to_list (_exports s)).*1)) s Hs)
    as (Hp & Hc & _).
  rewrite cleanup_None_result. cbn [snd].
  split_and!; [exact Hp | exact Hc |]. split; [simpl; discriminate|].
  intros _. apply cleanup_keys_empty.
Qed.

Section InvariantExtras.
Context {aio : armbianio}.

Lemma session_inv_same (s s' : state) :
  session (hw s) = session (hw s') → _mode s = _mode s' →
  _exports s = _exports s' → session_inv s → session_inv s'.
Proof. unfold session_inv. intros <- <- <-. auto. Qed.

Ltac same_session s H1 H2 :=
  try (apply (session_inv_same s); simpl;
       [congruence | congruence | congruence | exact (conj H1 H2)]).

Lemma add_event_detect_preserves_module_inv c t cb bt :
  preserves module_inv (add_event_detect c t cb bt).
Proof.
  intros s Hs. pose proof Hs as (Hp & Hc & Hs1 & Hs2).
  assert (view (bouncetime_advised bt s) = view s) as Hview
    by (unfold bouncetime_advised; destruct bt; [destruct (_gpio_warnings s)|];
        reflexivity).
  assert (module_inv (bouncetime_advised bt s)) as Hb
    by (apply (module_inv_view_only s); [symmetry; exact Hview | exact Hs]).
  rewrite add_event_detect_cases.
  destruct (_exports s !! c) as [cfg|] eqn:Hex; [|exact Hs].
  repeat case_bool_decide; try exact Hs.
  destruct (_events s !! c) eqn:Hev; cbn [snd]; [exact Hb|].
  unfold view in Hview. injection Hview as Hg Hcb Hss Hm He Hv.
  assert (∀ c' t' f', callbacks (hw s) !! c' = Some (t', f') →
                      <[c := t]> (_events s) !! c' = Some t') as Hkeep.
  { intros c' t' f' Hcb'. pose proof (Hc c' t' f' Hcb') as Hev'.
    destruct (decide (c = c')) as [->|Hne]; [congruence|].
    rewrite lookup_insert_ne by assumption. exact Hev'. }
  destruct cb as [f|]; split_and!; same_session s Hs1 Hs2;
    unfold pins_match_registry, callbacks_have_events; simpl;
    rewrite ?Hg, ?Hcb, ?Hss, ?Hm, ?He;
    try exact Hp; try exact Hkeep.
  intros c' t' f'. destruct (decide (c = c')) as [->|Hne].
  - rewrite !lookup_insert_eq. intros [= <- <-]. reflexivity.
  - rewrite lookup_insert_ne by assumption. apply Hkeep.
Qed.

Lemma remove_event_detect_preserves_module_inv c :
  preserves module_inv (remove_event_detect c).
Proof.
  intros s Hs. pose proof Hs as (Hp & Hc & Hs1 & Hs2).
  rewrite remove_event_detect_cases.
  destruct (_exports s !! c) as [cfg|] eqn:Hex; [|exact Hs].
  case_bool_decide; [|exact Hs].
  destruct (_events s !! c) eqn:Hev; cbn [snd]; [|exact Hs].
  split_and!; same_session s Hs1 Hs2;
    unfold pins_match_registry, callbacks_have_events; simpl;
    try exact Hp.
  intros c' t' f'. destruct (decide (c = c')) as [->|Hne].
  - rewrite lookup_delete_eq. discriminate.
  - rewrite !lookup_delete_ne by assumption. apply Hc.
Qed.

Lemma add_event_callback_preserves_module_inv c cb bt :
  preserves module_inv (add_event_callback c cb bt).
Proof.
  intros s Hs. pose proof Hs as (Hp & Hc & Hs1 & Hs2).
  assert (view (bouncetime_advised bt s) = view s) as Hview
    by (unfold bouncetime_advised; destruct bt; [destruct (_gpio_warnings s)|];
        reflexivity).
  assert (module_inv (bouncetime_advised bt s)) as Hb
    by (apply (module_inv_view_only s); [symmetry; exact Hview | exact Hs]).
  rewrite add_event_callback_cases.
  destruct (_exports s !! c) as [cfg|] eqn:Hex; [|exact Hs].
  case_bool_decide; [|exact Hs].
  destruct (_events s !! c) as [t|] eqn:Hev; cbn [snd]; [|exact Hb].
  unfold view in Hview. injection Hview as Hg Hcb Hss Hm He Hv.
  split_and!; same_session s Hs1 Hs2;
    unfold pins_match_registry, callbacks_have_events; simpl;
    rewrite ?Hg, ?Hcb, ?Hss, ?Hm, ?He, ?Hv;
    try exact Hp.
  intros c' t' f'. destruct (decide (c = c')) as [->|Hne].
  - rewrite lookup_insert_eq. intros [= <- <-]. exact Hev.
  - rewrite lookup_insert_ne by assumption. apply Hc.
Qed.

Lemma perform_module_inv k s : module_inv s → module_inv (perform k s).
Proof.
  pose proof module_inv_view_only as HV.
  intros Hs. destruct k; simpl.
  - exact Hs.
  - exact (setmode_preserves_module_inv _ s Hs).
  - exact (preserves_view_setwarnings _ _ HV s Hs).
  - exact (setup_preserves_module_inv _ _ _ _ s Hs).
  - unfold input.
    assert (preserves module_inv
              (_check_configured channel None ;;; AIOReadGPIO channel)) as H
      by (preserves_steps; apply preserves_view_read, HV).
    exact (H s Hs).
  - exact (output_preserves_module_inv _ _ s Hs).
  - exact (preserves_wait_for_edge _ _ _ _ _
             (view_only_polling_only _ _ HV) s Hs).
  - exact (add_event_detect_preserves_module_inv _ _ _ _ s Hs).
  - exact (remove_event_detect_preserves_module_inv _ s Hs).
  - exact (add_event_callback_preserves_module_inv _ _ _ s Hs).
  - assert (preserves module_inv (event_detected channel)) as H
      by (unfold event_detected; preserves_steps).
    exact (H s Hs).
  - exact (cleanup_preserves_module_inv _ s Hs).
Qed.

Lemma started_module_inv s : started s → module_inv s.
Proof.
  induction 1 as [rc sig clk|k s _ IH].
  - apply module_inv_initial.
  - apply perform_module_inv, IH.
Qed.

(** X19: in every state a program reaches from the module imported on a
    freshly booted board, the pins held by the board are exactly the
    configured channels: [setup] and [cleanup] keep the two in step,
    whether calls return or raise. *)
Theorem started_pins_match_registry (s : state) :
  started s → ∀ c, is_Some (gpios (hw s) !! c) ↔ is_Some (_exports s !! c).
Proof. intros Hs. apply (started_module_inv s Hs). Qed.

(** X20: in every such state a callback is registered on the board only for
    a channel with an event entry, and under the trigger of that entry. *)
Theorem started_callbacks_have_events (s : state) (c t : Z) (cb : nat) :
  started s → callbacks (hw s) !! c = Some (t, cb) → _events s !! c = Some t.
Proof. intros Hs. apply (started_module_inv s Hs). Qed.

(** X21: in every such state a recorded mode is BCM or BOARD and the board
    session is open; and when no mode is recorded, no channel is
    configured. *)
Theorem started_session (s : state) :
  started s →
  (∀ m, _mode s = Some m → session (hw s) = true ∧ m ∈ [BCM; BOARD]) ∧
  (_mode s = None → _exports s = ∅).
Proof. intros Hs. apply (started_module_inv s Hs). Qed.

Lemma setup_keeps_events_mode ch d i p ev m :
  preserves (λ s, _events s = ev ∧ _mode s = m) (setup ch d i p).
Proof.
  revert i p. induction ch as [c|l IH] using channel_arg_nested_ind; intros i p.
  - intros s [Hv Hm]. rewrite setup_chan_cases.
    destruct (_mode s) eqn:E; [|split; simpl; congruence].
    destruct p; [destruct (_gpio_warnings s)|]; destruct (_exports s !! c);
      split; simpl; congruence.
  - simpl. preserves_steps; try (intros s Hs; exact Hs).
    apply preserves_for_each_Forall.
    eapply Forall_impl; [exact IH|]. intros ch Hch. apply Hch.
Qed.

Lemma globals_only_kept (s0 : state) :
  globals_only (λ s, _exports s = _exports s0 ∧ _events s = _events s0 ∧
                     _mode s = _mode s0).
Proof.
  intros s s' (_ & Hm & He & Hv & _) (H1 & H2 & H3). split_and!; congruence.
Qed.

Lemma output_keeps_globals ch level I :
  globals_only I → preserves I (output ch level).
Proof.
  intros HG. induction ch as [c|l IH] using channel_arg_nested_ind; simpl.
  - unfold AIOWriteGPIO. preserves_steps. apply preserves_on_hw, HG.
  - apply preserves_for_each_Forall, IH.
Qed.

(** X22: which call can change which global.  The channel registry is
    changed by [setup] and [cleanup] only, the event registry by
    [add_event_detect], [remove_event_detect] and [cleanup] only, the mode
    by [setmode] and [cleanup] only; this holds for calls that return and
    for calls that raise. *)
Theorem perform_frame (k : call) (s : state) :
  (match k with
   | Setup _ _ _ _ | Cleanup _ => True
   | _ => _exports (perform k s) = _exports s
   end) ∧
  (match k with
   | AddEventDetect _ _ _ _ | RemoveEventDetect _ | Cleanup _ => True
   | _ => _events (perform k s) = _events s
   end) ∧
  (match k with
   | Setmode _ | Cleanup _ => True
   | _ => _mode (perform k s) = _mode s
   end).
Proof.
  pose proof (globals_only_kept s) as HG.
  assert (_exports s = _exports s ∧ _events s = _events s ∧ _mode s = _mode s)
    as H0 by (split_and!; reflexivity).
  destruct k as [ | mode | enabled | channel direction init pud | channel
                | channel level | fuel channel trigger timeout
                | channel trigger callback bouncetime | channel
                | channel callback bouncetime | channel | channel ]; simpl.
  - split_and!; reflexivity.
  - rewrite setmode_cases.
    destruct (_mode s); repeat case_bool_decide; split_and!;
      first [exact I | reflexivity].
  - split_and!; reflexivity.
  - destruct (setup_keeps_events_mode channel direction init pud
                (_events s) (_mode s) s) as [Hv Hm]; [split; reflexivity|].
    split_and!; [exact I | exact Hv | exact Hm].
  - assert (preserves (λ s', _exports s' = _exports s ∧ _events s' = _events s ∧
                             _mode s' = _mode s) (input channel)) as H
      by (unfold input; preserves_steps; apply preserves_AIOReadGPIO, HG).
    exact (H s H0).
  - exact (output_keeps_globals _ _ _ HG s H0).
  - exact (preserves_wait_for_edge _ _ _ _ _
             (globals_only_polling_only _ _ HG) s H0).
  - rewrite add_event_detect_cases.
    assert (_exports (bouncetime_advised bouncetime s) = _exports s ∧
            _mode (bouncetime_advised bouncetime s) = _mode s) as [Hbe Hbm]
      by (unfold bouncetime_advised; destruct bouncetime;
          [destruct (_gpio_warnings s)|]; split; reflexivity).
    destruct (_exports s !! channel); repeat case_bool_decide;
      try destruct (_events s !! channel); try destruct callback;
      split_and!; first [exact I | reflexivity | assumption].
  - rewrite remove_event_detect_cases.
    destruct (_exports s !! channel); repeat case_bool_decide;
      try destruct (_events s !! channel);
      split_and!; first [exact I | reflexivity].
  - rewrite add_event_callback_cases.
    assert (_exports (bouncetime_advised bouncetime s) = _exports s ∧
            _events (bouncetime_advised bouncetime s) = _events s ∧
            _mode (bouncetime_advised bouncetime s) = _mode s)
      as (Hbe & Hbv & Hbm)
      by (unfold bouncetime_advised; destruct bouncetime;
          [destruct (_gpio_warnings s)|]; split_and!; reflexivity).
    destruct (_exports s !! channel); repeat case_bool_decide;
      try destruct (_events s !! channel);
      split_and!; first [exact I | reflexivity | assumption].
  - assert (preserves (λ s', _exports s' = _exports s ∧ _events s' = _events s ∧
                             _mode s' = _mode s) (event_detected channel)) as H
      by (unfold event_detected; preserves_steps).
    exact (H s H0).
  - split_and!; exact I.
Qed.

End InvariantExtras.

(** ** More on the polling wait *)

Section WaitExtras.
Context {aio : armbianio}.

(** [wait_for_edge], check by check. *)
Lemma wait_for_edge_cases (fuel : nat) (c t timeout : Z) (s : state) :
  wait_for_edge fuel c t timeout s =
    match _exports s !! c with
    | None => (Raise (RuntimeError (ChannelNotConfigured c)), s)
    | Some cfg =>
        if bool_decide (cfg = IN) then
          if bool_decide (t ∈ [RISING; FALLING; BOTH]) then
            match _events s !! c with
            | Some _ => (Raise (RuntimeError EventConflict), s)
            | None => wait_armed fuel c t timeout s
            end
          else (Raise AssertionError, s)
        else (Raise (RuntimeError (WrongDirection c false)), s)
    end.
Proof.
  unfold wait_for_edge, wait_armed.
  unfold bind at 1. unfold _check_configured, bind at 1, gets. cbv beta iota.
  destruct (_exports s !! c) as [cfg|]; [|reflexivity].
  destruct (decide (cfg = IN)) as [->|Hne].
  - rewrite bool_decide_eq_false_2 by (intros H; apply H; reflexivity).
    rewrite (bool_decide_eq_true_2 (IN = IN)) by reflexivity.
    unfold ret. cbv beta iota. unfold bind at 1, py_assert.
    case_bool_decide; [|reflexivity].
    unfold ret. cbv beta iota. unfold bind at 1, gets. cbv beta iota.
    unfold bind at 1.
    destruct (_events s !! c).
    + rewrite bool_decide_eq_true_2 by (eexists; reflexivity). reflexivity.
    + rewrite bool_decide_eq_false_2 by (intros [? ?]; discriminate).
      reflexivity.
  - rewrite bool_decide_eq_true_2 by congruence.
    rewrite (bool_decide_eq_false_2 (cfg = IN)) by exact Hne. reflexivity.
Qed.

Lemma wait_body_edge_flags channel trigger timeout startTime v s :
  edge_flags (hw (snd (wait_body channel trigger timeout startTime v s)))
    = edge_flags (hw s).
Proof.
  unfold wait_body, AIOReadGPIO, time_time, time_sleep, bind, ret.
  destruct (driven (hw s) !! channel); destruct (bool_decide (timeout > 0));
    reflexivity.
Qed.

(** The loop ends or is still running when the budget is spent; it never
    raises and never touches an edge flag. *)
Lemma wait_loop_outcome fuel channel trigger timeout startTime v s :
  (∃ v', fst (wait_loop fuel channel trigger timeout startTime v s) = Ok v'
         ∨ fst (wait_loop fuel channel trigger timeout startTime v s)
           = OutOfFuel) ∧
  edge_flags (hw (snd (wait_loop fuel channel trigger timeout startTime v s)))
    = edge_flags (hw s).
Proof.
  revert v s. induction fuel as [|fuel IH]; intros v s; simpl;
    destruct (keeps_waiting v) eqn:K.
  - split; [exists v; right; reflexivity | reflexivity].
  - split; [exists v; left; reflexivity | reflexivity].
  - destruct (wait_body_returns channel trigger timeout startTime v s)
      as (new & s1 & v' & s' & _ & Hbody & _).
    pose proof (wait_body_edge_flags channel trigger timeout startTime v s)
      as Hedge.
    rewrite Hbody in Hedge. simpl in Hedge.
    rewrite (bind_Ok_step _ _ _ _ _ Hbody).
    destruct (IH v' s') as [Hout Hflags]. split; [exact Hout|].
    rewrite Hflags. exact Hedge.
  - split; [exists v; left; reflexivity | reflexivity].
Qed.

(** Past the checks the call returns the channel with the flag disarmed, or
    is still waiting with the flag armed. *)
Lemma wait_armed_outcome fuel c t timeout s :
  (∃ s', wait_armed fuel c t timeout s = (Ok c, s') ∧
         edge_flags (hw s') !! c = Some NONE) ∨
  (∃ s', wait_armed fuel c t timeout s = (OutOfFuel, s') ∧
         edge_flags (hw s') !! c = Some t).
Proof.
  unfold wait_armed.
  set (s1 := snd (AIOWriteGPIOEdge c t s)).
  rewrite (bind_Ok_step _ _ s tt s1) by reflexivity.
  set (s2 := snd (time_time s1)).
  rewrite (bind_Ok_step _ _ s1 (clock s1 (ticks s1)) s2) by reflexivity.
  destruct (AIOReadGPIO c s2) as [o s3] eqn:Hread.
  assert (∃ original, o = Ok original ∧ edge_flags (hw s3) = edge_flags (hw s2))
    as (original & -> & Hflags3).
  { revert Hread. unfold AIOReadGPIO.
    destruct (driven (hw s2) !! c); intros [= <- <-]; eexists; split;
      reflexivity. }
  rewrite (bind_Ok_step _ _ _ _ _ Hread).
  destruct (wait_loop_outcome fuel c t timeout (clock s1 (ticks s1))
              {| originalValue := original; value := original;
                 valueExit := false; timeoutExit := false |} s3)
    as [[v' Hout] Hflags].
  destruct (wait_loop fuel c t timeout (clock s1 (ticks s1))
              {| originalValue := original; value := original;
                 valueExit := false; timeoutExit := false |} s3)
    as [o4 s4] eqn:Hloop.
  simpl in Hout, Hflags. destruct Hout as [-> | ->].
  - left. rewrite (bind_Ok_step _ _ _ _ _ Hloop).
    eexists. split; [reflexivity|]. simpl. apply lookup_insert_eq.
  - right. exists s4. split; [unfold bind; rewrite Hloop; reflexivity|].
    rewrite Hflags, Hflags3. simpl. apply lookup_insert_eq.
Qed.

(** X23: [wait_for_edge] checks the channel, then the trigger, then the
    event registry, and a call that fails one of the checks changes
    nothing, the edge flag included: "not configured" without entry,
    "configured for output" for an entry that is not IN, [AssertionError]
    for a trigger other than RISING, FALLING and BOTH. *)
Theorem wait_for_edge_rejects (fuel : nat) (c t timeout : Z) (s : state) :
  (_exports s !! c = None →
   wait_for_edge fuel c t timeout s
     = (Raise (RuntimeError (ChannelNotConfigured c)), s)) ∧
  (∀ cfg, _exports s !! c = Some cfg → cfg ≠ IN →
   wait_for_edge fuel c t timeout s
     = (Raise (RuntimeError (WrongDirection c false)), s)) ∧
  (_exports s !! c = Some IN → ¬ valid_trigger t →
   wait_for_edge fuel c t timeout s = (Raise AssertionError, s)) ∧
  (∀ e, fst (wait_for_edge fuel c t timeout s) = Raise e →
   snd (wait_for_edge fuel c t timeout s) = s).
Proof.
  rewrite wait_for_edge_cases. unfold valid_trigger. split_and!.
  - intros ->. reflexivity.
  - intros cfg -> Hne. rewrite bool_decide_eq_false_2 by exact Hne. reflexivity.
  - intros -> Ht. rewrite bool_decide_eq_true_2 by reflexivity.
    rewrite bool_decide_eq_false_2 by exact Ht. reflexivity.
  - intros e.
    destruct (_exports s !! c) as [cfg|]; [|reflexivity].
    case_bool_decide; [|reflexivity]. case_bool_decide; [|reflexivity].
    destruct (_events s !! c); [reflexivity|].
    intros Hraise. exfalso. revert Hraise.
    destruct (wait_armed_outcome fuel c t timeout s) as [[s' [-> _]]|[s' [-> _]]];
      discriminate.
Qed.

(** X24: once the three checks have passed, [wait_for_edge] never raises:
    it returns the channel with the edge flag of the channel back at NONE,
    or it is still polling, with the flag armed to the trigger. *)
Theorem wait_for_edge_armed (fuel : nat) (c t timeout : Z) (s : state) :
  _exports s !! c = Some IN → valid_trigger t → _events s !! c = None →
  (fst (wait_for_edge fuel c t timeout s) = Ok c ∧
   edge_flags (hw (snd (wait_for_edge fuel c t timeout s))) !! c = Some NONE) ∨
  (fst (wait_for_edge fuel c t timeout s) = OutOfFuel ∧
   edge_flags (hw (snd (wait_for_edge fuel c t timeout s))) !! c = Some t).
Proof.
  unfold valid_trigger. intros Hc Ht Hv.
  rewrite wait_for_edge_cases, Hc, Hv.
  rewrite bool_decide_eq_true_2 by reflexivity.
  rewrite bool_decide_eq_true_2 by exact Ht.
  destruct (wait_armed_outcome fuel c t timeout s)
    as [[s' [-> Hf]]|[s' [-> Hf]]]; [left | right]; split;
    first [reflexivity | exact Hf].
Qed.

Lemma wait_loop_done fuel channel trigger timeout startTime v s :
  keeps_waiting v = false →
  wait_loop fuel channel trigger timeout startTime v s = (Ok v, s).
Proof. intros K. destruct fuel; simpl; rewrite K; reflexivity. Qed.

(** On a pin that is not driven and whose level stays where it is, a loop
    without timeout that is waiting keeps waiting. *)
Lemma wait_loop_quiet channel trigger timeout startTime level :
  timeout ≤ 0 →
  ∀ fuel v s,
    keeps_waiting v = true → originalValue v = level →
    driven (hw s) !! channel = None →
    (∀ n, (samples (hw s) ≤ n)%nat → signal (hw s) channel n = level) →
    fst (wait_loop fuel channel trigger timeout startTime v s) = OutOfFuel.
Proof.
  intros Hforever. induction fuel as [|fuel IH]; intros v s K Hbase Hd Hsig;
    simpl; rewrite K; [reflexivity|].
  destruct (wait_body_returns channel trigger timeout startTime v s)
    as (new & s1 & v' & s' & Hread & Hbody & _ & _ & _ & Hsame & Hno & _).
  destruct (Hno Hforever) as [Htime ->].
  assert (new = level ∧ driven (hw s1) = driven (hw s) ∧
          signal (hw s1) = signal (hw s) ∧ samples (hw s1) = S (samples (hw s)))
    as (-> & Hd1 & Hsig1 & Hsam1).
  { revert Hread. unfold AIOReadGPIO. rewrite Hd. intros [= <- <-].
    split_and!; try reflexivity. apply Hsig. lia. }
  destruct (Hsame (eq_sym Hbase)) as [Hbase' Hexit'].
  rewrite (bind_Ok_step _ _ _ _ _ Hbody). apply IH.
  - unfold keeps_waiting in *. rewrite Hexit', Htime. exact K.
  - congruence.
  - rewrite Hd1. exact Hd.
  - intros n Hn. rewrite Hsig1. apply Hsig. lia.
Qed.

(** X25: a timeout of zero or less means waiting for ever: on an input pin
    whose level does not change, [wait_for_edge] without positive timeout
    has not returned after any number of polls. *)
Theorem wait_for_edge_waits_forever (fuel : nat) (c t timeout level : Z)
    (s : state) :
  _exports s !! c = Some IN → valid_trigger t → _events s !! c = None →
  timeout ≤ 0 → driven (hw s) !! c = None →
  (∀ n, (samples (hw s) ≤ n)%nat → signal (hw s) c n = level) →
  fst (wait_for_edge fuel c t timeout s) = OutOfFuel.
Proof.
  unfold valid_trigger. intros Hc Ht Hv Hforever Hd Hsig.
  rewrite wait_for_edge_cases, Hc, Hv.
  rewrite bool_decide_eq_true_2 by reflexivity.
  rewrite bool_decide_eq_true_2 by exact Ht.
  unfold wait_armed.
  set (s1 := snd (AIOWriteGPIOEdge c t s)).
  rewrite (bind_Ok_step _ _ s tt s1) by reflexivity.
  set (s2 := snd (time_time s1)).
  rewrite (bind_Ok_step _ _ s1 (clock s1 (ticks s1)) s2) by reflexivity.
  assert (AIOReadGPIO c s2 = (Ok level, snd (AIOReadGPIO c s2))) as Hread.
  { unfold AIOReadGPIO. simpl. rewrite Hd. simpl. f_equal. f_equal.
    apply Hsig. lia. }
  rewrite (bind_Ok_step _ _ _ _ _ Hread).
  pose proof (wait_loop_quiet c t timeout (clock s1 (ticks s1)) level Hforever
                fuel
                {| originalValue := level; value := level;
                   valueExit := false; timeoutExit := false |}
                (snd (AIOReadGPIO c s2))) as Hloop.
  unfold bind.
  destruct (wait_loop fuel c t timeout (clock s1 (ticks s1))
              {| originalValue := level; value := level;
                 valueExit := false; timeoutExit := false |}
              (snd (AIOReadGPIO c s2))) as [o s4].
  simpl in Hloop. rewrite Hloop; [reflexivity | reflexivity | reflexivity | |].
  - unfold AIOReadGPIO. simpl. rewrite Hd. simpl. exact Hd.
  - unfold AIOReadGPIO. simpl. rewrite Hd. simpl. intros n Hn.
    apply Hsig. lia.
Qed.

(** X26: with trigger BOTH a sampled level different from the baseline ends
    the wait whatever the direction of the change and whatever the
    timeout: the pass sets [valueExit] and the loop test fails after it. *)
Theorem wait_body_both (channel timeout startTime : Z) (v : loop_vars)
    (s s1 : state) (new : Z) :
  AIOReadGPIO channel s = (Ok new, s1) → new ≠ originalValue v →
  ∃ v' s',
    wait_body channel BOTH timeout startTime v s = (Ok v', s') ∧
    valueExit v' = true ∧ keeps_waiting v' = false ∧
    ∀ fuel, wait_loop fuel channel BOTH timeout startTime v' s' = (Ok v', s').
Proof.
  intros Hread Hnew.
  destruct (wait_body_returns channel BOTH timeout startTime v s)
    as (new' & s1' & v' & s' & Hread' & Hbody & _ & _ & Hboth & _).
  rewrite Hread in Hread'. injection Hread' as <- <-.
  destruct (Hboth Hnew eq_refl) as [_ Hexit].
  assert (keeps_waiting v' = false) as K
    by (unfold keeps_waiting; rewrite Hexit; reflexivity).
  exists v', s'. split_and!; [exact Hbody | exact Hexit | exact K |].
  intros fuel. apply wait_loop_done, K.
Qed.

(** With a positive timeout the loop has ended after pass [n + 1] at the
    latest when the clock reading of that pass is past the deadline. *)
Lemma wait_loop_timeout_bound channel trigger timeout startTime :
  timeout > 0 →
  ∀ n fuel v s, (n < fuel)%nat →
    clock s (ticks s + n)%nat - startTime > timeout →
    ∃ v' s', wait_loop fuel channel trigger timeout startTime v s = (Ok v', s').
Proof.
  intros Hpos. induction n as [|n IH]; intros fuel v s Hfuel Hlate;
    (destruct fuel as [|fuel]; [lia|]);
    destruct (keeps_waiting v) eqn:K;
    try (exists v, s; apply wait_loop_done, K);
    destruct (wait_body_returns channel trigger timeout startTime v s)
      as (new & s1 & v' & s' & _ & Hbody & _ & _ & _ & _ & _ & Htime);
    destruct (Htime Hpos) as (Hexit & Hticks & Hclock);
    simpl; rewrite K, (bind_Ok_step _ _ _ _ _ Hbody).
  - exists v', s'. apply wait_loop_done.
    replace (ticks s + 0)%nat with (ticks s) in Hlate by lia.
    unfold keeps_waiting. rewrite Hexit, bool_decide_eq_true_2 by exact Hlate.
    apply andb_false_r.
  - apply IH; [lia|]. rewrite Hclock, Hticks.
    replace (S (ticks s) + n)%nat with (ticks s + S n)%nat by lia.
    exact Hlate.
Qed.

(** X27: with a positive timeout, when the clock reading of poll [n + 1]
    is more than [timeout] after the reading taken at the start, the call
    has returned the channel after at most [n + 1] polls, with the edge
    flag back at NONE and the registries as they were. *)
Theorem wait_for_edge_times_out (fuel n : nat) (c t timeout : Z) (s : state) :
  _exports s !! c = Some IN → valid_trigger t → _events s !! c = None →
  timeout > 0 →
  clock s (S (ticks s) + n)%nat - clock s (ticks s) > timeout →
  (n < fuel)%nat →
  fst (wait_for_edge fuel c t timeout s) = Ok c ∧
  edge_flags (hw (snd (wait_for_edge fuel c t timeout s))) !! c = Some NONE ∧
  _exports (snd (wait_for_edge fuel c t timeout s)) = _exports s ∧
  _events (snd (wait_for_edge fuel c t timeout s)) = _events s.
Proof.
  intros Hc Ht Hv Hpos Hlate Hfuel.
  assert (polled c s (snd (wait_for_edge fuel c t timeout s)))
    as [(_ & _ & Hex & Hev & _) _]
    by (apply (preserves_wait_for_edge (polled c s));
        [apply polling_only_polled | apply polled_refl]).
  split_and!; [| | congruence | congruence].
  all: unfold valid_trigger in Ht; rewrite wait_for_edge_cases, Hc, Hv;
    rewrite bool_decide_eq_true_2 by reflexivity;
    rewrite bool_decide_eq_true_2 by exact Ht.
  all: destruct (wait_armed_outcome fuel c t timeout s)
         as [[s' [-> Hf]]|[s' [Harmed _]]]; [first [reflexivity | exact Hf]|].
  all: exfalso; revert Harmed; unfold wait_armed.
  all: set (s1 := snd (AIOWriteGPIOEdge c t s));
    rewrite (bind_Ok_step _ _ s tt s1) by reflexivity;
    set (s2 := snd (time_time s1));
    rewrite (bind_Ok_step _ _ s1 (clock s1 (ticks s1)) s2) by reflexivity;
    destruct (AIOReadGPIO c s2) as [o s3] eqn:Hread.
  all: assert (∃ original, o = Ok original ∧ ticks s3 = S (ticks s) ∧
                           clock s3 = clock s) as (original & -> & Hticks & Hclock)
    by (revert Hread; unfold AIOReadGPIO;
        destruct (driven (hw s2) !! c); intros [= <- <-]; eexists;
        split_and!; reflexivity).
  all: rewrite (bind_Ok_step _ _ _ _ _ Hread).
  all: destruct (wait_loop_timeout_bound c t timeout (clock s1 (ticks s1)) Hpos
                   n fuel
                   {| originalValue := original; value := original;
                      valueExit := false; timeoutExit := false |} s3 Hfuel)
         as (v' & s4 & Hloop); [rewrite Hclock, Hticks; exact Hlate|].
  all: rewrite (bind_Ok_step _ _ _ _ _ Hloop); discriminate.
Qed.

(** X28: a wait that has returned leaves no trace in the event registry:
    [add_event_detect] on the same channel succeeds right after it, for
    any accepted trigger. *)
Theorem add_event_detect_after_wait (fuel : nat) (c t t' timeout r : Z)
    (cb : option nat) (bt : option Z) (s s' : state) :
  wait_for_edge fuel c t timeout s = (Ok r, s') → valid_trigger t' →
  fst (add_event_detect c t' cb bt s') = Ok tt ∧
  _events (snd (add_event_detect c t' cb bt s')) !! c = Some t'.
Proof.
  intros Hwait Ht'.
  assert (polled c s s') as [(_ & _ & Hex & Hev & _) _].
  { pose proof (preserves_wait_for_edge (polled c s) fuel c t timeout
                  (polling_only_polled c s) s (polled_refl c s)) as Hp.
    rewrite Hwait in Hp. exact Hp. }
  assert (_exports s !! c = Some IN ∧ _events s !! c = None) as [Hc Hv].
  { revert Hwait. rewrite wait_for_edge_cases.
    destruct (_exports s !! c) as [cfg|]; [|discriminate].
    case_bool_decide; [subst cfg|discriminate].
    case_bool_decide; [|discriminate].
    destruct (_events s !! c); [discriminate|]. intros _. split; reflexivity. }
  destruct (add_event_detect_ok c t' cb bt s') as (Hok & Hev' & _);
    [congruence | exact Ht' | congruence |].
  split; [exact Hok|]. rewrite Hev'. apply lookup_insert_eq.
Qed.

End WaitExtras.

(** ** The button demo *)

(** The callbacks fired during the sleep print one line each and leave the
    pins, the callbacks and the session of the board alone. *)
Lemma sleep_with_callback_returns {Name} (edges : list Z) (s : state) :
  ∃ lines s',
    sleep_with_callback (Name := Name) edges s = (Ok lines, s') ∧
    length lines = length edges ∧
    gpios (hw s') = gpios (hw s) ∧ callbacks (hw s') = callbacks (hw s) ∧
    driven (hw s') = driven (hw s) ∧ _exports s' = _exports s ∧
    _events s' = _events s.
Proof.
  revert s. induction edges as [|iPin rest IH]; intros s.
  - exists [], s. split_and!; reflexivity.
  - simpl. unfold buttonCallback, bind at 1 2.
    destruct (AIOReadGPIO 0 s) as [o s1] eqn:Hread.
    assert (∃ level, o = Ok level ∧ gpios (hw s1) = gpios (hw s) ∧
                     callbacks (hw s1) = callbacks (hw s) ∧
                     driven (hw s1) = driven (hw s) ∧
                     _exports s1 = _exports s ∧ _events s1 = _events s)
      as (level & -> & Hg & Hc & Hd & Hx & Hv).
    { revert Hread. unfold AIOReadGPIO.
      destruct (driven (hw s) !! 0); intros [= <- <-]; eexists;
        split_and!; reflexivity. }
    unfold ret at 1. cbv beta iota.
    destruct (IH s1) as (lines & s' & Hrest & Hlen & Hg' & Hc' & Hd' & Hx' & Hv').
    rewrite (bind_Ok_step _ _ _ _ _ Hrest).
    eexists. eexists. split; [reflexivity|].
    split_and!; simpl; congruence.
Qed.

Section ButtonTheorems.
Context {aio : armbianio} {Name : Type}.

(** X29: [button.py].  When the board is not detected the script prints the
    error and makes no other call.  When it is detected the script always
    runs to its end, whatever edges arrive during the sleep: it prints one
    line per edge after its two headings, or the two lines of a board
    without button; it leaves pin 0 neither added nor with a callback,
    leaves all other pins and callbacks as they were, and closes the
    session. *)
Theorem button_script_releases (board_name : Name) (has_button : bool)
    (GPIO_IN : Z) (handle : nat) (edges : list Z) (s : state) :
  (init_rc (hw s) ≠ 1 →
   button_script board_name has_button GPIO_IN handle edges s
     = (Ok [InitError], snd (AIOInit s))) ∧
  (init_rc (hw s) = 1 →
   ∃ lines s',
     button_script board_name has_button GPIO_IN handle edges s
       = (Ok lines, s') ∧
     length lines = (if has_button then 2 + length edges else 2)%nat ∧
     session (hw s') = false ∧
     (has_button = true →
      gpios (hw s') !! 0 = None ∧ callbacks (hw s') !! 0 = None) ∧
     (has_button = false →
      gpios (hw s') = gpios (hw s) ∧ callbacks (hw s') = callbacks (hw s)) ∧
     (∀ c, c ≠ 0 → gpios (hw s') !! c = gpios (hw s) !! c ∧
                   callbacks (hw s') !! c = callbacks (hw s) !! c)).
Proof.
  unfold button_script. set (s0 := snd (AIOInit s)).
  rewrite (bind_Ok_step _ _ s (init_rc (hw s)) s0) by reflexivity.
  split.
  - intros Hrc. rewrite bool_decide_eq_false_2 by exact Hrc. reflexivity.
  - intros Hrc. rewrite bool_decide_eq_true_2 by exact Hrc.
    assert (gpios (hw s0) = gpios (hw s) ∧ callbacks (hw s0) = callbacks (hw s))
      as [Hg0 Hc0] by (split; reflexivity).
    destruct has_button; cbv iota.
    + set (s1 := snd (AIOAddGPIO 0 GPIO_IN s0)).
      set (s2 := snd (AIOAddGPIOCallback 0 EDGE_BOTH handle s1)).
      destruct (sleep_with_callback_returns (Name := Name) edges s2)
        as (lines & s3 & Hsleep & Hlen & Hg & Hc & _).
      assert ((AIOAddGPIO 0 GPIO_IN ;;;
               AIOAddGPIOCallback 0 EDGE_BOTH handle ;;;
               lines <~ sleep_with_callback edges ;;
               AIORemoveGPIOCallback 0 ;;;
               AIORemoveGPIO 0 ;;;
               ret (PressRelease :: lines)) s0
              = (Ok (PressRelease :: lines),
                 snd (AIORemoveGPIO 0 (snd (AIORemoveGPIOCallback 0 s3)))))
        as Hbody.
      { rewrite (bind_Ok_step _ _ s0 tt s1) by reflexivity.
        rewrite (bind_Ok_step _ _ s1 tt s2) by reflexivity.
        rewrite (bind_Ok_step _ _ _ _ _ Hsleep). reflexivity. }
      rewrite (bind_Ok_step _ _ _ _ _ Hbody).
      eexists. eexists. split; [reflexivity|].
      cbn [length]. split_and!.
      * rewrite Hlen. reflexivity.
      * reflexivity.
      * intros _. simpl. rewrite !lookup_delete_eq. split; reflexivity.
      * discriminate.
      * intros c Hne. simpl. rewrite !lookup_delete_ne by congruence.
        rewrite Hg, Hc. simpl. rewrite !lookup_insert_ne by congruence.
        split; reflexivity.
    + eexists. eexists. split; [reflexivity|].
      split_and!; try reflexivity; try discriminate.
      * intros _. split; reflexivity.
      * intros c _. split; reflexivity.
Qed.

End ButtonTheorems.

(** ** Polarity at the level of the loop *)

Section LoopPolarity.
Context {aio : armbianio}.

(** Under the values the native header gives RISING and FALLING, a level
    equals a one-sided trigger exactly when it is the target level. *)
Lemma trigger_is_target (trigger level : Z) :
  EDGE_RISING = HIGH → EDGE_FALLING = LOW →
  trigger = RISING ∨ trigger = FALLING →
  (level = trigger ↔ level = target_level trigger).
Proof.
  intros HR HF Htrig. unfold target_level, RISING, FALLING in *.
  destruct Htrig as [->| ->].
  - rewrite bool_decide_eq_true_2 by reflexivity. rewrite HR. reflexivity.
  - rewrite bool_decide_eq_false_2 by (rewrite HR, HF; discriminate).
    rewrite HF. reflexivity.
Qed.

Lemma one_sided_not_BOTH (trigger : Z) :
  EDGE_BOTH ≠ EDGE_RISING → EDGE_BOTH ≠ EDGE_FALLING →
  trigger = RISING ∨ trigger = FALLING → trigger ≠ BOTH.
Proof.
  unfold RISING, FALLING, BOTH. intros HBR HBF [->| ->]; congruence.
Qed.

(** One more pass of a loop that is waiting. *)
Lemma wait_loop_step fuel channel trigger timeout startTime v s v' s' :
  keeps_waiting v = true →
  wait_body channel trigger timeout startTime v s = (Ok v', s') →
  wait_loop (S fuel) channel trigger timeout startTime v s
    = wait_loop fuel channel trigger timeout startTime v' s'.
Proof.
  intros K Hbody. simpl. rewrite K. apply bind_Ok_step, Hbody.
Qed.

Lemma wait_loop_waiting channel trigger timeout startTime v s :
  keeps_waiting v = true →
  wait_loop 0 channel trigger timeout startTime v s = (OutOfFuel, s).
Proof. intros K. simpl. rewrite K. reflexivity. Qed.

(** C4: in the loop of [wait_for_edge] with trigger RISING or FALLING, take
    a pass that samples a level different from the baseline while the loop
    is waiting.  The pass makes the new level the baseline and sets
    [valueExit] exactly when the new level is the target of the trigger
    (high for RISING, low for FALLING).  When it is, the loop ends with
    this pass.  When it is not, the change does not end the loop (only the
    timeout can, on the same pass): the loop goes on from the new baseline,
    and the next pass ends it exactly when its sample is the target level.
    In a wait without timeout the loop ends with the pass if and only if
    the new level is the target. *)
Theorem wait_loop_polarity (channel trigger timeout startTime : Z)
    (v : loop_vars) (s s1 : state) (new : Z) :
  EDGE_RISING = HIGH → EDGE_FALLING = LOW →
  EDGE_BOTH ≠ EDGE_RISING → EDGE_BOTH ≠ EDGE_FALLING →
  trigger = RISING ∨ trigger = FALLING →
  keeps_waiting v = true →
  AIOReadGPIO channel s = (Ok new, s1) →
  new ≠ originalValue v →
  ∃ v' s',
    wait_body channel trigger timeout startTime v s = (Ok v', s') ∧
    (∀ fuel, wait_loop (S fuel) channel trigger timeout startTime v s
             = wait_loop fuel channel trigger timeout startTime v' s') ∧
    originalValue v' = new ∧
    (valueExit v' = true ↔ new = target_level trigger) ∧
    (new = target_level trigger →
     ∀ fuel, wait_loop (S fuel) channel trigger timeout startTime v s
             = (Ok v', s')) ∧
    (new ≠ target_level trigger → timeoutExit v' = false →
     keeps_waiting v' = true ∧
     wait_loop 1 channel trigger timeout startTime v s = (OutOfFuel, s') ∧
     ∀ new2 s2, AIOReadGPIO channel s' = (Ok new2, s2) →
       ∃ v'' s'',
         wait_body channel trigger timeout startTime v' s' = (Ok v'', s'') ∧
         (∀ fuel, wait_loop (S (S fuel)) channel trigger timeout startTime v s
                  = wait_loop fuel channel trigger timeout startTime v'' s'') ∧
         (valueExit v'' = true ↔ new2 = target_level trigger) ∧
         (new2 = target_level trigger →
          ∀ fuel, wait_loop (S (S fuel)) channel trigger timeout startTime v s
                  = (Ok v'', s''))) ∧
    (timeout ≤ 0 →
     timeoutExit v' = false ∧
     ((∀ fuel, wait_loop (S fuel) channel trigger timeout startTime v s
               = (Ok v', s')) ↔ new = target_level trigger)).
Proof.
  intros HR HF HBR HBF Htrig K Hread Hnew.
  pose proof (one_sided_not_BOTH trigger HBR HBF Htrig) as HnB.
  destruct (wait_body_returns channel trigger timeout startTime v s)
    as (new' & s1' & v' & s' & Hread' & Hbody & _ & Hone & _ & _ & Hno & _).
  rewrite Hread in Hread'. injection Hread' as <- <-.
  destruct (Hone Hnew HnB) as [Hbase Hexit].
  pose proof (trigger_is_target trigger new HR HF Htrig) as Htarget.
  assert (valueExit v' = true ↔ new = target_level trigger) as Hiff
    by (rewrite Hexit, bool_decide_eq_true; exact Htarget).
  assert (∀ fuel, wait_loop (S fuel) channel trigger timeout startTime v s
                  = wait_loop fuel channel trigger timeout startTime v' s')
    as Hstep by (intros fuel; apply wait_loop_step; assumption).
  assert (valueExit v = false ∧ timeoutExit v = false) as [Hv0 Ht0].
  { unfold keeps_waiting in K. apply andb_true_iff in K as [K1 K2].
    apply negb_true_iff in K1, K2. split; assumption. }
  exists v', s'. split_and!; [exact Hbody | exact Hstep | exact Hbase
                              | exact Hiff | | |].
  - intros Hland fuel. rewrite Hstep. apply wait_loop_done.
    unfold keeps_waiting. apply Hiff in Hland. rewrite Hland. reflexivity.
  - intros Hwrong Htime.
    assert (valueExit v' = false) as Hno_exit.
    { destruct (valueExit v') eqn:E; [|reflexivity].
      exfalso. apply Hwrong, Hiff. reflexivity. }
    assert (keeps_waiting v' = true) as K'
      by (unfold keeps_waiting; rewrite Hno_exit, Htime; reflexivity).
    split_and!; [exact K' | rewrite Hstep; apply wait_loop_waiting, K' |].
    intros new2 s2 Hread2.
    destruct (wait_body_returns channel trigger timeout startTime v' s')
      as (new2' & s2' & v'' & s'' & Hread2' & Hbody2 & _ & Hone2 & _ & Hsame2
          & _).
    rewrite Hread2 in Hread2'. injection Hread2' as <- <-.
    assert (valueExit v'' = true ↔ new2 = target_level trigger) as Hiff2.
    { destruct (decide (new2 = originalValue v')) as [Heq|Hne].
      - destruct (Hsame2 Heq) as [_ Hkeep]. rewrite Hkeep, Hno_exit.
        split; [discriminate|]. intros Hland. exfalso. apply Hwrong.
        rewrite <- Hbase, <- Heq. exact Hland.
      - destruct (Hone2 Hne HnB) as [_ Hexit2].
        rewrite Hexit2, bool_decide_eq_true.
        apply (trigger_is_target trigger new2 HR HF Htrig). }
    assert (∀ fuel,
              wait_loop (S (S fuel)) channel trigger timeout startTime v s
              = wait_loop fuel channel trigger timeout startTime v'' s'')
      as Hstep2.
    { intros fuel. rewrite Hstep. apply wait_loop_step; assumption. }
    exists v'', s''. split_and!; [exact Hbody2 | exact Hstep2 | exact Hiff2 |].
    intros Hland fuel. rewrite Hstep2. apply wait_loop_done.
    unfold keeps_waiting. apply Hiff2 in Hland. rewrite Hland. reflexivity.
  - intros Hforever. destruct (Hno Hforever) as [Htime _].
    rewrite Ht0 in Htime. split; [exact Htime|]. split.
    + intros Hends. specialize (Hends 0%nat). rewrite Hstep in Hends.
      apply Hiff. destruct (valueExit v') eqn:E; [reflexivity|].
      rewrite wait_loop_waiting in Hends; [discriminate|].
      unfold keeps_waiting. rewrite E, Htime. reflexivity.
    + intros Hland fuel. rewrite Hstep. apply wait_loop_done.
      unfold keeps_waiting. apply Hiff in Hland. rewrite Hland. reflexivity.
Qed.

(** Without timeout and on a pin that is not driven, the loop ends with the
    first pass whose sample is the target level while the sample before it
    was not, and not before. *)
Lemma wait_loop_first_landing (c t timeout startTime : Z) :
  EDGE_RISING = HIGH → EDGE_FALLING = LOW →
  EDGE_BOTH ≠ EDGE_RISING → EDGE_BOTH ≠ EDGE_FALLING →
  t = RISING ∨ t = FALLING → timeout ≤ 0 →
  ∀ (n fuel : nat) (v : loop_vars) (s : state) (k : nat),
    keeps_waiting v = true → driven (hw s) !! c = None →
    samples (hw s) = S k → originalValue v = signal (hw s) c k →
    (∀ i, (i < n)%nat →
       ¬ (signal (hw s) c (S k + i) = target_level t ∧
          signal (hw s) c (k + i) ≠ target_level t)) →
    signal (hw s) c (S k + n) = target_level t →
    signal (hw s) c (k + n) ≠ target_level t →
    ((n < fuel)%nat →
     ∃ v' s', wait_loop fuel c t timeout startTime v s = (Ok v', s') ∧
              valueExit v' = true ∧ samples (hw s') = (S k + n + 1)%nat) ∧
    ((fuel ≤ n)%nat →
     fst (wait_loop fuel c t timeout startTime v s) = OutOfFuel).
Proof.
  intros HR HF HBR HBF Htrig Hforever.
  pose proof (one_sided_not_BOTH t HBR HBF Htrig) as HnB.
  induction n as [|n IH]; intros fuel v s k K Hd Hsam Hbase Hfirst Hland Hprev.
  - (* the pass lands *)
    destruct (wait_body_returns c t timeout startTime v s)
      as (new & s1 & v' & s' & Hread & Hbody & _ & Hone & _ & _ & Hno & _).
    destruct (Hno Hforever) as [_ ->].
    assert (new = signal (hw s) c (S k) ∧ samples (hw s1) = S (S k))
      as [-> Hsam1].
    { revert Hread. unfold AIOReadGPIO. rewrite Hd, Hsam.
      intros [= <- <-]. split; reflexivity. }
    replace (S k + 0)%nat with (S k) in Hland by lia.
    replace (k + 0)%nat with k in Hprev by lia.
    destruct (Hone ltac:(congruence) HnB) as [_ Hexit].
    assert (valueExit v' = true) as Hv'.
    { rewrite Hexit. apply bool_decide_eq_true_2.
      apply (trigger_is_target t _ HR HF Htrig). exact Hland. }
    split.
    + intros Hfuel. destruct fuel as [|fuel]; [lia|].
      exists v', s1. split_and!; [| exact Hv' | lia].
      rewrite (wait_loop_step _ _ _ _ _ _ _ _ _ K Hbody).
      apply wait_loop_done. unfold keeps_waiting. rewrite Hv'. reflexivity.
    + intros Hfuel. assert (fuel = 0%nat) as -> by lia.
      rewrite wait_loop_waiting by exact K. reflexivity.
  - (* the pass does not land *)
    destruct (wait_body_returns c t timeout startTime v s)
      as (new & s1 & v' & s' & Hread & Hbody & _ & Hone & _ & Hsame & Hno & _).
    destruct (Hno Hforever) as [Htime ->].
    assert (new = signal (hw s) c (S k) ∧ samples (hw s1) = S (S k) ∧
            driven (hw s1) = driven (hw s) ∧ signal (hw s1) = signal (hw s))
      as (-> & Hsam1 & Hd1 & Hsig1).
    { revert Hread. unfold AIOReadGPIO. rewrite Hd, Hsam.
      intros [= <- <-]. split_and!; reflexivity. }
    assert (valueExit v = false ∧ timeoutExit v = false) as [Hv0 Ht0].
    { unfold keeps_waiting in K. apply andb_true_iff in K as [K1 K2].
      apply negb_true_iff in K1, K2. split; assumption. }
    assert (originalValue v' = signal (hw s) c (S k) ∧ valueExit v' = false)
      as [Hbase' Hexit'].
    { destruct (decide (signal (hw s) c (S k) = originalValue v)) as [Heq|Hne].
      - destruct (Hsame Heq) as [Hb He]. split; congruence.
      - destruct (Hone Hne HnB) as [Hb He]. split; [exact Hb|].
        rewrite He. apply bool_decide_eq_false_2. intros Heq.
        apply (Hfirst 0%nat); [lia|].
        replace (S k + 0)%nat with (S k) by lia.
        replace (k + 0)%nat with k by lia.
        apply (trigger_is_target t _ HR HF Htrig) in Heq.
        split; [exact Heq | congruence]. }
    assert (keeps_waiting v' = true) as K'
      by (unfold keeps_waiting; rewrite Hexit', Htime, Ht0; reflexivity).
    destruct (IH (pred fuel) v' s1 (S k)) as [Hlands Hwaits];
      try assumption.
    { rewrite Hd1. exact Hd. }
    { rewrite Hsig1. exact Hbase'. }
    { intros i Hi. rewrite Hsig1.
      replace (S (S k) + i)%nat with (S k + S i)%nat by lia.
      replace (S k + i)%nat with (k + S i)%nat by lia.
      apply Hfirst. lia. }
    { rewrite Hsig1.
      replace (S (S k) + n)%nat with (S k + S n)%nat by lia. exact Hland. }
    { rewrite Hsig1.
      replace (S k + n)%nat with (k + S n)%nat by lia. exact Hprev. }
    split.
    + intros Hfuel. destruct fuel as [|fuel]; [lia|]. simpl in Hlands.
      destruct Hlands as (v'' & s'' & Hloop & Hv'' & Hsam''); [lia|].
      exists v'', s''. split_and!; [| exact Hv'' | lia].
      rewrite (wait_loop_step _ _ _ _ _ _ _ _ _ K Hbody). exact Hloop.
    + intros Hfuel. destruct fuel as [|fuel].
      * rewrite wait_loop_waiting by exact K. reflexivity.
      * rewrite (wait_loop_step _ _ _ _ _ _ _ _ _ K Hbody).
        apply Hwaits. simpl. lia.
Qed.

(** X30: a wait without timeout on an input pin ends exactly at the first
    transition that lands on the requested polarity.  With the samples
    numbered from the one taken before the loop, if sample [n + 1] is the
    first that is at the target level (high for RISING, low for FALLING)
    while its predecessor is not, then [wait_for_edge] has returned the
    channel after [n + 1] polls, having taken [n + 2] samples, and has not
    returned after [n] polls or fewer. *)
Theorem wait_for_edge_first_landing (fuel n : nat) (c t timeout : Z)
    (s : state) :
  EDGE_RISING = HIGH → EDGE_FALLING = LOW →
  EDGE_BOTH ≠ EDGE_RISING → EDGE_BOTH ≠ EDGE_FALLING →
  t = RISING ∨ t = FALLING →
  _exports s !! c = Some IN → _events s !! c = None →
  timeout ≤ 0 → driven (hw s) !! c = None →
  (∀ i, (i < n)%nat →
     ¬ (signal (hw s) c (samples (hw s) + S i) = target_level t ∧
        signal (hw s) c (samples (hw s) + i) ≠ target_level t)) →
  signal (hw s) c (samples (hw s) + S n) = target_level t →
  signal (hw s) c (samples (hw s) + n) ≠ target_level t →
  ((n < fuel)%nat →
   fst (wait_for_edge fuel c t timeout s) = Ok c ∧
   samples (hw (snd (wait_for_edge fuel c t timeout s)))
     = (samples (hw s) + n + 2)%nat) ∧
  ((fuel ≤ n)%nat → fst (wait_for_edge fuel c t timeout s) = OutOfFuel).
Proof.
  intros HR HF HBR HBF Htrig Hc Hv Hforever Hd Hfirst Hland Hprev.
  assert (t ∈ [RISING; FALLING; BOTH]) as Ht
    by (destruct Htrig as [->| ->]; [apply valid_RISING | apply valid_FALLING]).
  rewrite wait_for_edge_cases, Hc, Hv.
  rewrite bool_decide_eq_true_2 by reflexivity.
  rewrite bool_decide_eq_true_2 by exact Ht.
  unfold wait_armed.
  set (s1 := snd (AIOWriteGPIOEdge c t s)).
  rewrite (bind_Ok_step _ _ s tt s1) by reflexivity.
  set (s2 := snd (time_time s1)).
  rewrite (bind_Ok_step _ _ s1 (clock s1 (ticks s1)) s2) by reflexivity.
  set (k := samples (hw s)) in *.
  set (s3 := snd (AIOReadGPIO c s2)).
  assert (AIOReadGPIO c s2 = (Ok (signal (hw s) c k), s3) ∧
          samples (hw s3) = S k ∧ driven (hw s3) = driven (hw s) ∧
          signal (hw s3) = signal (hw s)) as (Hread & Hsam3 & Hd3 & Hsig3).
  { unfold s3, AIOReadGPIO. simpl. rewrite Hd. split_and!; reflexivity. }
  rewrite (bind_Ok_step _ _ _ _ _ Hread).
  destruct (wait_loop_first_landing c t timeout (clock s1 (ticks s1))
              HR HF HBR HBF Htrig Hforever n fuel
              {| originalValue := signal (hw s) c k;
                 value := signal (hw s) c k;
                 valueExit := false; timeoutExit := false |} s3 k)
    as [Hlands Hwaits]; try reflexivity; try assumption.
  { rewrite Hd3. exact Hd. }
  { rewrite Hsig3. reflexivity. }
  { intros i Hi. rewrite Hsig3.
    replace (S k + i)%nat with (k + S i)%nat by lia. apply Hfirst, Hi. }
  { rewrite Hsig3.
    replace (S k + n)%nat with (k + S n)%nat by lia. exact Hland. }
  { rewrite Hsig3. exact Hprev. }
  split.
  - intros Hfuel. destruct (Hlands Hfuel) as (v' & s4 & Hloop & _ & Hsam4).
    rewrite (bind_Ok_step _ _ _ _ _ Hloop). simpl. split; [reflexivity | lia].
  - intros Hfuel. specialize (Hwaits Hfuel). unfold bind.
    destruct (wait_loop fuel c t timeout (clock s1 (ticks s1))
                {| originalValue := signal (hw s) c k;
                   value := signal (hw s) c k;
                   valueExit := false; timeoutExit := false |} s3) as [o s4].
    simpl in Hwaits. rewrite Hwaits. reflexivity.
Qed.

End LoopPolarity.

(** * The theorems at concrete states *)

(** From here on the edge constants are those of [armbianio.h]. *)
#[local] Existing Instance armbianio_h.

(** C1 at the active session of the example board. *)
Lemma setup_list_raises_after_configuring_witness :
  _mode active = Some BCM ∧
  _exports active !! 5 = None ∧ _exports active !! 6 = None ∧
  _exports active !! 7 = None ∧
  fst (setup (ChanList [Chan 5; Chan 6; Chan 7]) OUT None None active)
    = Raise TypeError ∧
  fst (output (ChanList [Chan 5; Chan 6; Chan 7]) HIGH
         (snd (setup (ChanList [Chan 5; Chan 6; Chan 7]) OUT None None active)))
    = Ok tt.
Proof.
  assert (_mode active = Some BCM) as Hm by reflexivity.
  assert (_exports active !! 5 = None) as E5 by reflexivity.
  assert (_exports active !! 6 = None) as E6 by reflexivity.
  assert (_exports active !! 7 = None) as E7 by reflexivity.
  destruct (setup_list_raises_after_configuring active BCM Hm E5 E6 E7)
    as (Hr & _ & Ho & _).
  split_and!; assumption.
Defined.

(** C2 (amended) on the list [5, 9, 6] with channels 5, 6 and 7
    configured. *)
Lemma cleanup_list_stops_at_unconfigured_witness :
  fst (cleanup (Some (ChanList [Chan 5])) three_outputs) = Ok tt ∧
  _exports (snd (cleanup (Some (ChanList [Chan 5])) three_outputs)) !! 9 = None ∧
  cleanup (Some (ChanList ([Chan 5] ++ Chan 9 :: [Chan 6]))) three_outputs =
    (Raise (RuntimeError (ChannelNotConfigured 9)),
     snd (cleanup (Some (ChanList [Chan 5])) three_outputs)).
Proof.
  assert (fst (cleanup (Some (ChanList [Chan 5])) three_outputs) = Ok tt)
    as Hdone by (vm_compute; reflexivity).
  assert (_exports (snd (cleanup (Some (ChanList [Chan 5])) three_outputs)) !! 9
          = None) as H9 by (vm_compute; reflexivity).
  split_and!; [exact Hdone | exact H9 |].
  exact (cleanup_list_stops_at_unconfigured [Chan 5] [Chan 6] 9 three_outputs
           Hdone H9).
Defined.

(** The pass on the quiet board: the baseline is high, the sample is low
    and the trigger is RISING, so the pass does not set [valueExit]. *)
Lemma wait_body_polarity_witness :
  EDGE_RISING = HIGH ∧ EDGE_FALLING = LOW ∧
  EDGE_BOTH ≠ EDGE_RISING ∧ EDGE_BOTH ≠ EDGE_FALLING ∧
  AIOReadGPIO 4 quiet_input = (Ok LOW, snd (AIOReadGPIO 4 quiet_input)) ∧
  ∃ v' s',
    wait_body 4 RISING (-1) 0
      {| originalValue := HIGH; value := HIGH;
         valueExit := false; timeoutExit := false |} quiet_input = (Ok v', s') ∧
    originalValue v' = LOW ∧
    (valueExit v' = true ↔ LOW = target_level RISING) ∧
    (-1 ≤ 0 → false = false →
     (keeps_waiting v' = false ↔ LOW = target_level RISING)).
Proof.
  assert (EDGE_BOTH ≠ EDGE_RISING) as HBR by (simpl; lia).
  assert (EDGE_BOTH ≠ EDGE_FALLING) as HBF by (simpl; lia).
  assert (AIOReadGPIO 4 quiet_input = (Ok LOW, snd (AIOReadGPIO 4 quiet_input)))
    as Hread by reflexivity.
  assert (LOW ≠ HIGH) as Hnew by (unfold LOW, HIGH; lia).
  split_and!; [reflexivity | reflexivity | exact HBR | exact HBF | exact Hread |].
  exact (wait_body_polarity 4 RISING (-1) 0
           {| originalValue := HIGH; value := HIGH;
              valueExit := false; timeoutExit := false |}
           quiet_input _ LOW eq_refl eq_refl HBR HBF (or_introl eq_refl)
           Hread Hnew).
Defined.

(** C5 on the quiet board: the level never changes and the wait ends by
    its timeout of three clock units. *)
Lemma wait_for_edge_disarms_witness :
  wait_for_edge 10 4 RISING 3 quiet_input
    = (Ok 4, snd (wait_for_edge 10 4 RISING 3 quiet_input)) ∧
  4 = 4 ∧
  edge_flags (hw (snd (wait_for_edge 10 4 RISING 3 quiet_input))) !! 4
    = Some NONE.
Proof.
  assert (wait_for_edge 10 4 RISING 3 quiet_input
          = (Ok 4, snd (wait_for_edge 10 4 RISING 3 quiet_input))) as H
    by (vm_compute; reflexivity).
  split; [exact H|].
  exact (wait_for_edge_disarms 10 4 RISING 3 quiet_input _ 4 H).
Defined.

(** C6 at the state where channel 4 is watched for rising edges. *)
Lemma event_entry_conflicts_witness :
  reachable watching ∧ _events watching !! 4 = Some RISING ∧
  valid_trigger FALLING ∧
  wait_for_edge 0 4 FALLING (-1) watching
    = (Raise (RuntimeError EventConflict), watching) ∧
  fst (add_event_detect 4 FALLING None None watching)
    = Raise (RuntimeError EventConflict).
Proof.
  assert (reachable watching) as Hr by (unfold watching; repeat constructor).
  assert (_events watching !! 4 = Some RISING) as Hev by reflexivity.
  split_and!; [exact Hr | exact Hev | exact valid_FALLING | |];
    apply (event_entry_conflicts watching 4 RISING FALLING 0 (-1) None None
             Hr Hev valid_FALLING).
Defined.

(** C8 on channel 4 of the quiet board, configured as input. *)
Lemma event_detect_round_trip_witness :
  _exports quiet_input !! 4 = Some IN ∧ _events quiet_input !! 4 = None ∧
  fst (add_event_detect 4 RISING (Some 0%nat) None
         (snd (remove_event_detect 4
                 (snd (add_event_detect 4 BOTH None None quiet_input)))))
    = Ok tt.
Proof.
  assert (_exports quiet_input !! 4 = Some IN) as E by reflexivity.
  assert (_events quiet_input !! 4 = None) as V by reflexivity.
  split_and!; [exact E | exact V |].
  apply (event_detect_round_trip quiet_input 4 None (Some 0%nat) None None E V).
Defined.

(** ** Runs of the wait on the example boards *)

(** On the pulse board the level goes high at the fourth sample: a wait for
    a rising edge without timeout returns the channel after that sample and
    leaves the edge flag at NONE. *)
Example wait_rising_on_pulse :
  fst (wait_for_edge 10 4 RISING (-1) pulse_input) = Ok 4 ∧
  samples (hw (snd (wait_for_edge 10 4 RISING (-1) pulse_input))) = 4%nat ∧
  edge_flags (hw (snd (wait_for_edge 10 4 RISING (-1) pulse_input))) !! 4
    = Some NONE.
Proof. vm_compute. split_and!; reflexivity. Qed.

(** On the same board a wait for a falling edge sees the change to high,
    moves its baseline and keeps waiting. *)
Example wait_falling_on_pulse :
  fst (wait_for_edge 10 4 FALLING (-1) pulse_input) = OutOfFuel.
Proof. vm_compute. reflexivity. Qed.

(** With a timeout of three units on the quiet board the clock passes the
    deadline: the general lemma gives a budget that suffices. *)
Example wait_times_out_on_quiet :
  ∃ fuel s', wait_for_edge fuel 4 RISING 3 quiet_input = (Ok 4, s').
Proof.
  apply (wait_for_edge_returns_on_timeout 4 RISING 3 quiet_input 3).
  - reflexivity.
  - apply valid_RISING.
  - reflexivity.
  - lia.
  - vm_compute. reflexivity.
Qed.

(** ** The further properties at concrete states *)

Lemma setmode_board_not_detected_witness :
  _mode undetected = None ∧ init_rc (hw undetected) ≠ 1 ∧
  fst (setmode BCM undetected) = Raise (RuntimeError BoardNotDetected) ∧
  _mode (snd (setmode BCM undetected)) = None ∧
  session (hw (snd (setmode BCM undetected))) = false.
Proof.
  assert (init_rc (hw undetected) ≠ 1) as Hrc by (simpl; lia).
  split_and!; [reflexivity | exact Hrc | ..];
    apply (setmode_board_not_detected BCM undetected eq_refl Hrc).
Defined.

Lemma setmode_active_overwrites_witness :
  _mode active = Some BCM ∧
  hw (snd (setmode BOARD active)) = hw active ∧
  (BOARD ∈ [BCM; BOARD] →
   setmode BOARD active = (Ok tt, with_mode (Some BOARD) active)) ∧
  (BOARD ∉ [BCM; BOARD] → setmode BOARD active = (Raise AssertionError, active)).
Proof.
  split; [reflexivity|].
  exact (setmode_active_overwrites BOARD BCM active eq_refl).
Defined.

Lemma setmode_invalid_first_call_witness :
  _mode imported = None ∧ init_rc (hw imported) = 1 ∧ (12 ∉ [BCM; BOARD]) ∧
  fst (setmode 12 imported) = Raise AssertionError ∧
  _mode (snd (setmode 12 imported)) = None ∧
  session (hw (snd (setmode 12 imported))) = true.
Proof.
  assert (12 ∉ [BCM; BOARD]) as Hbad.
  { unfold BCM, BOARD. intros H. apply elem_of_cons in H as [H|H]; [lia|].
    apply elem_of_cons in H as [H|H]; [lia|]. apply elem_of_nil in H. exact H. }
  split_and!; [reflexivity | reflexivity | exact Hbad | ..];
    apply (setmode_invalid_first_call 12 imported eq_refl eq_refl Hbad).
Defined.

Lemma setup_chan_board_witness :
  _mode active = Some BCM ∧ _exports active !! 5 = None ∧
  gpios (hw (snd (setup (Chan 5) OUT (Some HIGH) None active))) !! 5
    = Some HIGH.
Proof.
  split_and!; [reflexivity | reflexivity |].
  apply (setup_chan_board 5 OUT BCM (Some HIGH) None active eq_refl eq_refl);
    reflexivity.
Defined.

Lemma three_outputs_configured (c : Z) :
  c ∈ [5; 6; 7] → _exports three_outputs !! c = Some OUT.
Proof.
  intros H. apply elem_of_cons in H as [->|H]; [reflexivity|].
  apply elem_of_cons in H as [->|H]; [reflexivity|].
  apply elem_of_cons in H as [->|H]; [reflexivity|].
  apply elem_of_nil in H. contradiction.
Defined.

Lemma output_list_drives_all_witness :
  (∀ c, c ∈ [5; 6; 7] → _exports three_outputs !! c = Some OUT) ∧
  fst (output (ChanList (Chan <$> [5; 6; 7])) HIGH three_outputs) = Ok tt.
Proof.
  split; [exact three_outputs_configured|].
  apply (output_list_drives_all [5; 6; 7] HIGH three_outputs
           three_outputs_configured).
Defined.

Lemma output_list_stops_witness :
  (∀ x, x ∈ [5] → _exports three_outputs !! x = Some OUT) ∧
  _exports three_outputs !! 9 ≠ Some OUT ∧
  ∃ e, fst (output (Chan 9) HIGH three_outputs) = Raise e ∧
       output (ChanList (Chan <$> ([5] ++ 9 :: [6]))) HIGH three_outputs =
         (Raise e, snd (output (ChanList (Chan <$> [5])) HIGH three_outputs)).
Proof.
  assert (∀ x, x ∈ [5] → _exports three_outputs !! x = Some OUT) as Hdone.
  { intros x H. apply elem_of_cons in H as [->|H]; [reflexivity|].
    apply elem_of_nil in H. contradiction. }
  assert (_exports three_outputs !! 9 ≠ Some OUT) as H9
    by (vm_compute; discriminate).
  split_and!; [exact Hdone | exact H9 |].
  exact (output_list_stops [5] [6] 9 HIGH three_outputs Hdone H9).
Defined.

Lemma cleanup_chan_releases_witness :
  is_Some (_exports three_outputs !! 5) ∧
  fst (cleanup (Some (Chan 5)) three_outputs) = Ok tt ∧
  _exports (snd (cleanup (Some (Chan 5)) three_outputs))
    = delete 5 (_exports three_outputs).
Proof.
  assert (is_Some (_exports three_outputs !! 5)) as H5
    by (exists OUT; reflexivity).
  split_and!; [exact H5 | ..]; apply (cleanup_chan_releases 5 three_outputs H5).
Defined.

Lemma cleanup_list_removes_exactly_witness :
  NoDup [5; 6] ∧ (∀ c, c ∈ [5; 6] → is_Some (_exports three_outputs !! c)) ∧
  fst (cleanup (Some (ChanList (Chan <$> [5; 6]))) three_outputs) = Ok tt ∧
  _exports (snd (cleanup (Some (ChanList (Chan <$> [5; 6]))) three_outputs)) !! 7
    = _exports three_outputs !! 7.
Proof.
  assert (NoDup [5; 6]) as Hnd.
  { apply NoDup_cons. split.
    - intros H. apply elem_of_cons in H as [H|H]; [lia|].
      apply elem_of_nil in H. exact H.
    - apply NoDup_singleton. }
  assert (∀ c, c ∈ [5; 6] → is_Some (_exports three_outputs !! c)) as Hall.
  { intros c H. exists OUT. apply three_outputs_configured.
    apply elem_of_cons in H as [->|H]; [left|].
    apply elem_of_cons in H as [->|H]; [right; left|].
    apply elem_of_nil in H. contradiction. }
  assert (7 ∉ [5; 6]) as H7.
  { intros H. apply elem_of_cons in H as [H|H]; [lia|].
    apply elem_of_cons in H as [H|H]; [lia|]. apply elem_of_nil in H. exact H. }
  destruct (cleanup_list_removes_exactly [5; 6] three_outputs Hnd Hall)
    as (Hok & _ & Hout).
  split_and!; [exact Hnd | exact Hall | exact Hok | apply (Hout 7 H7)].
Defined.

Lemma setup_cleanup_round_trip_witness :
  _mode active = Some BCM ∧ _exports active !! 5 = None ∧
  _events active !! 5 = None ∧ gpios (hw active) !! 5 = None ∧
  driven (hw active) !! 5 = None ∧
  fst (setup (Chan 5) IN None None active) = Ok tt ∧
  cleanup (Some (Chan 5)) (snd (setup (Chan 5) IN None None active))
    = (Ok tt, active).
Proof.
  split_and!; [reflexivity | reflexivity | reflexivity | reflexivity
               | reflexivity | ..];
    apply (setup_cleanup_round_trip 5 IN BCM None active eq_refl eq_refl
             eq_refl eq_refl eq_refl).
Defined.

Lemma event_detect_remove_round_trip_witness :
  _exports quiet_input !! 4 = Some IN ∧ valid_trigger BOTH ∧
  _events quiet_input !! 4 = None ∧ callbacks (hw quiet_input) !! 4 = None ∧
  fst (add_event_detect 4 BOTH (Some 7%nat) None quiet_input) = Ok tt ∧
  remove_event_detect 4
    (snd (add_event_detect 4 BOTH (Some 7%nat) None quiet_input))
    = (Ok tt, quiet_input).
Proof.
  split_and!; [reflexivity | exact valid_BOTH | reflexivity | reflexivity | ..];
    apply (event_detect_remove_round_trip 4 BOTH 7%nat quiet_input eq_refl
             valid_BOTH eq_refl eq_refl).
Defined.

Lemma started_pins_match_registry_witness :
  started watching ∧
  (is_Some (gpios (hw watching) !! 4) ↔ is_Some (_exports watching !! 4)).
Proof.
  assert (started watching) as Hs by (unfold watching, imported, quiet_board;
                                      repeat constructor).
  split; [exact Hs|]. exact (started_pins_match_registry watching Hs 4).
Defined.

Lemma started_callbacks_have_events_witness :
  started watching_with_callback ∧
  callbacks (hw watching_with_callback) !! 4 = Some (RISING, 7%nat) ∧
  _events watching_with_callback !! 4 = Some RISING.
Proof.
  assert (started watching_with_callback) as Hs
    by (unfold watching_with_callback, watching, imported, quiet_board;
        repeat constructor).
  assert (callbacks (hw watching_with_callback) !! 4 = Some (RISING, 7%nat))
    as Hcb by reflexivity.
  split_and!; [exact Hs | exact Hcb |].
  exact (started_callbacks_have_events watching_with_callback 4 RISING 7%nat
           Hs Hcb).
Defined.

Lemma started_session_witness :
  started watching ∧
  (∀ m, _mode watching = Some m →
        session (hw watching) = true ∧ m ∈ [BCM; BOARD]) ∧
  (_mode watching = None → _exports watching = ∅).
Proof.
  assert (started watching) as Hs by (unfold watching, imported, quiet_board;
                                      repeat constructor).
  split; [exact Hs|]. exact (started_session watching Hs).
Defined.

Lemma wait_for_edge_armed_witness :
  _exports quiet_input !! 4 = Some IN ∧ valid_trigger RISING ∧
  _events quiet_input !! 4 = None ∧
  ((fst (wait_for_edge 2 4 RISING (-1) quiet_input) = Ok 4 ∧
    edge_flags (hw (snd (wait_for_edge 2 4 RISING (-1) quiet_input))) !! 4
      = Some NONE) ∨
   (fst (wait_for_edge 2 4 RISING (-1) quiet_input) = OutOfFuel ∧
    edge_flags (hw (snd (wait_for_edge 2 4 RISING (-1) quiet_input))) !! 4
      = Some RISING)).
Proof.
  split_and!; [reflexivity | exact valid_RISING | reflexivity |].
  exact (wait_for_edge_armed 2 4 RISING (-1) quiet_input eq_refl valid_RISING
           eq_refl).
Defined.

Lemma wait_for_edge_waits_forever_witness :
  _exports quiet_input !! 4 = Some IN ∧ valid_trigger FALLING ∧
  _events quiet_input !! 4 = None ∧ 0 ≤ 0 ∧
  driven (hw quiet_input) !! 4 = None ∧
  (∀ n, (samples (hw quiet_input) ≤ n)%nat →
        signal (hw quiet_input) 4 n = LOW) ∧
  fst (wait_for_edge 25 4 FALLING 0 quiet_input) = OutOfFuel.
Proof.
  assert (∀ n, (samples (hw quiet_input) ≤ n)%nat →
               signal (hw quiet_input) 4 n = LOW) as Hsig
    by (intros n _; reflexivity).
  assert (0 ≤ 0) as H0 by lia.
  split_and!; [reflexivity | exact valid_FALLING | reflexivity | exact H0
               | reflexivity | exact Hsig |].
  exact (wait_for_edge_waits_forever 25 4 FALLING 0 LOW quiet_input eq_refl
           valid_FALLING eq_refl H0 eq_refl Hsig).
Defined.

Lemma wait_body_both_witness :
  AIOReadGPIO 4 quiet_input = (Ok LOW, snd (AIOReadGPIO 4 quiet_input)) ∧
  LOW ≠ HIGH ∧
  ∃ v' s',
    wait_body 4 BOTH 5 0
      {| originalValue := HIGH; value := HIGH;
         valueExit := false; timeoutExit := false |} quiet_input = (Ok v', s') ∧
    valueExit v' = true ∧ keeps_waiting v' = false ∧
    ∀ fuel, wait_loop fuel 4 BOTH 5 0 v' s' = (Ok v', s').
Proof.
  assert (AIOReadGPIO 4 quiet_input = (Ok LOW, snd (AIOReadGPIO 4 quiet_input)))
    as Hread by reflexivity.
  assert (LOW ≠ HIGH) as Hnew by (unfold LOW, HIGH; lia).
  split_and!; [exact Hread | exact Hnew |].
  exact (wait_body_both 4 5 0
           {| originalValue := HIGH; value := HIGH;
              valueExit := false; timeoutExit := false |}
           quiet_input _ LOW Hread Hnew).
Defined.

Lemma wait_for_edge_times_out_witness :
  _exports quiet_input !! 4 = Some IN ∧ valid_trigger RISING ∧
  _events quiet_input !! 4 = None ∧ 3 > 0 ∧
  clock quiet_input (S (ticks quiet_input) + 3)%nat
    - clock quiet_input (ticks quiet_input) > 3 ∧
  (3 < 4)%nat ∧
  fst (wait_for_edge 4 4 RISING 3 quiet_input) = Ok 4.
Proof.
  assert (3 > 0) as Hpos by lia.
  assert (clock quiet_input (S (ticks quiet_input) + 3)%nat
          - clock quiet_input (ticks quiet_input) > 3) as Hlate
    by (vm_compute; reflexivity).
  assert (3 < 4)%nat as Hfuel by lia.
  split_and!; [reflexivity | exact valid_RISING | reflexivity | exact Hpos
               | exact Hlate | exact Hfuel |].
  apply (wait_for_edge_times_out 4 3 4 RISING 3 quiet_input eq_refl
           valid_RISING eq_refl Hpos Hlate Hfuel).
Defined.

Lemma add_event_detect_after_wait_witness :
  wait_for_edge 10 4 RISING 3 quiet_input
    = (Ok 4, snd (wait_for_edge 10 4 RISING 3 quiet_input)) ∧
  valid_trigger FALLING ∧
  fst (add_event_detect 4 FALLING None None
         (snd (wait_for_edge 10 4 RISING 3 quiet_input))) = Ok tt.
Proof.
  assert (wait_for_edge 10 4 RISING 3 quiet_input
          = (Ok 4, snd (wait_for_edge 10 4 RISING 3 quiet_input))) as Hwait
    by (vm_compute; reflexivity).
  split_and!; [exact Hwait | exact valid_FALLING |].
  apply (add_event_detect_after_wait 10 4 RISING FALLING 3 4 None None
           quiet_input _ Hwait valid_FALLING).
Defined.

(** [button.py] on the quiet board with a button, for two edges. *)
Example button_script_run :
  fst (button_script (Name := nat) 0%nat true 1 0%nat [0; 0] imported)
    = Ok [RunningOn 0%nat; PressRelease; ButtonState 0 LOW; ButtonState 0 LOW].
Proof. vm_compute. reflexivity. Qed.

(** C4 on the quiet board: the loop is waiting with baseline high, the
    sample is low and the trigger is RISING, so the loop is still waiting
    after the pass, with baseline low. *)
Lemma wait_loop_polarity_witness :
  EDGE_RISING = HIGH ∧ EDGE_FALLING = LOW ∧
  EDGE_BOTH ≠ EDGE_RISING ∧ EDGE_BOTH ≠ EDGE_FALLING ∧
  keeps_waiting {| originalValue := HIGH; value := HIGH;
                   valueExit := false; timeoutExit := false |} = true ∧
  AIOReadGPIO 4 quiet_input = (Ok LOW, snd (AIOReadGPIO 4 quiet_input)) ∧
  LOW ≠ HIGH ∧
  ∃ v' s',
    wait_body 4 RISING (-1) 0
      {| originalValue := HIGH; value := HIGH;
         valueExit := false; timeoutExit := false |} quiet_input = (Ok v', s') ∧
    originalValue v' = LOW ∧
    wait_loop 1 4 RISING (-1) 0
      {| originalValue := HIGH; value := HIGH;
         valueExit := false; timeoutExit := false |} quiet_input
      = (OutOfFuel, s').
Proof.
  assert (EDGE_BOTH ≠ EDGE_RISING) as HBR by (simpl; lia).
  assert (EDGE_BOTH ≠ EDGE_FALLING) as HBF by (simpl; lia).
  assert (AIOReadGPIO 4 quiet_input = (Ok LOW, snd (AIOReadGPIO 4 quiet_input)))
    as Hread by reflexivity.
  assert (LOW ≠ HIGH) as Hnew by (unfold LOW, HIGH; lia).
  assert (LOW ≠ target_level RISING) as Hwrong by (vm_compute; discriminate).
  assert (EDGE_RISING = HIGH) as HR by reflexivity.
  assert (EDGE_FALLING = LOW) as HF by reflexivity.
  assert (keeps_waiting {| originalValue := HIGH; value := HIGH;
                           valueExit := false; timeoutExit := false |} = true)
    as K by reflexivity.
  split_and!; [exact HR | exact HF | exact HBR | exact HBF | exact K
               | exact Hread | exact Hnew |].
  destruct (wait_loop_polarity 4 RISING (-1) 0
              {| originalValue := HIGH; value := HIGH;
                 valueExit := false; timeoutExit := false |}
              quiet_input _ LOW HR HF HBR HBF (or_introl eq_refl)
              K Hread Hnew)
    as (v' & s' & Hbody & _ & Hbase & _ & _ & Hgoes & Hforever).
  destruct Hforever as [Htime _]; [lia|].
  destruct (Hgoes Hwrong Htime) as (_ & Hloop & _).
  exists v', s'. split_and!; assumption.
Defined.

(** X30 on the pulse board: the level goes high at the fourth sample, so a
    wait for a rising edge returns after three polls and not after two. *)
Lemma wait_for_edge_first_landing_witness :
  fst (wait_for_edge 3 4 RISING (-1) pulse_input) = Ok 4 ∧
  samples (hw (snd (wait_for_edge 3 4 RISING (-1) pulse_input))) = 4%nat ∧
  fst (wait_for_edge 2 4 RISING (-1) pulse_input) = OutOfFuel.
Proof.
  assert (EDGE_BOTH ≠ EDGE_RISING) as HBR by (simpl; lia).
  assert (EDGE_BOTH ≠ EDGE_FALLING) as HBF by (simpl; lia).
  assert (-1 ≤ 0) as Hforever by lia.
  assert (∀ i, (i < 2)%nat →
            ¬ (signal (hw pulse_input) 4 (samples (hw pulse_input) + S i)
                 = target_level RISING ∧
               signal (hw pulse_input) 4 (samples (hw pulse_input) + i)
                 ≠ target_level RISING)) as Hfirst.
  { intros i Hi [Hland _]. revert Hland.
    destruct i as [|[|i]]; [vm_compute; discriminate
                           | vm_compute; discriminate | lia]. }
  assert (signal (hw pulse_input) 4 (samples (hw pulse_input) + 3)
          = target_level RISING) as Hland by reflexivity.
  assert (signal (hw pulse_input) 4 (samples (hw pulse_input) + 2)
          ≠ target_level RISING) as Hprev by (vm_compute; discriminate).
  assert (EDGE_RISING = HIGH) as HR by reflexivity.
  assert (EDGE_FALLING = LOW) as HF by reflexivity.
  assert (_exports pulse_input !! 4 = Some IN) as Hc by reflexivity.
  assert (_events pulse_input !! 4 = None) as Hv by reflexivity.
  assert (driven (hw pulse_input) !! 4 = None) as Hd by reflexivity.
  destruct (wait_for_edge_first_landing 3 2 4 RISING (-1) pulse_input
              HR HF HBR HBF (or_introl eq_refl) Hc Hv
              Hforever Hd Hfirst Hland Hprev) as [Hret _].
  destruct (wait_for_edge_first_landing 2 2 4 RISING (-1) pulse_input
              HR HF HBR HBF (or_introl eq_refl) Hc Hv
              Hforever Hd Hfirst Hland Hprev) as [_ Hwait].
  destruct Hret as [Hok Hsam]; [lia|].
  split_and!; [exact Hok | exact Hsam | apply Hwait; lia].
Defined.
